(** * Citation and co-authorship analytics of [lit_review]

    A shallow embedding of [lit_review/analysis/citation_analyzer.py] and
    [lit_review/analysis/coauthorship_analyzer.py], and the properties of
    the two analyzers.

    Conventions of the embedding
    - Python [int] is [Z]; [str] is [string]; [None]-able values are
      [option]s; a [dict] whose iteration order matters is an association
      list in insertion order.
    - A Python function that can raise returns [exc A]; a [try]/[except]
      is a [match] on that result.
    - The quotient of two Python ints ([a / b], a float) is kept as the
      exact rational it rounds.
    - The centrality routines of networkx work on floats; they are taken
      as a parameter ([NxLib]).  The traversal routines (connectivity,
      components, diameter) are modelled concretely, and so is the power
      iteration of the eigenvector centrality, on binary64 floats, for
      the examples. *)

From Stdlib Require Floats.PrimFloat.
From Stdlib Require Import String Ascii.
From Stdlib Require Import List ZArith QArith Bool Arith Lia.
From Stdlib Require Import Permutation Sorted Relations.
Import ListNotations.
Local Open Scope string_scope.
Local Open Scope list_scope.
Local Open Scope Z_scope.

Set Implicit Arguments.

(* ===================================================================== *)
(** ** Python: exceptions, truthiness, slices, [sorted]                   *)
(* ===================================================================== *)

Module Py.

(** The exceptions that the two analyzers can meet. *)
Inductive exn : Type :=
| TypeError (msg : string)
| AttributeError (type_name attr : string)
| PowerIterationFailedConvergence (max_iter : Z)
| NetworkXError (msg : string)
| NetworkXPointlessConcept (msg : string)
| ValueError (msg : string).

Inductive exc (A : Type) : Type :=
| Ok (a : A)
| Raise (e : exn).
Arguments Ok {A} a.
Arguments Raise {A} e.

Definition bind {A B} (m : exc A) (k : A -> exc B) : exc B :=
match m with
| Ok a => k a
| Raise e => Raise e
end.

Definition is_ok {A} (m : exc A) : bool :=
match m with Ok _ => true | Raise _ => false end.

(** [if x:] on an [Optional[int]]: [None] and [0] are both false. *)
Definition truthy (x : option Z) : bool :=
match x with
| Some v => negb (v =? 0)
| None => false
end.

(** [xs[:limit]] for any Python int [limit]. *)
Definition slice_to {A} (limit : Z) (xs : list A) : list A :=
if limit <? 0
then firstn (Z.to_nat (Z.of_nat (length xs) + limit)) xs
else firstn (Z.to_nat limit) xs.

(** [len(xs)] *)
Definition len {A} (xs : list A) : Z := Z.of_nat (length xs).

(** [a / b if b > 0 else 0] *)
Definition ratio_or_zero (a b : Z) : Q :=
if 0 <? b then Qmake a (Z.to_pos b) else 0%Q.

Section Sorted.
Variables (A K : Type) (key : A -> K).

(** *** [sorted(xs, key=key, reverse=True)] with a total [<] on keys.
    The sort is stable, also under [reverse=True]: among equal keys the
    earlier element stays first.  [x] is placed in front of the sorted
    rest unless the head of the rest has a strictly larger key. *)
Variable ltb : K -> K -> bool.

Fixpoint insert_desc (x : A) (l : list A) : list A :=
  match l with
  | [] => [x]
  | y :: l' => if ltb (key x) (key y) then y :: insert_desc x l'
               else x :: l
  end.

Definition sorted_desc (l : list A) : list A :=
  fold_right insert_desc [] l.

(** *** The same with a [<] that can raise (keys of mixed types). *)
Variable lt_exc : K -> K -> exc bool.

Fixpoint insert_desc_exc (x : A) (l : list A) : exc (list A) :=
  match l with
  | [] => Ok [x]
  | y :: l' =>
      bind (lt_exc (key x) (key y)) (fun b =>
        if b then bind (insert_desc_exc x l') (fun r => Ok (y :: r))
        else Ok (x :: l))
  end.

Fixpoint sorted_desc_exc (l : list A) : exc (list A) :=
  match l with
  | [] => Ok []
  | x :: l' => bind (sorted_desc_exc l') (insert_desc_exc x)
  end.
End Sorted.

(** [<] between two values that are [int] or [None]: Python 3 orders
  ints, and raises [TypeError] as soon as one side is [None]. *)
Definition lt_opt_int (a b : option Z) : exc bool :=
match a, b with
| Some x, Some y => Ok (x <? y)
| None, Some _ =>
    Raise (TypeError "'<' not supported between instances of 'NoneType' and 'int'")
| Some _, None =>
    Raise (TypeError "'<' not supported between instances of 'int' and 'NoneType'")
| None, None =>
    Raise (TypeError "'<' not supported between instances of 'NoneType' and 'NoneType'")
end.

(** [sorted(set(xs))] for ints: ascending, without repetition. *)
Fixpoint insert_uniq (x : Z) (l : list Z) : list Z :=
match l with
| [] => [x]
| y :: l' => if x <? y then x :: l
             else if x =? y then l
             else y :: insert_uniq x l'
end.

Definition sorted_set (xs : list Z) : list Z :=
fold_right insert_uniq [] xs.

(** A Python number: an [int] or a [float]. *)
Inductive number : Type :=
| NInt (z : Z)
| NFloat (q : Q).

End Py.
Import Py.

Notation "x <- m ;; k" := (Py.bind m (fun x => k))
  (at level 61, m at next level, right associativity).

(* ===================================================================== *)
(** ** Entity records read from the store                                 *)
(* ===================================================================== *)

(** [models.Document], [models.Citation]: the columns the analyzers read.
    [doc_authors] is [[a.name for a in doc.authors]]. *)
Record Document : Type := mkDocument {
  doc_id : Z;
  doc_title : string;
  doc_authors : list string;
  publication_year : option Z;
  journal : option string
}.

Record Citation : Type := mkCitation {
  citing_document_id : Z;
  cited_document_id : option Z;
  citation_text : string
}.

(** What [session.query(Document).all()] and [session.query(Citation).all()]
    return in one call. *)
Record Snapshot : Type := mkSnapshot {
  documents : list Document;
  citations : list Citation
}.

Definition empty_corpus : Snapshot := mkSnapshot [] [].

(* ===================================================================== *)
(** ** Insertion-ordered dictionaries                                     *)
(* ===================================================================== *)

Section Dict.
Variables (K V : Type).
Variable K_dec : forall a b : K, {a = b} + {a <> b}.

Definition dict : Type := list (K * V).

Definition keys (d : dict) : list K := map fst d.

(** [d.get(k)] *)
Fixpoint dict_get (k : K) (d : dict) : option V :=
  match d with
  | [] => None
  | (k', v) :: d' => if K_dec k k' then Some v else dict_get k d'
  end.

(** [k in d] *)
Definition dict_mem (k : K) (d : dict) : bool :=
  if in_dec K_dec k (keys d) then true else false.

(** [d[k] = v], or [d[k] = f(d[k])] for a key that is present: the key
    keeps its place. *)
Fixpoint dict_update (k : K) (f : V -> V) (d : dict) : dict :=
  match d with
  | [] => []
  | (k', v) :: d' =>
      if K_dec k k' then (k', f v) :: d' else (k', v) :: dict_update k f d'
  end.

(** [d[k] = v]: a new key goes last. *)
Definition dict_set (k : K) (v : V) (d : dict) : dict :=
  if dict_mem k d then dict_update k (fun _ => v) d else d ++ [(k, v)].

(** [d.setdefault(k, v)] used as a statement. *)
Definition dict_setdefault (k : K) (v : V) (d : dict) : dict :=
  if dict_mem k d then d else d ++ [(k, v)].
End Dict.

Definition pair_dec : forall a b : Z * Z, {a = b} + {a <> b}.
Proof. decide equality; apply Z.eq_dec. Defined.

Definition string_pair_dec : forall a b : string * string, {a = b} + {a <> b}.
Proof. decide equality; apply string_dec. Defined.

(* ===================================================================== *)
(** ** [networkx.DiGraph] as the citation analyzer uses it                *)
(* ===================================================================== *)

(** The attributes given to a document node.  A node that [add_edge]
    creates has an empty attribute dictionary: [None] below. *)
Record PaperAttrs : Type := mkPaperAttrs {
  title : string;
  authors : list string;
  year : option Z;
  attr_journal : option string
}.

Record DiGraph : Type := mkDiGraph {
  dg_node : dict Z (option PaperAttrs);   (* G._node *)
  dg_edge : dict (Z * Z) string           (* G._succ[u][v]['citation_text'] *)
}.

Module DiGraphOps.

Definition empty : DiGraph := mkDiGraph [] [].

(** [G.add_node(n, title=.., authors=.., year=.., journal=..)]: a new
    node is appended; for an old one the four attributes are replaced. *)
Definition add_node (G : DiGraph) (n : Z) (a : PaperAttrs) : DiGraph :=
  mkDiGraph (dict_set Z.eq_dec n (Some a) (dg_node G)) (dg_edge G).

(** [G.add_edge(u, v, citation_text=t)]: missing endpoints become nodes
    without attributes; an edge that exists only has its text replaced. *)
Definition add_edge (G : DiGraph) (u v : Z) (t : string) : DiGraph :=
  mkDiGraph
    (dict_setdefault Z.eq_dec v None
       (dict_setdefault Z.eq_dec u None (dg_node G)))
    (dict_set pair_dec (u, v) t (dg_edge G)).

Definition has_node (G : DiGraph) (n : Z) : bool :=
  dict_mem Z.eq_dec n (dg_node G).

Definition has_edge (G : DiGraph) (u v : Z) : bool :=
  dict_mem pair_dec (u, v) (dg_edge G).

Definition number_of_nodes (G : DiGraph) : Z := len (dg_node G).
Definition number_of_edges (G : DiGraph) : Z := len (dg_edge G).

(** [list(G.nodes())] *)
Definition nodes (G : DiGraph) : list Z := keys (dg_node G).

(** The neighbours of [n] when direction is ignored: successors, then
    predecessors. *)
Definition neighbors_undirected (G : DiGraph) (n : Z) : list Z :=
  map snd (filter (fun e => fst e =? n) (keys (dg_edge G)))
  ++ map fst (filter (fun e => snd e =? n) (keys (dg_edge G))).

End DiGraphOps.

(* ===================================================================== *)
(** ** [CitationAnalyzer.build_citation_network]                          *)
(* ===================================================================== *)

Definition paper_attrs (doc : Document) : PaperAttrs :=
  mkPaperAttrs (doc_title doc) (doc_authors doc) (publication_year doc)
               (journal doc).

(** [for doc in documents: G.add_node(doc.id, ...)] *)
Definition add_document_node (G : DiGraph) (doc : Document) : DiGraph :=
  DiGraphOps.add_node G (doc_id doc) (paper_attrs doc).

(** [if citation.cited_document_id: G.add_edge(...)] *)
Definition add_citation_edge (G : DiGraph) (c : Citation) : DiGraph :=
  if truthy (cited_document_id c) then
    match cited_document_id c with
    | Some cited => DiGraphOps.add_edge G (citing_document_id c) cited
                                        (citation_text c)
    | None => G
    end
  else G.

Definition build_citation_network (s : Snapshot) : DiGraph :=
  fold_left add_citation_edge (citations s)
    (fold_left add_document_node (documents s) DiGraphOps.empty).

(* ===================================================================== *)
(** ** [networkx.Graph] as the co-authorship analyzer uses it             *)
(* ===================================================================== *)

(** [{'id': doc.id, 'title': doc.title, 'year': doc.publication_year}];
    the key ['year'] is always there, its value can be [None]. *)
Record Paper : Type := mkPaper {
  paper_id : Z;
  paper_title : string;
  paper_year : option Z
}.

(** Node attributes [papers], [total_papers]. *)
Record AuthorData : Type := mkAuthorData {
  papers : list Paper;
  total_papers : Z
}.

(** Edge attributes [weight], [papers]. *)
Record EdgeData : Type := mkEdgeData {
  weight : Z;
  edge_papers : list Paper
}.

(** networkx keeps one attribute dictionary per edge and reaches it as
    [G[u][v]] and as [G[v][u]].  Here the edge is stored once, under the
    pair in the order of its first [add_edge], and looked up under both
    orders; the position of the pair in [g_edge] gives the order of
    [G.neighbors]. *)
Record Graph : Type := mkGraph {
  g_node : dict string AuthorData;
  g_edge : dict (string * string) EdgeData
}.

Module GraphOps.

Definition empty : Graph := mkGraph [] [].

Definition has_node (G : Graph) (n : string) : bool :=
  dict_mem string_dec n (g_node G).

Definition has_edge (G : Graph) (u v : string) : bool :=
  dict_mem string_pair_dec (u, v) (g_edge G)
  || dict_mem string_pair_dec (v, u) (g_edge G).

(** [G[u][v]] *)
Definition edge_data (G : Graph) (u v : string) : option EdgeData :=
  match dict_get string_pair_dec (u, v) (g_edge G) with
  | Some d => Some d
  | None => dict_get string_pair_dec (v, u) (g_edge G)
  end.

(** [G.add_node(n, papers=[], total_papers=0)] for a node that is new. *)
Definition add_node (G : Graph) (n : string) (a : AuthorData) : Graph :=
  mkGraph (dict_set string_dec n a (g_node G)) (g_edge G).

(** In-place change of the attributes of node [n]. *)
Definition update_node (G : Graph) (n : string)
           (f : AuthorData -> AuthorData) : Graph :=
  mkGraph (dict_update string_dec n f (g_node G)) (g_edge G).

(** In-place change of the attributes of the edge between [u] and [v]. *)
Definition update_edge (G : Graph) (u v : string)
           (f : EdgeData -> EdgeData) : Graph :=
  mkGraph (g_node G)
    (if dict_mem string_pair_dec (u, v) (g_edge G)
     then dict_update string_pair_dec (u, v) f (g_edge G)
     else dict_update string_pair_dec (v, u) f (g_edge G)).

(** [G.add_edge(u, v, weight=.., papers=..)].  Both endpoints are nodes
    whenever the builder calls it, so no node is created here. *)
Definition add_edge (G : Graph) (u v : string) (d : EdgeData) : Graph :=
  if has_edge G u v then update_edge G u v (fun _ => d)
  else mkGraph (g_node G) (g_edge G ++ [((u, v), d)]).

(** [G[n].items()]: the neighbours of [n] with the edge attributes, in
    the order in which the edges were created.  A self-loop lists [n]
    once. *)
Definition adjacency (G : Graph) (n : string) : list (string * EdgeData) :=
  flat_map (fun e : (string * string) * EdgeData =>
              let '((u, v), d) := e in
              if string_dec u n then [(v, d)]
              else if string_dec v n then [(u, d)]
              else [])
           (g_edge G).

Definition neighbors (G : Graph) (n : string) : list string :=
  map fst (adjacency G n).

(** [G.degree(n)]: a self-loop counts twice. *)
Definition degree (G : Graph) (n : string) : Z :=
  len (neighbors G n)
  + (if in_dec string_dec n (neighbors G n) then 1 else 0).

Definition nodes (G : Graph) : list string := keys (g_node G).
Definition number_of_nodes (G : Graph) : Z := len (g_node G).
Definition number_of_edges (G : Graph) : Z := len (g_edge G).

(** [G.subgraph(c)]: the nodes of [c] and the edges between them. *)
Definition subgraph (G : Graph) (c : list string) : Graph :=
  mkGraph
    (filter (fun kv => if in_dec string_dec (fst kv) c then true else false)
            (g_node G))
    (filter (fun e : (string * string) * EdgeData =>
               (if in_dec string_dec (fst (fst e)) c then true else false)
               && (if in_dec string_dec (snd (fst e)) c then true else false))
            (g_edge G)).

End GraphOps.

(* ===================================================================== *)
(** ** [CoAuthorshipAnalyzer.build_coauthorship_network]                  *)
(* ===================================================================== *)

Definition paper_of (doc : Document) : Paper :=
  mkPaper (doc_id doc) (doc_title doc) (publication_year doc).

(** The body of [for author in authors:]. *)
Definition add_author_paper (p : Paper) (G : Graph) (author : string) : Graph :=
  let G1 := if GraphOps.has_node G author then G
            else GraphOps.add_node G author (mkAuthorData [] 0) in
  GraphOps.update_node G1 author
    (fun a => mkAuthorData (papers a ++ [p]) (total_papers a + 1)).

(** The body of [for author2 in authors[i+1:]:]. *)
Definition link (p : Paper) (author1 : string) (G : Graph) (author2 : string)
  : Graph :=
  if GraphOps.has_edge G author1 author2 then
    GraphOps.update_edge G author1 author2
      (fun d => mkEdgeData (weight d + 1) (edge_papers d ++ [p]))
  else
    GraphOps.add_edge G author1 author2 (mkEdgeData 1 [p]).

(** [for i, author1 in enumerate(authors): for author2 in authors[i+1:]] *)
Fixpoint link_pairs (p : Paper) (authors : list string) (G : Graph) : Graph :=
  match authors with
  | [] => G
  | author1 :: rest => link_pairs p rest (fold_left (link p author1) rest G)
  end.

(** The body of [for doc in documents:]. *)
Definition add_document (G : Graph) (doc : Document) : Graph :=
  let p := paper_of doc in
  link_pairs p (doc_authors doc)
    (fold_left (add_author_paper p) (doc_authors doc) G).

Definition build_coauthorship_network (s : Snapshot) : Graph :=
  fold_left add_document (documents s) GraphOps.empty.

(* ===================================================================== *)
(** ** networkx traversal routines                                        *)
(* ===================================================================== *)

(** The routines below only read the node list and the neighbour function
    of a graph, so they are written once for both graph classes. *)
Section Traversal.
Variable N : Type.
Variable N_dec : forall a b : N, {a = b} + {a <> b}.
Variable nodes : list N.
Variable nbrs : N -> list N.

Definition mem (x : N) (l : list N) : bool :=
  if in_dec N_dec x l then true else false.

(** The neighbours of the level at hand that have not been met. *)
Definition next_level (seen frontier : list N) : list N :=
  nodup N_dec (filter (fun v => negb (mem v seen)) (flat_map nbrs frontier)).

(** Breadth-first search by levels, as in
    [single_source_shortest_path_length]: [frontier] is the level at
    hand, [seen] everything met so far.  The result lists the levels;
    level [i] holds the nodes at distance [i]. *)
Fixpoint bfs_layers (fuel : nat) (seen frontier : list N) : list (list N) :=
  match fuel with
  | O => []
  | S fuel' =>
      match frontier with
      | [] => []
      | _ :: _ =>
          let next := next_level seen frontier in
          frontier :: bfs_layers fuel' (seen ++ next) next
      end
  end.

Definition layers_from (source : N) : list (list N) :=
  bfs_layers (S (length nodes)) [source] [source].

(** [_plain_bfs(G, source)]: the nodes reachable from [source]. *)
Definition plain_bfs (source : N) : list N := concat (layers_from source).

(** [nx.is_connected(G)] / [nx.is_weakly_connected(G)] *)
Definition is_connected : exc bool :=
  match nodes with
  | [] => Raise (NetworkXPointlessConcept
                   "Connectivity is undefined for the null graph.")
  | v :: _ => Ok (length (plain_bfs v) =? length nodes)%nat
  end.

(** [nx.connected_components(G)]: one component per node not yet seen,
    in node order. *)
Fixpoint components_from (todo seen : list N) : list (list N) :=
  match todo with
  | [] => []
  | v :: todo' =>
      if mem v seen then components_from todo' seen
      else let c := plain_bfs v in
           c :: components_from todo' (seen ++ c)
  end.

Definition connected_components : list (list N) := components_from nodes [].

Definition number_connected_components : Z := len connected_components.

(** [max(components, key=len)]: the first one of greatest length. *)
Fixpoint max_by_len (best : list N) (cs : list (list N)) : list N :=
  match cs with
  | [] => best
  | c :: cs' =>
      max_by_len (if (length best <? length c)%nat then c else best) cs'
  end.

Definition largest_component : exc (list N) :=
  match connected_components with
  | [] => Raise (ValueError "max() arg is an empty sequence")
  | c :: cs => Ok (max_by_len c cs)
  end.

(** One entry of [nx.eccentricity(G)]: fails when the search from [v]
    does not meet every node. *)
Definition eccentricity (v : N) : exc Z :=
  let layers := layers_from v in
  if (length (concat layers) =? length nodes)%nat
  then Ok (len layers - 1)
  else Raise (NetworkXError
    "Found infinite path length because the graph is not connected").

Fixpoint eccentricities (vs : list N) : exc (list Z) :=
  match vs with
  | [] => Ok []
  | v :: vs' =>
      e <- eccentricity v ;;
      es <- eccentricities vs' ;;
      Ok (e :: es)
  end.

(** [nx.diameter(G)]: the greatest eccentricity. *)
Definition diameter : exc Z :=
  es <- eccentricities nodes ;;
  match es with
  | [] => Raise (ValueError "max() arg is an empty sequence")
  | e :: es' => Ok (fold_left Z.max es' e)
  end.

(** The sum of the distances from [v] to the nodes it reaches. *)
Fixpoint sum_levels (i : Z) (layers : list (list N)) : Z :=
  match layers with
  | [] => 0
  | l :: ls => i * len l + sum_levels (i + 1) ls
  end.

Definition total_distance : Z :=
  fold_left (fun acc v => acc + sum_levels 0 (layers_from v)) nodes 0.

(** [nx.average_shortest_path_length(G)]: the int 0 for a single node,
    else the float [s / (n * (n - 1))]. *)
Definition average_shortest_path_length : exc number :=
  let n := len nodes in
  if n =? 0 then
    Raise (NetworkXPointlessConcept
      "the null graph has no paths, thus there is no average shortest path length")
  else if n =? 1 then Ok (NInt 0)
  else
    c <- is_connected ;;
    if c then Ok (NFloat (Qmake total_distance (Z.to_pos (n * (n - 1)))))
    else Raise (NetworkXError "Graph is not connected.").
End Traversal.

Module GraphAlg.
Definition is_connected (G : Graph) : exc bool :=
  is_connected string_dec (GraphOps.nodes G) (GraphOps.neighbors G).
Definition connected_components (G : Graph) : list (list string) :=
  connected_components string_dec (GraphOps.nodes G) (GraphOps.neighbors G).
Definition number_connected_components (G : Graph) : Z :=
  number_connected_components string_dec (GraphOps.nodes G)
                              (GraphOps.neighbors G).
Definition largest_component (G : Graph) : exc (list string) :=
  largest_component string_dec (GraphOps.nodes G) (GraphOps.neighbors G).
Definition diameter (G : Graph) : exc Z :=
  diameter string_dec (GraphOps.nodes G) (GraphOps.neighbors G).
Definition average_shortest_path_length (G : Graph) : exc number :=
  average_shortest_path_length string_dec (GraphOps.nodes G)
                               (GraphOps.neighbors G).
End GraphAlg.

Module DiGraphAlg.
Definition is_weakly_connected (G : DiGraph) : exc bool :=
  is_connected Z.eq_dec (DiGraphOps.nodes G)
               (DiGraphOps.neighbors_undirected G).
Definition number_weakly_connected_components (G : DiGraph) : Z :=
  number_connected_components Z.eq_dec (DiGraphOps.nodes G)
                              (DiGraphOps.neighbors_undirected G).
(** [nx.diameter(G.to_undirected())] *)
Definition diameter_undirected (G : DiGraph) : exc Z :=
  diameter Z.eq_dec (DiGraphOps.nodes G) (DiGraphOps.neighbors_undirected G).
End DiGraphAlg.

(* ===================================================================== *)
(** ** The centrality routines of networkx, as a parameter                *)
(* ===================================================================== *)

(** Each routine returns a dictionary from node to score in node order,
    or raises.  [score] stands for Python's [float] and [score_ltb] for
    its [<]. *)
Record NxLib : Type := mkNxLib {
  score : Type;
  score_ltb : score -> score -> bool;
  degree_centrality : Graph -> exc (dict string score);
  betweenness_centrality : Graph -> exc (dict string score);
  closeness_centrality : Graph -> exc (dict string score);
  eigenvector_centrality : Graph -> Z -> exc (dict string score);
  in_degree_centrality : DiGraph -> exc (dict Z score);
  out_degree_centrality : DiGraph -> exc (dict Z score);
  pagerank : DiGraph -> exc (dict Z score)
}.

(** The values stored in an overview dictionary. *)
Inductive value (nx : NxLib) : Type :=
| VInt (z : Z)
| VFloat (q : Q)
| VBool (b : bool)
| VAuthorRanking (r : list (string * score nx))
| VPaperRanking (r : list (Z * score nx)).
Arguments VInt {nx} z.
Arguments VFloat {nx} q.
Arguments VBool {nx} b.

Definition value_of_number (nx : NxLib) (x : number) : value nx :=
  match x with
  | NInt z => VInt z
  | NFloat q => VFloat q
  end.

Definition overview (nx : NxLib) : Type := dict string (value nx).

(** [sorted(d.items(), key=lambda x: x[1], reverse=True)[:k]] *)
Definition top (nx : NxLib) (A : Type) (k : Z) (d : dict A (score nx))
  : list (A * score nx) :=
  slice_to k (sorted_desc (@snd A (score nx)) (score_ltb nx) d).

(* ===================================================================== *)
(** ** [CoAuthorshipAnalyzer.analyze_author_centrality]                   *)
(* ===================================================================== *)

(** The statements inside [try:]. *)
Definition author_centrality_body (nx : NxLib) (G : Graph)
  : exc (overview nx) :=
  degree <- degree_centrality nx G ;;
  betweenness <- betweenness_centrality nx G ;;
  closeness <- closeness_centrality nx G ;;
  eigenvector <- eigenvector_centrality nx G 1000 ;;
  let analysis : overview nx :=
    [ ("total_authors", VInt (GraphOps.number_of_nodes G));
      ("total_collaborations", VInt (GraphOps.number_of_edges G));
      ("average_collaborators_per_author",
        VFloat (Qmake (2 * GraphOps.number_of_edges G)
                      (Z.to_pos (GraphOps.number_of_nodes G))));
      ("top_by_degree_centrality", VAuthorRanking nx (top nx 10 degree));
      ("top_by_betweenness_centrality",
        VAuthorRanking nx (top nx 10 betweenness));
      ("top_by_closeness_centrality", VAuthorRanking nx (top nx 10 closeness));
      ("top_by_eigenvector_centrality",
        VAuthorRanking nx (top nx 10 eigenvector)) ] in
  connected <- GraphAlg.is_connected G ;;
  if connected then
    d <- GraphAlg.diameter G ;;
    apl <- GraphAlg.average_shortest_path_length G ;;
    Ok (analysis ++ [ ("is_connected", VBool true);
                      ("diameter", VInt d);
                      ("average_path_length", value_of_number nx apl) ])
  else
    let k := GraphAlg.number_connected_components G in
    largest_cc <- GraphAlg.largest_component G ;;
    let largest_subgraph := GraphOps.subgraph G largest_cc in
    d <- GraphAlg.diameter largest_subgraph ;;
    Ok (analysis ++ [ ("is_connected", VBool false);
                      ("connected_components", VInt k);
                      ("largest_component_size", VInt (len largest_cc));
                      ("largest_component_diameter", VInt d) ]).

(** [if G.number_of_nodes() == 0: return {}], then
    [try: ... except Exception: log; return {}]. *)
Definition analyze_graph_centrality (nx : NxLib) (G : Graph) : overview nx :=
  if GraphOps.number_of_nodes G =? 0 then []
  else match author_centrality_body nx G with
       | Ok analysis => analysis
       | Raise _ => []
       end.

Definition analyze_author_centrality (nx : NxLib) (s : Snapshot)
  : overview nx :=
  analyze_graph_centrality nx (build_coauthorship_network s).

(* ===================================================================== *)
(** ** [CitationAnalyzer.analyze_citation_patterns]                       *)
(* ===================================================================== *)

(** The statements inside [try:], as a change of the dictionary
    [analysis]; at an exception the dictionary is left as it is then. *)
Definition citation_network_analysis (nx : NxLib) (G : DiGraph)
           (analysis : overview nx) : overview nx :=
  match in_degree_centrality nx G with
  | Raise _ => analysis
  | Ok in_degree =>
  match out_degree_centrality nx G with
  | Raise _ => analysis
  | Ok out_degree =>
  match pagerank nx G with
  | Raise _ => analysis
  | Ok pr =>
      let analysis1 :=
        analysis ++
        [ ("most_cited_by_in_degree", VPaperRanking nx (top nx 5 in_degree));
          ("most_citing_by_out_degree",
            VPaperRanking nx (top nx 5 out_degree));
          ("highest_pagerank", VPaperRanking nx (top nx 5 pr)) ] in
      match DiGraphAlg.is_weakly_connected G with
      | Raise _ => analysis1
      | Ok true =>
          let analysis2 := analysis1 ++ [("is_connected", VBool true)] in
          match DiGraphAlg.diameter_undirected G with
          | Raise _ => analysis2
          | Ok d => analysis2 ++ [("diameter", VInt d)]
          end
      | Ok false =>
          analysis1 ++
          [ ("is_connected", VBool false);
            ("connected_components",
              VInt (DiGraphAlg.number_weakly_connected_components G)) ]
      end
  end end end.

Definition analyze_citation_graph (nx : NxLib) (G : DiGraph) : overview nx :=
  let n := DiGraphOps.number_of_nodes G in
  let e := DiGraphOps.number_of_edges G in
  let analysis : overview nx :=
    [ ("total_papers", VInt n);
      ("total_citations", VInt e);
      ("average_citations_per_paper",
        if 0 <? n then VFloat (Qmake e (Z.to_pos n)) else VInt 0) ] in
  if 0 <? n then citation_network_analysis G analysis else analysis.

Definition analyze_citation_patterns (nx : NxLib) (s : Snapshot)
  : overview nx :=
  analyze_citation_graph nx (build_citation_network s).

(* ===================================================================== *)
(** ** [CitationAnalyzer.get_most_cited_papers]                           *)
(* ===================================================================== *)

(** [Query.count()] runs a counting SELECT at once and returns a
    Python int. *)
Definition query_count (A : Type) (rows : list A) : Z := len rows.

(** [a == b] as an SQL filter: not true when a side is NULL. *)
Definition sql_eq (a b : option Z) : bool :=
  match a, b with
  | Some x, Some y => x =? y
  | _, _ => false
  end.

(** The public attributes of a Python int. *)
Definition int_attributes : list string :=
  [ "as_integer_ratio"; "bit_count"; "bit_length"; "conjugate";
    "denominator"; "from_bytes"; "imag"; "is_integer"; "numerator";
    "real"; "to_bytes" ].

(** [getattr(n, attr)] on an int; only the success of the lookup matters
    here. *)
Definition int_getattr (n : Z) (attr : string) : exc unit :=
  if in_dec string_dec attr int_attributes then Ok tt
  else Raise (AttributeError "int" attr).

(** [{'document': doc.to_dict(), 'citation_count': count}] *)
Record CitedPaper : Type := mkCitedPaper {
  cited_paper : Document;
  citation_count : Z
}.

(** [.limit(k)] *)
Definition sql_limit (A : Type) (k : Z) (rows : list A) : list A :=
  if k <? 0 then rows else firstn (Z.to_nat k) rows.

(** The arguments of the outer [session.query(...)] are evaluated first:
    [session.query(Citation).filter(...).count()] is an int, and
    [.label('count')] is looked up on that int. *)
Definition get_most_cited_papers (s : Snapshot) (limit : Z)
  : exc (list CitedPaper) :=
  let count :=
    query_count
      (filter (fun c => sql_eq (cited_document_id c) (cited_document_id c))
              (citations s)) in
  _ <- int_getattr count "label" ;;
  let groups :=
    nodup Z.eq_dec
      (flat_map (fun c => match cited_document_id c with
                          | Some d => [d]
                          | None => []
                          end) (citations s)) in
  _ <- int_getattr count "desc" ;;
  let citation_counts := sql_limit limit (map (fun d => (d, count)) groups) in
  Ok (flat_map
        (fun row : Z * Z =>
           match find (fun doc => doc_id doc =? fst row) (documents s) with
           | Some doc => [mkCitedPaper doc (snd row)]
           | None => []
           end)
        citation_counts).

(* ===================================================================== *)
(** ** [CoAuthorshipAnalyzer.get_most_collaborative_authors]              *)
(* ===================================================================== *)

Record Collaborator : Type := mkCollaborator {
  collab_name : string;
  collaboration_count : Z;
  shared_papers : list Paper
}.

(** [[{'name': neighbor, 'collaboration_count': G[author][neighbor]['weight'],
       'shared_papers': G[author][neighbor]['papers']}
      for neighbor in G.neighbors(author)]] *)
Definition collaborators_of (G : Graph) (author : string) : list Collaborator :=
  map (fun nd : string * EdgeData =>
         mkCollaborator (fst nd) (weight (snd nd)) (edge_papers (snd nd)))
      (GraphOps.adjacency G author).

(** [sorted(collaborators, key=lambda x: x['collaboration_count'],
            reverse=True)] *)
Definition ranked_collaborators (G : Graph) (author : string)
  : list Collaborator :=
  sorted_desc collaboration_count Z.ltb (collaborators_of G author).

Record AuthorStats : Type := mkAuthorStats {
  stats_name : string;
  stats_total_papers : Z;
  unique_collaborators : Z;
  total_collaborations : Z;
  stats_collaboration_rate : Q;
  stats_collaborators : list Collaborator
}.

Definition author_stats (G : Graph) (entry : string * AuthorData)
  : AuthorStats :=
  let author := fst entry in
  let degree := GraphOps.degree G author in
  let total := total_papers (snd entry) in
  let weighted_degree :=
    fold_left Z.add (map (fun nd => weight (snd nd))
                         (GraphOps.adjacency G author)) 0 in
  mkAuthorStats author total degree weighted_degree
                (ratio_or_zero degree total)
                (ranked_collaborators G author).

Definition most_collaborative (G : Graph) (limit : Z) : list AuthorStats :=
  slice_to limit
    (sorted_desc unique_collaborators Z.ltb (map (author_stats G) (g_node G))).

Definition get_most_collaborative_authors (s : Snapshot) (limit : Z)
  : list AuthorStats :=
  most_collaborative (build_coauthorship_network s) limit.

(* ===================================================================== *)
(** ** [CoAuthorshipAnalyzer.get_author_profile]                          *)
(* ===================================================================== *)

Record AuthorProfile : Type := mkAuthorProfile {
  profile_name : string;
  profile_total_papers : Z;
  collaborative_papers : Z;
  solo_papers : Z;
  profile_unique_collaborators : Z;
  collaboration_rate : Q;
  profile_papers : list Paper;
  profile_collaborators : list Collaborator;
  top_collaborators : list Collaborator;
  years_active : list Z
}.

(** The function returns a profile dictionary or [{'error': msg}]. *)
Inductive ProfileResult : Type :=
| ProfileError (msg : string)
| Profile (p : AuthorProfile).

(** [needle in hay] for two strings. *)
Fixpoint contains (needle hay : string) : bool :=
  if prefix needle hay then true
  else match hay with
       | EmptyString => false
       | String _ hay' => contains needle hay'
       end.

Definition dquote : string := String (ascii_of_nat 34) EmptyString.

Definition not_found_message (author_name : string) : string :=
  append "Author " (append dquote (append author_name
         (append dquote " not found"))).

Definition not_in_network_message (author : string) : string :=
  append "Author " (append dquote (append author
         (append dquote " not found in network"))).

(** [p.get('year') for p in papers if p.get('year')] *)
Definition truthy_years (ps : list Paper) : list Z :=
  flat_map (fun p => if truthy (paper_year p)
                     then match paper_year p with
                          | Some y => [y]
                          | None => []
                          end
                     else []) ps.

(** [any(collab['shared_papers'] for collab in collaborators
         if any(p['id'] == paper['id'] for p in collab['shared_papers']))] *)
Definition is_collaborative (collaborators : list Collaborator) (paper : Paper)
  : bool :=
  existsb (fun collab => match shared_papers collab with
                         | [] => false
                         | _ :: _ => true
                         end)
    (filter (fun collab =>
               existsb (fun p => paper_id p =? paper_id paper)
                       (shared_papers collab))
            collaborators).

(** Everything after the author has been chosen. *)
Definition profile_of (G : Graph) (author : string) : exc ProfileResult :=
  match dict_get string_dec author (g_node G) with
  | None => Ok (ProfileError (not_in_network_message author))
  | Some data =>
      let papers := papers data in
      let collaborators := ranked_collaborators G author in
      let total_papers := len papers in
      let collaborative_papers :=
        len (filter (is_collaborative collaborators) papers) in
      sorted_papers <- sorted_desc_exc paper_year lt_opt_int papers ;;
      Ok (Profile
            (mkAuthorProfile author total_papers collaborative_papers
               (total_papers - collaborative_papers)
               (len collaborators)
               (ratio_or_zero collaborative_papers total_papers)
               sorted_papers
               collaborators
               (slice_to 10 collaborators)
               (sorted_set (truthy_years papers))))
  end.

Section Profile.
(** [str.lower] *)
Variable lower : string -> string.

(** [[name for name in G.nodes()
      if author_name.lower() in name.lower()]] *)
Definition matching_authors (G : Graph) (author_name : string) : list string :=
  filter (fun name => contains (lower author_name) (lower name))
         (GraphOps.nodes G).

Definition author_profile (G : Graph) (author_name : string)
  : exc ProfileResult :=
  match matching_authors G author_name with
  | [] => Ok (ProfileError (not_found_message author_name))
  | first :: _ =>
      let author :=
        if in_dec string_dec author_name (matching_authors G author_name)
        then author_name else first in
      profile_of G author
  end.

Definition get_author_profile (s : Snapshot) (author_name : string)
  : exc ProfileResult :=
  author_profile (build_coauthorship_network s) author_name.
End Profile.

(** [str.lower] on ASCII letters. *)
Definition ascii_lower (c : ascii) : ascii :=
  let n := nat_of_ascii c in
  if ((65 <=? n) && (n <=? 90))%nat then ascii_of_nat (n + 32) else c.

Fixpoint lower_ascii (s : string) : string :=
  match s with
  | EmptyString => EmptyString
  | String c s' => String (ascii_lower c) (lower_ascii s')
  end.

(* ===================================================================== *)
(** ** Vocabulary of the properties                                       *)
(* ===================================================================== *)

(** The citation records with a target that is not null. *)
Definition resolved (cs : list Citation) : list Citation :=
  filter (fun c => match cited_document_id c with
                   | Some _ => true
                   | None => false
                   end) cs.

(** The (citing, cited) pairs of the records that pass the test of
    [build_citation_network]: target neither null nor 0. *)
Definition internal_pairs (cs : list Citation) : list (Z * Z) :=
  flat_map (fun c => match cited_document_id c with
                     | Some cited => if cited =? 0 then []
                                     else [(citing_document_id c, cited)]
                     | None => []
                     end) cs.

Definition doc_ids (s : Snapshot) : list Z := map doc_id (documents s).

(** Every node of [G] outside [ids] has an empty attribute dictionary. *)
Definition bare_outside (ids : list Z) (G : DiGraph) : Prop :=
  forall n, In n (keys (dg_node G)) -> ~ In n ids ->
            dict_get Z.eq_dec n (dg_node G) = Some None.

(** The weight of the edge between [x] and [y]; 0 when there is none. *)
Definition weight_of (G : Graph) (x y : string) : Z :=
  match GraphOps.edge_data G x y with
  | Some d => weight d
  | None => 0
  end.

(** [{x, y} = {a, b}] *)
Definition same_pair (x y a b : string) : bool :=
  (String.eqb x a && String.eqb y b) || (String.eqb x b && String.eqb y a).

(** How many positions i < j of [authors] hold the pair [{x, y}]. *)
Fixpoint pair_occurrences (x y : string) (authors : list string) : Z :=
  match authors with
  | [] => 0
  | a :: rest =>
      len (filter (same_pair x y a) rest) + pair_occurrences x y rest
  end.

(** The same, summed over the documents of the snapshot. *)
Definition total_pair_occurrences (s : Snapshot) (x y : string) : Z :=
  fold_right Z.add 0
    (map (fun d => pair_occurrences x y (doc_authors d)) (documents s)).

(** Every stored edge has a weight of at least 1. *)
Definition positive_weights (G : Graph) : Prop :=
  forall k d, In (k, d) (g_edge G) -> 1 <= weight d.

(** [x in l] *)
Definition inb (x : string) (l : list string) : bool :=
  if in_dec string_dec x l then true else false.

(** The number of documents that list both [x] and [y]. *)
Definition shared_documents (s : Snapshot) (x y : string) : Z :=
  len (filter (fun d => inb x (doc_authors d) && inb y (doc_authors d))
              (documents s)).

(** Each edge is stored under one order of its endpoints only. *)
Definition stored_once (G : Graph) : Prop :=
  forall u v, In (u, v) (keys (g_edge G)) -> In (v, u) (keys (g_edge G)) ->
              u = v.

(** Nodes are distinct and every edge joins two nodes. *)
Definition well_formed (G : Graph) : Prop :=
  NoDup (GraphOps.nodes G)
  /\ forall u v, In (u, v) (keys (g_edge G)) ->
                 In u (GraphOps.nodes G) /\ In v (GraphOps.nodes G).

(** [l] is in descending order of [key]. *)
Definition descending (A : Type) (key : A -> Z) (l : list A) : Prop :=
  StronglySorted (fun a b => key b <= key a) l.

(** [l'] keeps the entries of equal key in the order they have in [l]. *)
Definition keeps_order_of_ties (A : Type) (key : A -> Z) (l l' : list A)
  : Prop :=
  forall k, filter (fun a => key a =? k) l' = filter (fun a => key a =? k) l.

(** The year of a paper as the specification reads it: 0 when missing. *)
Definition year_or_zero (p : Paper) : Z :=
  match paper_year p with
  | Some y => y
  | None => 0
  end.

Definition has_year (p : Paper) : Prop := paper_year p <> None.

(** [y] can be reached from [x] along edges. *)
Definition reach (N : Type) (nbrs : N -> list N) : N -> N -> Prop :=
  clos_refl_trans N (fun a b => In b (nbrs a)).

(** Every node can be reached from every node. *)
Definition connected (N : Type) (nodes : list N) (nbrs : N -> list N)
  : Prop :=
  forall u x, In u nodes -> In x nodes -> reach nbrs u x.

(** The author a query names, in the words of the specification: the
    node equal to the query if there is one; else the first node, in
    node order, whose lower-cased name contains the lower-cased query;
    else none. *)
Definition resolve_author (lower : string -> string) (G : Graph)
           (author_name : string) : option string :=
  if in_dec string_dec author_name (GraphOps.nodes G) then Some author_name
  else find (fun name => contains (lower author_name) (lower name))
            (GraphOps.nodes G).

(** The first node in iteration order. *)
Definition first_node (G : Graph) : string := hd "" (GraphOps.nodes G).

(* ===================================================================== *)
(** ** Example corpora                                                    *)
(* ===================================================================== *)

Definition paper (id : Z) (authors : list string) (year : option Z)
  : Document :=
  mkDocument id "" authors year None.

(** Two records for the same citation. *)
Definition corpus_cited_twice : Snapshot :=
  mkSnapshot [paper 1 [] None; paper 2 [] None]
             [mkCitation 1 (Some 2) "[1]"; mkCitation 1 (Some 2) "(Lee 2020)"].

(** A citation whose target has the id 0. *)
Definition corpus_target_zero : Snapshot :=
  mkSnapshot [paper 1 [] None] [mkCitation 5 (Some 0) "[1]"].

(** A citation between two ids that no document has. *)
Definition corpus_dangling : Snapshot :=
  mkSnapshot [paper 1 [] None] [mkCitation 7 (Some 9) "[1]"].

(** Scenario B of the specification. *)
Definition corpus_scenario_B : Snapshot :=
  mkSnapshot [ paper 1 ["Smith"; "Jones"] (Some 2020);
               paper 2 ["Jones"; "Lee"] (Some 2021);
               paper 3 ["Smith"] (Some 2019) ] [].

(** One document that lists an author twice. *)
Definition corpus_repeated_author : Snapshot :=
  mkSnapshot [ paper 1 ["Smith"; "Jones"; "Smith"] (Some 2020) ] [].

(** An author with two papers, one of them without a year. *)
Definition corpus_missing_year : Snapshot :=
  mkSnapshot [ paper 1 ["Smith"] None; paper 2 ["Smith"] (Some 2020) ] [].

(** An author whose name is the empty string, after another author. *)
Definition corpus_unnamed_author : Snapshot :=
  mkSnapshot [ paper 1 ["Smith"] (Some 2020); paper 2 [""] (Some 2021) ] [].

(** One internal citation. *)
Definition corpus_one_citation : Snapshot :=
  mkSnapshot [ paper 1 [] None; paper 2 [] None ] [mkCitation 1 (Some 2) "[1]"].

(** One paper by two authors. *)
Definition corpus_two_coauthors : Snapshot :=
  mkSnapshot [ paper 1 ["Smith"; "Jones"] (Some 2020) ] [].

(* ===================================================================== *)
(** ** [nx.eigenvector_centrality] on binary64 floats                     *)
(* ===================================================================== *)

Module PyFloat.
Import PrimFloat.
Local Open Scope float_scope.

(** [float(n)] for a count. *)
Fixpoint float_of_nat (n : nat) : float :=
  match n with
  | O => 0
  | S k => float_of_nat k + 1
  end.

(** The default tolerance [tol=1.0e-6], as the binary64 value of that
    literal. *)
Definition tol : float := 0x1.0c6f7a0b5ed8dp-20.

(** [for nbr in G[n]: x[nbr] += xlast[n] * w], with [w = 1] as no weight
    is asked for. *)
Definition spread (G : Graph) (x : dict string float) (n : string)
           (xlast_n : float) : dict string float :=
  fold_left (fun x nbr => dict_update string_dec nbr
                            (fun v => v + xlast_n * 1) x)
            (GraphOps.neighbors G n) x.

(** [x = xlast.copy()], then the loop [for n in x:]. *)
Definition multiply (G : Graph) (xlast : dict string float)
  : dict string float :=
  fold_left (fun x (nv : string * float) => spread G x (fst nv) (snd nv))
            xlast xlast.

(** [math.hypot] of the values, as the square root of the sum of the
    squares. *)
Definition hypot (values : list float) : float :=
  sqrt (fold_left (fun acc v => acc + v * v) values 0).

(** [sum(abs(x[n] - xlast[n]) for n in x)]; the two dictionaries have
    the same keys in the same order. *)
Definition l1_distance (x xlast : dict string float) : float :=
  fold_left (fun acc (ab : (string * float) * (string * float)) =>
               acc + abs (snd (fst ab) - snd (snd ab)))
            (combine x xlast) 0.

(** The loop [for _ in range(max_iter):]; [None] when it ends without a
    [return]. *)
Fixpoint power_iteration (G : Graph) (nnodes : float) (rounds : nat)
         (x : dict string float) : option (dict string float) :=
  match rounds with
  | O => None
  | S rounds' =>
      let xlast := x in
      let x := multiply G xlast in
      let norm := hypot (map snd x) in
      let norm := if norm =? 0 then 1 else norm in
      let x := map (fun kv : string * float => (fst kv, snd kv / norm)) x in
      if l1_distance x xlast <? nnodes * tol then Some x
      else power_iteration G nnodes rounds' x
  end.

(** [nx.eigenvector_centrality(G, max_iter=max_iter)] *)
Definition eigenvector_centrality (G : Graph) (max_iter : Z)
  : exc (dict string float) :=
  match GraphOps.nodes G with
  | [] => Raise (NetworkXPointlessConcept
                   "cannot compute centrality for the null graph")
  | _ :: _ =>
      let nnodes := float_of_nat (length (GraphOps.nodes G)) in
      let x := map (fun v => (v, 1 / nnodes)) (GraphOps.nodes G) in
      match power_iteration G nnodes (Z.to_nat max_iter) x with
      | Some x => Ok x
      | None => Raise (PowerIterationFailedConvergence max_iter)
      end
  end.

Definition constant_scores (A : Type) (q : float) (nodes : list A)
  : dict A float :=
  map (fun n => (n, q)) nodes.

End PyFloat.

(* ===================================================================== *)
(** ** An instance of the centrality routines                             *)
(* ===================================================================== *)

(** Scores as binary64 floats.  The eigenvector centrality is the power
    iteration above.  The other routines return for every graph; their
    scores play no part in what is proved and are constants here. *)
Definition nx_power_iteration : NxLib :=
  {| score := PrimFloat.float;
     score_ltb := PrimFloat.ltb;
     degree_centrality :=
       fun G => Ok (PyFloat.constant_scores PrimFloat.one (GraphOps.nodes G));
     betweenness_centrality :=
       fun G => Ok (PyFloat.constant_scores PrimFloat.zero (GraphOps.nodes G));
     closeness_centrality :=
       fun G => Ok (PyFloat.constant_scores PrimFloat.one (GraphOps.nodes G));
     eigenvector_centrality := PyFloat.eigenvector_centrality;
     in_degree_centrality :=
       fun G => Ok (PyFloat.constant_scores PrimFloat.zero
                                            (DiGraphOps.nodes G));
     out_degree_centrality :=
       fun G => Ok (PyFloat.constant_scores PrimFloat.zero
                                            (DiGraphOps.nodes G));
     pagerank :=
       fun G => Ok (PyFloat.constant_scores PrimFloat.one
                                            (DiGraphOps.nodes G)) |}.

(** Two chains of co-authors without a common paper: nine authors joined
    by eight papers of two, and ten authors joined by nine papers of
    two. *)
Definition corpus_two_paths : Snapshot :=
  mkSnapshot
    [ paper 1 ["A1"; "A2"] (Some 2001); paper 2 ["A2"; "A3"] (Some 2002);
      paper 3 ["A3"; "A4"] (Some 2003); paper 4 ["A4"; "A5"] (Some 2004);
      paper 5 ["A5"; "A6"] (Some 2005); paper 6 ["A6"; "A7"] (Some 2006);
      paper 7 ["A7"; "A8"] (Some 2007); paper 8 ["A8"; "A9"] (Some 2008);
      paper 9 ["B1"; "B2"] (Some 2001); paper 10 ["B2"; "B3"] (Some 2002);
      paper 11 ["B3"; "B4"] (Some 2003); paper 12 ["B4"; "B5"] (Some 2004);
      paper 13 ["B5"; "B6"] (Some 2005); paper 14 ["B6"; "B7"] (Some 2006);
      paper 15 ["B7"; "B8"] (Some 2007); paper 16 ["B8"; "B9"] (Some 2008);
      paper 17 ["B9"; "B10"] (Some 2009) ]
    [].

(** Two groups of co-authors without a common paper. *)
Definition corpus_two_groups : Snapshot :=
  mkSnapshot [ paper 1 ["Smith"; "Jones"] (Some 2020);
               paper 2 ["Lee"; "Kim"; "Park"] (Some 2021);
               paper 3 ["Park"; "Cho"] (Some 2022) ] [].

(* ===================================================================== *)
(** ** What the author overview says about connectivity                   *)
(* ===================================================================== *)

(** [c] holds, each once, the nodes that can be reached from [v]: it is
    the connected component of [v]. *)
Definition component_of (G : Graph) (v : string) (c : list string) : Prop :=
  NoDup c /\ forall x, In x c <-> reach (GraphOps.neighbors G) v x.

(** [c] is a connected component of [G] and no connected component has
    more nodes; among the components of that size it is the one met
    first in node order. *)
Definition is_largest_component (G : Graph) (c : list string) : Prop :=
  exists v before after,
    GraphOps.nodes G = before ++ v :: after
    /\ component_of G v c
    /\ (forall u cu, In u before -> component_of G u cu -> len cu < len c)
    /\ (forall u cu, In u (GraphOps.nodes G) -> component_of G u cu ->
                     len cu <= len c).

(** The overview has [is_connected]; when it is true, the diameter and
    the average path length of the graph and no component field; when it
    is false, the number of components, the size and the diameter of the
    largest component, and no diameter of the whole graph, on which
    [nx.diameter] raises. *)
Definition connectivity_reported (nx : NxLib) (s : Snapshot) : Prop :=
  exists flag,
    GraphAlg.is_connected (build_coauthorship_network s) = Ok flag
    /\ dict_get string_dec "is_connected" (analyze_author_centrality nx s)
       = Some (VBool flag)
    /\ if flag then
         (exists d q,
            GraphAlg.diameter (build_coauthorship_network s) = Ok d
            /\ GraphAlg.average_shortest_path_length
                 (build_coauthorship_network s) = Ok q
            /\ dict_get string_dec "diameter" (analyze_author_centrality nx s)
               = Some (VInt d)
            /\ dict_get string_dec "average_path_length"
                 (analyze_author_centrality nx s)
               = Some (value_of_number nx q))
         /\ dict_get string_dec "connected_components"
              (analyze_author_centrality nx s) = None
         /\ dict_get string_dec "largest_component_size"
              (analyze_author_centrality nx s) = None
         /\ dict_get string_dec "largest_component_diameter"
              (analyze_author_centrality nx s) = None
       else
         (exists c d,
            GraphAlg.largest_component (build_coauthorship_network s) = Ok c
            /\ is_largest_component (build_coauthorship_network s) c
            /\ GraphAlg.diameter
                 (GraphOps.subgraph (build_coauthorship_network s) c) = Ok d
            /\ dict_get string_dec "connected_components"
                 (analyze_author_centrality nx s)
               = Some (VInt (GraphAlg.number_connected_components
                               (build_coauthorship_network s)))
            /\ dict_get string_dec "largest_component_size"
                 (analyze_author_centrality nx s) = Some (VInt (len c))
            /\ dict_get string_dec "largest_component_diameter"
                 (analyze_author_centrality nx s) = Some (VInt d))
         /\ dict_get string_dec "diameter" (analyze_author_centrality nx s)
            = None
         /\ dict_get string_dec "average_path_length"
              (analyze_author_centrality nx s) = None
         /\ exists msg,
              GraphAlg.diameter (build_coauthorship_network s)
              = Raise (NetworkXError msg).

(* ===================================================================== *)
(** ** [CoAuthorshipAnalyzer.get_strongest_collaborations]                *)
(* ===================================================================== *)

(** [G.edges(data=True)] of a [networkx.Graph]: the nodes in node order,
    and for each node its neighbours that have not been a first endpoint
    yet; a node is marked seen after its neighbours have been listed. *)
Fixpoint edges_from (G : Graph) (todo seen : list string)
  : list (string * string * EdgeData) :=
  match todo with
  | [] => []
  | n :: todo' =>
      map (fun nd : string * EdgeData => (n, fst nd, snd nd))
          (filter (fun nd : string * EdgeData => negb (inb (fst nd) seen))
                  (GraphOps.adjacency G n))
      ++ edges_from G todo' (seen ++ [n])
  end.

Definition edges_data (G : Graph) : list (string * string * EdgeData) :=
  edges_from G (GraphOps.nodes G) [].

(** [{'authors': [author1, author2], 'collaboration_count': data['weight'],
      'shared_papers': data['papers']}] *)
Record Collaboration : Type := mkCollaboration {
  collaboration_authors : string * string;
  strength : Z;
  collaboration_papers : list Paper
}.

Definition collaboration_of (e : string * string * EdgeData) : Collaboration :=
  mkCollaboration (fst e) (weight (snd e)) (edge_papers (snd e)).

Definition strongest_collaborations (G : Graph) (limit : Z)
  : list Collaboration :=
  slice_to limit
    (sorted_desc strength Z.ltb (map collaboration_of (edges_data G))).

Definition get_strongest_collaborations (s : Snapshot) (limit : Z)
  : list Collaboration :=
  strongest_collaborations (build_coauthorship_network s) limit.

(* ===================================================================== *)
(** ** [CoAuthorshipAnalyzer.get_collaboration_timeline]                  *)
(* ===================================================================== *)

(** A Python [set], kept as the list of its elements. *)
Section PySet.
Variable A : Type.
Variable A_dec : forall a b : A, {a = b} + {a <> b}.

(** [s.add(x)] *)
Definition set_add (s : list A) (x : A) : list A :=
  if in_dec A_dec x s then s else s ++ [x].

(** [s.update(xs)] *)
Definition set_update (s : list A) (xs : list A) : list A :=
  fold_left set_add xs s.
End PySet.

(** [tuple(sorted([author1, author2]))]: the two names are swapped only
    when the second is smaller. *)
Definition sorted_pair (author1 author2 : string) : string * string :=
  if String.ltb author2 author1 then (author2, author1)
  else (author1, author2).

(** The keys made by
    [for i, author1 in enumerate(authors): for author2 in authors[i+1:]],
    in the order of the loop. *)
Fixpoint author_pairs (authors : list string) : list (string * string) :=
  match authors with
  | [] => []
  | author1 :: rest => map (sorted_pair author1) rest ++ author_pairs rest
  end.

(** One value of the [defaultdict]. *)
Record YearData : Type := mkYearData {
  yd_total_papers : Z;
  yd_collaborative_papers : Z;
  yd_solo_papers : Z;
  yd_unique_authors : list string;
  yd_unique_collaborations : list (string * string)
}.

Definition new_year_data : YearData := mkYearData 0 0 0 [] [].

(** What the loop body does to [timeline[year]]. *)
Definition record_paper (authors : list string) (data : YearData) : YearData :=
  let total := yd_total_papers data + 1 in
  let unique_authors := set_update string_dec (yd_unique_authors data) authors in
  if 1 <? len authors then
    mkYearData total (yd_collaborative_papers data + 1) (yd_solo_papers data)
               unique_authors
               (set_update string_pair_dec (yd_unique_collaborations data)
                           (author_pairs authors))
  else
    mkYearData total (yd_collaborative_papers data) (yd_solo_papers data + 1)
               unique_authors (yd_unique_collaborations data).

(** [d[k]] of a [defaultdict] followed by a change of the value: a
    missing key is created first. *)
Definition defaultdict_update (K V : Type)
           (K_dec : forall a b : K, {a = b} + {a <> b})
           (k : K) (default : V) (f : V -> V) (d : dict K V) : dict K V :=
  if dict_mem K_dec k d then dict_update K_dec k f d
  else d ++ [(k, f default)].

(** The body of [for doc in documents:]. *)
Definition timeline_step (timeline : dict Z YearData) (doc : Document)
  : dict Z YearData :=
  match publication_year doc with
  | Some year =>
      defaultdict_update Z.eq_dec year new_year_data
                         (record_paper (doc_authors doc)) timeline
  | None => timeline
  end.

(** [session.query(Document).filter(Document.publication_year.isnot(None))] *)
Definition dated_documents (s : Snapshot) : list Document :=
  filter (fun doc => match publication_year doc with
                     | Some _ => true
                     | None => false
                     end) (documents s).

Record TimelineEntry : Type := mkTimelineEntry {
  te_total_papers : Z;
  te_collaborative_papers : Z;
  te_solo_papers : Z;
  te_unique_authors : Z;
  te_unique_collaborations : Z;
  te_collaboration_rate : Q
}.

Definition timeline_entry (data : YearData) : TimelineEntry :=
  mkTimelineEntry (yd_total_papers data) (yd_collaborative_papers data)
                  (yd_solo_papers data)
                  (len (yd_unique_authors data))
                  (len (yd_unique_collaborations data))
                  (ratio_or_zero (yd_collaborative_papers data)
                                 (yd_total_papers data)).

(** [(min(keys), max(keys)) if keys else (None, None)] *)
Definition year_range_of (years : list Z) : option Z * option Z :=
  match years with
  | [] => (None, None)
  | y :: ys => (Some (fold_left Z.min ys y), Some (fold_left Z.max ys y))
  end.

Record CollaborationTimeline : Type := mkCollaborationTimeline {
  timeline : dict Z TimelineEntry;
  total_years : Z;
  year_range : option Z * option Z
}.

Definition get_collaboration_timeline (s : Snapshot) : CollaborationTimeline :=
  let timeline := fold_left timeline_step (dated_documents s) [] in
  let final_timeline :=
    map (fun yd : Z * YearData => (fst yd, timeline_entry (snd yd))) timeline in
  mkCollaborationTimeline final_timeline (len final_timeline)
                          (year_range_of (keys final_timeline)).

(* ===================================================================== *)
(** ** [DocumentStorage.get_coauthorship_network]                         *)
(* ===================================================================== *)

(** [collaborations[key] = collaborations.get(key, 0) + 1] *)
Definition count_pair (collaborations : dict (string * string) Z)
           (key : string * string) : dict (string * string) Z :=
  dict_set string_pair_dec key
    (match dict_get string_pair_dec key collaborations with
     | Some c => c
     | None => 0
     end + 1)
    collaborations.

(** The double loop over the authors of the documents. *)
Definition count_collaborations (docs : list Document)
  : dict (string * string) Z :=
  fold_left (fun collaborations doc =>
               fold_left count_pair (author_pairs (doc_authors doc))
                         collaborations)
            docs [].

(** [if author_name:] for an [Optional[str]] *)
Definition nonempty_name (author_name : option string) : option string :=
  match author_name with
  | Some EmptyString => None
  | Some name => Some name
  | None => None
  end.

(** [author_documents name] stands for the query
    [session.query(Author).filter(Author.name.ilike(...)).first()] and
    the documents of the author it finds. *)
Definition get_coauthorship_network
           (author_documents : string -> option (list Document))
           (s : Snapshot) (author_name : option string)
  : dict (string * string) Z :=
  match nonempty_name author_name with
  | Some name =>
      match author_documents name with
      | Some docs => count_collaborations docs
      | None => []
      end
  | None => count_collaborations (documents s)
  end.

(* ===================================================================== *)
(** ** Vocabulary of the timeline properties                              *)
(* ===================================================================== *)

(** The documents published in [year]. *)
Definition in_year (year : Z) (docs : list Document) : list Document :=
  filter (fun doc => match publication_year doc with
                     | Some y => y =? year
                     | None => false
                     end) docs.

(** [len(authors) > 1] *)
Definition is_collaborative_paper (doc : Document) : bool :=
  1 <? len (doc_authors doc).

(** The timeline entry of a year, computed from the documents of that
    year: counts of papers, of distinct author names and of distinct
    sorted pairs of co-authors. *)
Definition timeline_entry_of (docs : list Document) : TimelineEntry :=
  mkTimelineEntry
    (len docs)
    (len (filter is_collaborative_paper docs))
    (len (filter (fun d => negb (is_collaborative_paper d)) docs))
    (len (nodup string_dec (flat_map doc_authors docs)))
    (len (nodup string_pair_dec
                (flat_map (fun d => author_pairs (doc_authors d))
                          (filter is_collaborative_paper docs))))
    (ratio_or_zero (len (filter is_collaborative_paper docs)) (len docs)).

(** What the loop has stored for a year after the documents [docs] of
    that year. *)
Definition year_data_of (docs : list Document) (data : YearData) : Prop :=
  yd_total_papers data = len docs
  /\ yd_collaborative_papers data = len (filter is_collaborative_paper docs)
  /\ yd_solo_papers data
     = len (filter (fun d => negb (is_collaborative_paper d)) docs)
  /\ NoDup (yd_unique_authors data)
  /\ (forall a, In a (yd_unique_authors data)
                <-> In a (flat_map doc_authors docs))
  /\ NoDup (yd_unique_collaborations data)
  /\ (forall p, In p (yd_unique_collaborations data)
                <-> In p (flat_map (fun d => author_pairs (doc_authors d))
                                   (filter is_collaborative_paper docs))).

(** The state of the [defaultdict] after the documents [done]. *)
Definition timeline_inv (done : list Document) (tl : dict Z YearData) : Prop :=
  NoDup (keys tl)
  /\ (forall y, In y (keys tl) <-> in_year y done <> [])
  /\ (forall y data, dict_get Z.eq_dec y tl = Some data ->
                     year_data_of (in_year y done) data).

(** The sum of [total_papers] over the entries of a timeline. *)
Definition papers_in_timeline (tl : dict Z TimelineEntry) : Z :=
  fold_right Z.add 0 (map (fun e => te_total_papers (snd e)) tl).

(** The sum of [total_papers] over the values of the [defaultdict]. *)
Definition sum_totals (tl : dict Z YearData) : Z :=
  fold_right Z.add 0 (map (fun e => yd_total_papers (snd e)) tl).

(** The count stored for a key; 0 when the key is missing. *)
Definition count_of (collaborations : dict (string * string) Z)
           (key : string * string) : Z :=
  match dict_get string_pair_dec key collaborations with
  | Some c => c
  | None => 0
  end.

(** How often [key] occurs in a list of keys. *)
Definition occurrences (key : string * string) (l : list (string * string))
  : Z :=
  len (filter (fun k => if string_pair_dec k key then true else false) l).

(** Every stored count is at least 1. *)
Definition counts_positive (collaborations : dict (string * string) Z) : Prop :=
  forall k c, dict_get string_pair_dec k collaborations = Some c -> 1 <= c.

(** The stored edges of [G] with no endpoint in [seen]. *)
Definition free_edges (G : Graph) (seen : list string)
  : list ((string * string) * EdgeData) :=
  filter (fun e : (string * string) * EdgeData =>
            negb (inb (fst (fst e)) seen) && negb (inb (snd (fst e)) seen))
         (g_edge G).

(** The papers that the builder records for an author: one entry for
    each place of the name in an author list, in document order. *)
Definition papers_of (author : string) (docs : list Document) : list Paper :=
  flat_map (fun d => map (fun _ => paper_of d)
                         (filter (String.eqb author) (doc_authors d)))
           docs.

Definition author_data_of (ps : list Paper) : option AuthorData :=
  match ps with
  | [] => None
  | _ :: _ => Some (mkAuthorData ps (len ps))
  end.

(** The other authors of the documents that list [author]. *)
Definition coauthors_of (author : string) (docs : list Document)
  : list string :=
  flat_map (fun d => if inb author (doc_authors d)
                     then filter (fun b => negb (String.eqb b author))
                                 (doc_authors d)
                     else [])
           docs.

(** The documents that list [author]. *)
Definition documents_of (author : string) (docs : list Document)
  : list Document :=
  filter (fun d => inb author (doc_authors d)) docs.

(** The number of places at which [x] stands in [l]. *)
Definition count_name (x : string) (l : list string) : Z :=
  len (filter (String.eqb x) l).

(** [G[x][y]['papers']], or nothing where there is no edge. *)
Definition edge_papers_of (G : Graph) (x y : string) : list Paper :=
  match GraphOps.edge_data G x y with
  | Some d => edge_papers d
  | None => []
  end.

(** One entry for each pairing of [x] and [y] in an author list, in
    document order. *)
Definition pair_papers (x y : string) (docs : list Document) : list Paper :=
  flat_map (fun d => repeat (paper_of d)
                       (Z.to_nat (pair_occurrences x y (doc_authors d))))
           docs.

(** The documents that list both [x] and [y]. *)
Definition shared_documents_of (x y : string) (docs : list Document)
  : list Document :=
  filter (fun d => inb x (doc_authors d) && inb y (doc_authors d)) docs.

(** What [link] does to the attributes of the edge it touches. *)
Definition linked (p : Paper) (old : option EdgeData) : EdgeData :=
  match old with
  | Some d => mkEdgeData (weight d + 1) (edge_papers d ++ [p])
  | None => mkEdgeData 1 [p]
  end.

(* ===================================================================== *)
(** ** Vocabulary for the citation graph                                  *)
(* ===================================================================== *)

(** The ids joined by the citation records whose target is neither null
    nor 0. *)
Definition cited_endpoints (cs : list Citation) : list Z :=
  flat_map (fun e : Z * Z => [fst e; snd e]) (internal_pairs cs).

Definition inZ (n : Z) (l : list Z) : bool :=
  if in_dec Z.eq_dec n l then true else false.

(** The attributes of the last document whose id is [n]. *)
Fixpoint last_attrs (n : Z) (docs : list Document) : option PaperAttrs :=
  match docs with
  | [] => None
  | d :: ds =>
      match last_attrs n ds with
      | Some a => Some a
      | None => if doc_id d =? n then Some (paper_attrs d) else None
      end
  end.

(** The record [c] cites [v] from [u], with a target that counts. *)
Definition cites (u v : Z) (c : Citation) : bool :=
  match cited_document_id c with
  | Some t => negb (t =? 0) && (t =? v) && (citing_document_id c =? u)
  | None => false
  end.

(** The text of the last record that cites [v] from [u]. *)
Fixpoint last_text (u v : Z) (cs : list Citation) : option string :=
  match cs with
  | [] => None
  | c :: cs' =>
      match last_text u v cs' with
      | Some t => Some t
      | None => if cites u v c then Some (citation_text c) else None
      end
  end.

(* ===================================================================== *)
(** ** [CoAuthorshipAnalyzer.find_research_communities]                   *)
(* ===================================================================== *)

(** [{'name': author, 'papers_count': .., 'collaborations_in_community': ..}] *)
Record CommunityAuthor : Type := mkCommunityAuthor {
  ca_name : string;
  papers_count : Z;
  collaborations_in_community : Z
}.

Record Community : Type := mkCommunity {
  community_id : Z;
  size : Z;
  community_total_papers : Z;
  internal_collaborations : Z;
  density : Q;
  community_authors : list CommunityAuthor;
  key_authors : list CommunityAuthor
}.

(** [enumerate(xs)] *)
Fixpoint enumerate_from (A : Type) (i : Z) (xs : list A) : list (Z * A) :=
  match xs with
  | [] => []
  | x :: xs' => (i, x) :: enumerate_from (i + 1) xs'
  end.

Definition enumerate (A : Type) (xs : list A) : list (Z * A) :=
  enumerate_from 0 xs.

(** Lookups made one after the other; [None] stands for the exception
    that the first failing one raises. *)
Fixpoint all_some (A : Type) (l : list (option A)) : option (list A) :=
  match l with
  | [] => Some []
  | None :: _ => None
  | Some x :: l' => option_map (cons x) (all_some l')
  end.

(** [G.nodes[author]['total_papers']]: a [KeyError] for a name that is
    not a node. *)
Definition node_total_papers (G : Graph) (author : string) : option Z :=
  option_map total_papers (dict_get string_dec author (g_node G)).

(** [nx.density] of an undirected graph. *)
Definition nx_density (G : Graph) : Q :=
  let n := GraphOps.number_of_nodes G in
  let m := GraphOps.number_of_edges G in
  if (m =? 0) || (n <=? 1) then 0%Q
  else Qmake (2 * m) (Z.to_pos (n * (n - 1))).

(** The body of [if len(community) >= 3:] for the community of index
    [i]. *)
Definition community_report (G : Graph) (i : Z) (community : list string)
  : option Community :=
  let subgraph := GraphOps.subgraph G community in
  match all_some (map (node_total_papers G) community) with
  | None => None
  | Some counts =>
      let authors_in_community :=
        map (fun ac : string * Z =>
               mkCommunityAuthor (fst ac) (snd ac)
                                 (GraphOps.degree subgraph (fst ac)))
            (combine community counts) in
      let sorted_authors :=
        sorted_desc papers_count Z.ltb authors_in_community in
      Some (mkCommunity i (len community) (fold_left Z.add counts 0)
              (GraphOps.number_of_edges subgraph) (nx_density subgraph)
              sorted_authors (slice_to 5 sorted_authors))
  end.

(** [for i, community in enumerate(communities): ...] *)
Fixpoint research_communities_from (G : Graph)
         (cs : list (Z * list string)) : option (list Community) :=
  match cs with
  | [] => Some []
  | (i, community) :: rest =>
      if 3 <=? len community then
        match community_report G i community with
        | None => None
        | Some r => option_map (cons r) (research_communities_from G rest)
        end
      else research_communities_from G rest
  end.

Section Communities.
(** [nx.community.greedy_modularity_communities]: the communities in the
    order of the returned list, each one in its iteration order, or an
    exception. *)
Variable greedy_modularity_communities : Graph -> exc (list (list string)).

(** Whatever is raised inside [try:] gives the empty list. *)
Definition research_communities (G : Graph) : list Community :=
  match greedy_modularity_communities G with
  | Raise _ => []
  | Ok communities =>
      match research_communities_from G (enumerate communities) with
      | None => []
      | Some reports => sorted_desc size Z.ltb reports
      end
  end.

Definition find_research_communities (s : Snapshot) : list Community :=
  research_communities (build_coauthorship_network s).
End Communities.

(* ===================================================================== *)
(** ** [CitationAnalyzer.find_citation_clusters]                          *)
(* ===================================================================== *)

(** [{'id': node_id, 'title': .., 'authors': .., 'year': ..}] *)
Record ClusterDocument : Type := mkClusterDocument {
  cd_id : Z;
  cd_title : string;
  cd_authors : list string;
  cd_year : option Z
}.

Record Cluster : Type := mkCluster {
  cluster_id : Z;
  cluster_size : Z;
  cluster_documents : list ClusterDocument
}.

(** [node_data = G.nodes[node_id]] and the three [node_data.get]: a
    [KeyError] for an id that is not a node, the defaults for a node
    without attributes. *)
Definition cluster_document (G : DiGraph) (node_id : Z)
  : option ClusterDocument :=
  match dict_get Z.eq_dec node_id (dg_node G) with
  | None => None
  | Some None => Some (mkClusterDocument node_id "" [] None)
  | Some (Some a) =>
      Some (mkClusterDocument node_id (title a) (authors a) (year a))
  end.

Fixpoint citation_clusters_from (G : DiGraph) (cs : list (Z * list Z))
  : option (list Cluster) :=
  match cs with
  | [] => Some []
  | (i, community) :: rest =>
      if 3 <=? len community then
        match all_some (map (cluster_document G) community) with
        | None => None
        | Some cluster_docs =>
            option_map (cons (mkCluster i (len community) cluster_docs))
                       (citation_clusters_from G rest)
        end
      else citation_clusters_from G rest
  end.

Section Clusters.
(** [nx.community.greedy_modularity_communities(G.to_undirected())] *)
Variable undirected_communities : DiGraph -> exc (list (list Z)).

Definition citation_clusters (G : DiGraph) : list Cluster :=
  match undirected_communities G with
  | Raise _ => []
  | Ok communities =>
      match citation_clusters_from G (enumerate communities) with
      | None => []
      | Some clusters => sorted_desc cluster_size Z.ltb clusters
      end
  end.

Definition find_citation_clusters (s : Snapshot) : list Cluster :=
  citation_clusters (build_citation_network s).
End Clusters.

(** An example of a community routine: all the nodes as one community. *)
Definition one_community (G : Graph) : exc (list (list string)) :=
  Ok [GraphOps.nodes G].


(* ===================================================================== *)
(** ** [CitationAnalyzer.get_most_citing_papers]                          *)
(* ===================================================================== *)

(** [{'document': doc.to_dict(), 'citations_made': count}] *)
Record CitingPaper : Type := mkCitingPaper {
  citing_paper : Document;
  citations_made : Z
}.

(** As in [get_most_cited_papers], the arguments of the outer
    [session.query(...)] come first: the count is an int, and
    [.label('count')] is looked up on it. *)
Definition get_most_citing_papers (s : Snapshot) (limit : Z)
  : exc (list CitingPaper) :=
  let count :=
    query_count
      (filter (fun c => citing_document_id c =? citing_document_id c)
              (citations s)) in
  _ <- int_getattr count "label" ;;
  let groups := nodup Z.eq_dec (map citing_document_id (citations s)) in
  _ <- int_getattr count "desc" ;;
  let citing_counts := sql_limit limit (map (fun d => (d, count)) groups) in
  Ok (flat_map
        (fun row : Z * Z =>
           match find (fun doc => doc_id doc =? fst row) (documents s) with
           | Some doc => [mkCitingPaper doc (snd row)]
           | None => []
           end)
        citing_counts).

(* ===================================================================== *)
(** ** [CitationAnalyzer.get_citation_timeline]                           *)
(* ===================================================================== *)

Record CitationYear : Type := mkCitationYear {
  cy_citations_made : Z;
  cy_citations_received : Z;
  net_citations : Z
}.

Record CitationTimeline : Type := mkCitationTimeline {
  ct_timeline : dict Z CitationYear;
  ct_total_years : Z;
  ct_year_range : option Z * option Z
}.

(** The rows of [citations x documents] that an SQL filter keeps. *)
Definition joined (f : Citation -> Document -> bool) (s : Snapshot)
  : list (Citation * Document) :=
  flat_map (fun c => map (fun d => (c, d)) (filter (f c) (documents s)))
           (citations s).

(** The two counts are ints when [.label] is looked up on them; the rows
    of the outer query would be one per year, in ascending order. *)
Definition get_citation_timeline (s : Snapshot) : exc CitationTimeline :=
  let made :=
    query_count
      (joined (fun c d => citing_document_id c =? doc_id d) s) in
  _ <- int_getattr made "label" ;;
  let received :=
    query_count
      (joined (fun c d => sql_eq (cited_document_id c) (Some (doc_id d))) s) in
  _ <- int_getattr received "label" ;;
  let years :=
    sorted_set (flat_map (fun d => match publication_year d with
                                   | Some y => [y]
                                   | None => []
                                   end) (documents s)) in
  let timeline :=
    fold_left (fun t year =>
                 dict_set Z.eq_dec year
                          (mkCitationYear made received (received - made)) t)
              years [] in
  Ok (mkCitationTimeline timeline (len timeline)
        (year_range_of (keys timeline))).

(* ===================================================================== *)
(** ** The analysis routes of [web/app.py]                                *)
(* ===================================================================== *)

(** What a route reads of the request: [request.args.get('type')] and
    [request.args.get('limit', type=int)], the latter absent when the
    argument is missing or is not an int. *)
Record Request : Type := mkRequest {
  arg_type : option string;
  arg_limit : option Z
}.

(** [request.args.get(key, default)] *)
Definition arg_or (A : Type) (default : A) (a : option A) : A :=
  match a with
  | Some x => x
  | None => default
  end.

(** The JSON body of a response: a result, [{'error': msg}], or
    [{'error': str(e)}] for an exception [e]. *)
Inductive body (A : Type) : Type :=
| Payload (a : A)
| ErrorMessage (msg : string)
| ErrorOf (e : exn).
Arguments Payload {A} a.
Arguments ErrorMessage {A} msg.
Arguments ErrorOf {A} e.

(** Body and status code. *)
Definition response (A : Type) : Type := (body A * Z)%type.

Inductive citation_analysis (nx : NxLib) : Type :=
| CitationOverview (o : overview nx)
| MostCited (l : list CitedPaper)
| MostCiting (l : list CitingPaper)
| CitationTimelineOf (t : CitationTimeline)
| CitationClusters (l : list Cluster).
Arguments MostCited {nx} l.
Arguments MostCiting {nx} l.
Arguments CitationTimelineOf {nx} t.
Arguments CitationClusters {nx} l.

Section Routes.
Variable nx : NxLib.
Variable undirected_communities : DiGraph -> exc (list (list Z)).
Variable lower : string -> string.

(** The [try:] block of [get_citation_analysis]: [None] for the branch
    that returns the status 400. *)
Definition citation_analysis_of (s : Snapshot) (request : Request)
  : exc (option (citation_analysis nx)) :=
  let analysis_type := arg_or "overview" (arg_type request) in
  if String.eqb analysis_type "overview" then
    Ok (Some (CitationOverview (analyze_citation_patterns nx s)))
  else if String.eqb analysis_type "most_cited" then
    let limit := arg_or 10 (arg_limit request) in
    analysis <- get_most_cited_papers s limit ;;
    Ok (Some (MostCited analysis))
  else if String.eqb analysis_type "most_citing" then
    let limit := arg_or 10 (arg_limit request) in
    analysis <- get_most_citing_papers s limit ;;
    Ok (Some (MostCiting analysis))
  else if String.eqb analysis_type "timeline" then
    analysis <- get_citation_timeline s ;;
    Ok (Some (CitationTimelineOf analysis))
  else if String.eqb analysis_type "clusters" then
    Ok (Some (CitationClusters
                (find_citation_clusters undirected_communities s)))
  else Ok None.

Definition get_citation_analysis (s : Snapshot) (request : Request)
  : response (citation_analysis nx) :=
  match citation_analysis_of s request with
  | Ok (Some analysis) => (Payload analysis, 200)
  | Ok None => (ErrorMessage "Invalid analysis type", 400)
  | Raise e => (ErrorOf e, 500)
  end.

(** The route [/api/authors/<path:author_name>]. *)
Definition author_route (s : Snapshot) (author_name : string)
  : response ProfileResult :=
  match get_author_profile lower s author_name with
  | Ok (ProfileError msg) => (Payload (ProfileError msg), 404)
  | Ok (Profile p) => (Payload (Profile p), 200)
  | Raise e => (ErrorOf e, 500)
  end.
End Routes.

(* ===================================================================== *)
(** ** [analyze_collection] of [batch_process.py]                         *)
(* ===================================================================== *)

(** A value interpolated into a log line. *)
Inductive log_arg (nx : NxLib) : Type :=
| ArgValue (v : value nx)
| ArgInt (z : Z)
| ArgString (s : string).
Arguments ArgInt {nx} z.
Arguments ArgString {nx} s.

(** A call of [logger.info] or [logger.error]: the text of the f-string
    before its first field, and the values of its fields. *)
Inductive log_record (nx : NxLib) : Type :=
| LogInfo (text : string) (args : list (log_arg nx))
| LogError (text : string) (e : exn).

(** Code that writes to the log and may raise. *)
Definition logged (nx : NxLib) (A : Type) : Type :=
  (list (log_record nx) * exc A)%type.

Definition log_pure (nx : NxLib) (A : Type) (a : A) : logged nx A :=
  ([], Ok a).

Definition log_bind (nx : NxLib) (A B : Type) (m : logged nx A)
           (k : A -> logged nx B) : logged nx B :=
  match snd m with
  | Ok a => (fst m ++ fst (k a), snd (k a))
  | Raise e => (fst m, Raise e)
  end.

Definition info (nx : NxLib) (text : string) (args : list (log_arg nx))
  : logged nx unit :=
  ([LogInfo text args], Ok tt).

Definition lift (nx : NxLib) (A : Type) (m : exc A) : logged nx A :=
  ([], m).

(** [for x in xs: body(x)] *)
Fixpoint log_for (nx : NxLib) (A : Type) (xs : list A)
         (body : A -> logged nx unit) : logged nx unit :=
  match xs with
  | [] => log_pure nx tt
  | x :: xs' => log_bind (body x) (fun _ => log_for xs' body)
  end.

(** [d.get(key, 0)] on an overview. *)
Definition overview_get (nx : NxLib) (d : overview nx) (key : string)
  : value nx :=
  match dict_get string_dec key d with
  | Some v => v
  | None => VInt 0
  end.

(** The field [{v:.2f}] of an f-string: numbers are formatted, a list is
    not. *)
Definition format_2f (nx : NxLib) (v : value nx) : exc (log_arg nx) :=
  match v with
  | VInt _ | VFloat _ | VBool _ => Ok (ArgValue v)
  | VAuthorRanking _ _ | VPaperRanking _ _ =>
      Raise (TypeError "unsupported format string passed to list.__format__")
  end.

Section AnalyzeCollection.
Variable nx : NxLib.
Variable greedy_modularity_communities : Graph -> exc (list (list string)).

(** The statements inside [try:]. *)
Definition analyze_collection_body (s : Snapshot) : logged nx unit :=
  log_bind (@info nx "Analyzing citation patterns..." []) (fun _ =>
  let citation_analysis := analyze_citation_patterns nx s in
  log_bind (@info nx "Citation Analysis Results:" []) (fun _ =>
  log_bind (@info nx "  Total papers: "
              [ArgValue (overview_get citation_analysis "total_papers")])
           (fun _ =>
  log_bind (@info nx "  Total citations: "
              [ArgValue (overview_get citation_analysis "total_citations")])
           (fun _ =>
  log_bind (lift nx (format_2f
                       (overview_get citation_analysis
                                     "average_citations_per_paper")))
           (fun average =>
  log_bind (@info nx "  Average citations per paper: " [average]) (fun _ =>
  log_bind (lift nx (get_most_cited_papers s 5)) (fun most_cited =>
  log_bind
    (match most_cited with
     | [] => log_pure nx tt
     | _ :: _ =>
         log_bind (@info nx "Top 5 most cited papers:" []) (fun _ =>
         log_for (enumerate_from 1 most_cited)
           (fun ip : Z * CitedPaper =>
              @info nx "  "
                [ArgInt (fst ip);
                 ArgString (doc_title (cited_paper (snd ip)));
                 ArgInt (citation_count (snd ip))]))
     end) (fun _ =>
  log_bind (@info nx "Analyzing collaboration patterns..." []) (fun _ =>
  let collab_analysis := analyze_author_centrality nx s in
  log_bind (@info nx "Collaboration Analysis Results:" []) (fun _ =>
  log_bind (@info nx "  Total authors: "
              [ArgValue (overview_get collab_analysis "total_authors")])
           (fun _ =>
  log_bind (@info nx "  Total collaborations: "
              [ArgValue (overview_get collab_analysis "total_collaborations")])
           (fun _ =>
  log_bind (lift nx (format_2f
                       (overview_get collab_analysis
                                     "average_collaborators_per_author")))
           (fun average =>
  log_bind (@info nx "  Average collaborators per author: " [average])
           (fun _ =>
  let most_collaborative := get_most_collaborative_authors s 5 in
  log_bind
    (match most_collaborative with
     | [] => log_pure nx tt
     | _ :: _ =>
         log_bind (@info nx "Top 5 most collaborative authors:" []) (fun _ =>
         log_for (enumerate_from 1 most_collaborative)
           (fun ia : Z * AuthorStats =>
              @info nx "  "
                [ArgInt (fst ia);
                 ArgString (stats_name (snd ia));
                 ArgInt (unique_collaborators (snd ia))]))
     end) (fun _ =>
  let communities :=
    find_research_communities greedy_modularity_communities s in
  match communities with
  | [] => log_pure nx tt
  | _ :: _ =>
      log_bind (@info nx "Found " [ArgInt (len communities)]) (fun _ =>
      log_for (enumerate_from 1 (slice_to 3 communities))
        (fun ic : Z * Community =>
           @info nx "  Community "
             [ArgInt (fst ic);
              ArgInt (size (snd ic));
              ArgInt (community_total_papers (snd ic))]))
  end))))))))))))))).

(** The log that one call leaves. *)
Definition analyze_collection (s : Snapshot) : list (log_record nx) :=
  match snd (analyze_collection_body s) with
  | Ok _ => fst (analyze_collection_body s)
  | Raise e =>
      fst (analyze_collection_body s)
      ++ [LogError nx "Error during analysis: " e]
  end.
End AnalyzeCollection.

(* ===================================================================== *)
(** * Properties                                                          *)
(* ===================================================================== *)

(** ** Dictionaries *)

Section DictFacts.
Variables (K V : Type).
Variable K_dec : forall a b : K, {a = b} + {a <> b}.
Implicit Types (d : dict K V) (k : K).

Lemma dict_mem_In k d : dict_mem K_dec k d = true <-> In k (keys d).
Proof.
  unfold dict_mem. destruct (in_dec K_dec k (keys d)); split; intros;
    auto; discriminate.
Qed.

Lemma dict_mem_false k d : dict_mem K_dec k d = false <-> ~ In k (keys d).
Proof.
  unfold dict_mem. destruct (in_dec K_dec k (keys d)); split; intros;
    auto; try discriminate. contradiction.
Qed.

Lemma keys_app d1 d2 : keys (d1 ++ d2) = keys d1 ++ keys d2.
Proof. apply map_app. Qed.

Lemma keys_dict_update k f d : keys (dict_update K_dec k f d) = keys d.
Proof.
  induction d as [|[k' v] d IH]; simpl; auto.
  destruct (K_dec k k'); simpl; congruence.
Qed.

Lemma keys_dict_set k v d :
  keys (dict_set K_dec k v d)
  = if dict_mem K_dec k d then keys d else keys d ++ [k].
Proof.
  unfold dict_set. destruct (dict_mem K_dec k d).
  - apply keys_dict_update.
  - now rewrite keys_app.
Qed.

Lemma keys_dict_setdefault k v d :
  keys (dict_setdefault K_dec k v d)
  = if dict_mem K_dec k d then keys d else keys d ++ [k].
Proof.
  unfold dict_setdefault. destruct (dict_mem K_dec k d); auto.
  now rewrite keys_app.
Qed.

Lemma In_keys_dict_set k v d x :
  In x (keys (dict_set K_dec k v d)) <-> x = k \/ In x (keys d).
Proof.
  rewrite keys_dict_set. destruct (dict_mem K_dec k d) eqn:E.
  - apply dict_mem_In in E. split; [auto|]. intros [->|]; auto.
  - rewrite in_app_iff. simpl. intuition.
Qed.

Lemma In_keys_dict_setdefault k v d x :
  In x (keys (dict_setdefault K_dec k v d)) <-> x = k \/ In x (keys d).
Proof.
  rewrite keys_dict_setdefault. destruct (dict_mem K_dec k d) eqn:E.
  - apply dict_mem_In in E. split; [auto|]. intros [->|]; auto.
  - rewrite in_app_iff. simpl. intuition.
Qed.

Lemma NoDup_snoc (l : list K) x : NoDup l -> ~ In x l -> NoDup (l ++ [x]).
Proof.
  induction l as [|a l IH]; simpl; intros Hn Hx.
  - constructor; auto.
  - inversion Hn; subst. constructor.
    + rewrite in_app_iff. simpl. intuition.
    + apply IH; auto.
Qed.

Lemma NoDup_keys_dict_set k v d :
  NoDup (keys d) -> NoDup (keys (dict_set K_dec k v d)).
Proof.
  intros H. rewrite keys_dict_set. destruct (dict_mem K_dec k d) eqn:E; auto.
  apply NoDup_snoc; auto. now apply dict_mem_false.
Qed.

Lemma NoDup_keys_dict_setdefault k v d :
  NoDup (keys d) -> NoDup (keys (dict_setdefault K_dec k v d)).
Proof.
  intros H. rewrite keys_dict_setdefault.
  destruct (dict_mem K_dec k d) eqn:E; auto.
  apply NoDup_snoc; auto. now apply dict_mem_false.
Qed.

Lemma dict_get_None k d : dict_get K_dec k d = None <-> ~ In k (keys d).
Proof.
  induction d as [|[k' v] d IH]; simpl.
  - intuition.
  - destruct (K_dec k k') as [->|Hne].
    + split; [discriminate|]. intros H. exfalso. apply H. now left.
    + rewrite IH. split; intros H; [intros [?|?]; [congruence|auto]|].
      intros ?. apply H. now right.
Qed.

Lemma dict_get_In k d v : dict_get K_dec k d = Some v -> In (k, v) d.
Proof.
  induction d as [|[k' v'] d IH]; simpl; [discriminate|].
  destruct (K_dec k k') as [->|Hne]; intros H.
  - left. congruence.
  - right. auto.
Qed.

Lemma dict_get_app k d1 d2 :
  dict_get K_dec k (d1 ++ d2)
  = match dict_get K_dec k d1 with
    | Some v => Some v
    | None => dict_get K_dec k d2
    end.
Proof.
  induction d1 as [|[k' v] d1 IH]; simpl; auto.
  destruct (K_dec k k'); auto.
Qed.

Lemma dict_get_update k k' f d :
  dict_get K_dec k' (dict_update K_dec k f d)
  = if K_dec k' k then option_map f (dict_get K_dec k d)
    else dict_get K_dec k' d.
Proof.
  induction d as [|[k0 v] d IH]; simpl.
  - destruct (K_dec k' k); auto.
  - destruct (K_dec k k0) as [->|Hne]; simpl.
    + destruct (K_dec k' k0); auto.
    + destruct (K_dec k' k0) as [->|Hne'].
      * destruct (K_dec k0 k); [congruence|auto].
      * rewrite IH. auto.
Qed.

Lemma dict_get_setdefault_other k k' v d :
  k' <> k ->
  dict_get K_dec k' (dict_setdefault K_dec k v d) = dict_get K_dec k' d.
Proof.
  intros Hne. unfold dict_setdefault. destruct (dict_mem K_dec k d); auto.
  rewrite dict_get_app. destruct (dict_get K_dec k' d); auto.
  simpl. destruct (K_dec k' k); congruence.
Qed.

Lemma dict_get_setdefault_new k v d :
  ~ In k (keys d) ->
  dict_get K_dec k (dict_setdefault K_dec k v d) = Some v.
Proof.
  intros Hn. unfold dict_setdefault.
  destruct (dict_mem K_dec k d) eqn:E.
  - apply dict_mem_In in E. contradiction.
  - rewrite dict_get_app. apply dict_get_None in Hn. rewrite Hn.
    simpl. destruct (K_dec k k); congruence.
Qed.
End DictFacts.

(* ===================================================================== *)
(** ** The citation graph                                                 *)
(* ===================================================================== *)

Section CitationGraph.
Import DiGraphOps.

Lemma add_document_node_edges G doc :
  dg_edge (add_document_node G doc) = dg_edge G.
Proof. reflexivity. Qed.

Lemma fold_add_document_node_edges docs G :
  dg_edge (fold_left add_document_node docs G) = dg_edge G.
Proof.
  revert G. induction docs as [|d docs IH]; simpl; intros; auto.
  now rewrite IH.
Qed.

(** One citation record adds its pair, if it is internal, and nothing
    else. *)
Lemma add_citation_edge_keys G c e :
  In e (keys (dg_edge (add_citation_edge G c)))
  <-> In e (keys (dg_edge G)) \/ In e (internal_pairs [c]).
Proof.
  unfold add_citation_edge, internal_pairs, truthy. simpl.
  destruct (cited_document_id c) as [t|]; simpl.
  - destruct (t =? 0); simpl.
    + intuition.
    + rewrite In_keys_dict_set. intuition.
  - intuition.
Qed.

Lemma add_citation_edge_NoDup G c :
  NoDup (keys (dg_edge G)) ->
  NoDup (keys (dg_edge (add_citation_edge G c))).
Proof.
  unfold add_citation_edge, truthy.
  destruct (cited_document_id c) as [t|]; simpl; auto.
  destruct (t =? 0); simpl; auto.
  apply NoDup_keys_dict_set.
Qed.

Lemma internal_pairs_cons c cs :
  internal_pairs (c :: cs) = internal_pairs [c] ++ internal_pairs cs.
Proof. unfold internal_pairs. simpl. now rewrite app_nil_r. Qed.

Lemma fold_add_citation_edge_keys cs : forall G e,
  In e (keys (dg_edge (fold_left add_citation_edge cs G)))
  <-> In e (keys (dg_edge G)) \/ In e (internal_pairs cs).
Proof.
  induction cs as [|c cs IH]; intros G e.
  - simpl. intuition.
  - simpl fold_left. rewrite IH, add_citation_edge_keys.
    rewrite (internal_pairs_cons c cs), in_app_iff. intuition.
Qed.

Lemma fold_add_citation_edge_NoDup cs : forall G,
  NoDup (keys (dg_edge G)) ->
  NoDup (keys (dg_edge (fold_left add_citation_edge cs G))).
Proof.
  induction cs as [|c cs IH]; intros G H; simpl; auto.
  apply IH. now apply add_citation_edge_NoDup.
Qed.

Lemma edge_keys_spec s e :
  In e (keys (dg_edge (build_citation_network s)))
  <-> In e (internal_pairs (citations s)).
Proof.
  unfold build_citation_network.
  rewrite fold_add_citation_edge_keys, fold_add_document_node_edges.
  simpl. intuition.
Qed.

Lemma edge_keys_NoDup s :
  NoDup (keys (dg_edge (build_citation_network s))).
Proof.
  unfold build_citation_network. apply fold_add_citation_edge_NoDup.
  rewrite fold_add_document_node_edges. constructor.
Qed.

Lemma In_internal_pairs cs u v :
  In (u, v) (internal_pairs cs)
  <-> exists c, In c cs /\ citing_document_id c = u
                /\ cited_document_id c = Some v /\ v <> 0.
Proof.
  unfold internal_pairs. rewrite in_flat_map. split.
  - intros (c & Hc & Hin). exists c.
    destruct (cited_document_id c) as [t|]; [|contradiction].
    destruct (Z.eqb_spec t 0); [contradiction|].
    destruct Hin as [Heq|[]]. inversion Heq; subst. auto.
  - intros (c & Hc & Hu & Hv & Hnz). exists c. split; auto.
    rewrite Hv. destruct (Z.eqb_spec v 0); [contradiction|].
    left. congruence.
Qed.
End CitationGraph.

(** C3, as amended.  The number of edges of the citation graph is the
    number of distinct (citing, cited) pairs among the citation records
    whose target is neither null nor 0, and an edge u -> v exists exactly
    when such a record cites v from u: a record with a null target
    contributes no edge. *)
Theorem citation_edges_are_distinct_internal_pairs (s : Snapshot) :
  DiGraphOps.number_of_edges (build_citation_network s)
  = len (nodup pair_dec (internal_pairs (citations s)))
  /\ (forall u v,
        DiGraphOps.has_edge (build_citation_network s) u v = true
        <-> exists c, In c (citations s)
                      /\ citing_document_id c = u
                      /\ cited_document_id c = Some v /\ v <> 0).
Proof.
  split.
  - unfold DiGraphOps.number_of_edges, len. f_equal.
    rewrite <- (length_map fst). apply Permutation_length.
    apply NoDup_Permutation.
    + apply edge_keys_NoDup.
    + apply NoDup_nodup.
    + intros e. rewrite nodup_In. apply edge_keys_spec.
  - intros u v. unfold DiGraphOps.has_edge.
    rewrite dict_mem_In, edge_keys_spec. apply In_internal_pairs.
Qed.

(** C3 as stated fails: two records for one citation give one edge. *)
Lemma duplicate_citation_records_share_an_edge :
  len (resolved (citations corpus_cited_twice)) = 2
  /\ DiGraphOps.number_of_edges (build_citation_network corpus_cited_twice) = 1
  /\ DiGraphOps.number_of_edges (build_citation_network corpus_cited_twice)
     <> len (resolved (citations corpus_cited_twice)).
Proof. repeat split. discriminate. Qed.

Section CitationNodes.
Import DiGraphOps.

Lemma fold_add_document_node_keys docs : forall G n,
  In n (keys (dg_node (fold_left add_document_node docs G)))
  <-> In n (keys (dg_node G)) \/ In n (map doc_id docs).
Proof.
  induction docs as [|d docs IH]; intros G n; simpl.
  - intuition.
  - rewrite IH. unfold add_document_node at 1, add_node. simpl.
    rewrite In_keys_dict_set. intuition.
Qed.

Lemma fold_add_document_node_NoDup docs : forall G,
  NoDup (keys (dg_node G)) ->
  NoDup (keys (dg_node (fold_left add_document_node docs G))).
Proof.
  induction docs as [|d docs IH]; intros G H; simpl; auto.
  apply IH. unfold add_document_node, add_node. simpl.
  now apply NoDup_keys_dict_set.
Qed.

Lemma setdefault_bare ids u (nodes : dict Z (option PaperAttrs)) :
  (forall n, In n (keys nodes) -> ~ In n ids ->
             dict_get Z.eq_dec n nodes = Some None) ->
  forall n, In n (keys (dict_setdefault Z.eq_dec u None nodes)) ->
            ~ In n ids ->
            dict_get Z.eq_dec n (dict_setdefault Z.eq_dec u None nodes)
            = Some None.
Proof.
  intros H n Hin Hid. apply In_keys_dict_setdefault in Hin.
  destruct (in_dec Z.eq_dec u (keys nodes)) as [Hu|Hu].
  - unfold dict_setdefault.
    assert (E : dict_mem Z.eq_dec u nodes = true) by now apply dict_mem_In.
    rewrite E. apply H; auto. destruct Hin as [->|]; auto.
  - destruct (Z.eq_dec n u) as [->|Hne].
    + now apply dict_get_setdefault_new.
    + rewrite dict_get_setdefault_other by auto.
      apply H; auto. destruct Hin; [contradiction|auto].
Qed.

Lemma add_citation_edge_bare ids G c :
  bare_outside ids G -> bare_outside ids (add_citation_edge G c).
Proof.
  unfold add_citation_edge, truthy.
  destruct (cited_document_id c) as [t|]; auto.
  destruct (t =? 0); simpl; auto.
  intros H. unfold bare_outside, add_edge. simpl.
  apply setdefault_bare. apply setdefault_bare. exact H.
Qed.

Lemma add_citation_edge_nodes_mono G c n :
  In n (keys (dg_node G)) -> In n (keys (dg_node (add_citation_edge G c))).
Proof.
  unfold add_citation_edge, truthy.
  destruct (cited_document_id c) as [t|]; auto.
  destruct (t =? 0); simpl; auto.
  intros H. rewrite !In_keys_dict_setdefault. auto.
Qed.

Lemma add_citation_edge_nodes_NoDup G c :
  NoDup (keys (dg_node G)) -> NoDup (keys (dg_node (add_citation_edge G c))).
Proof.
  unfold add_citation_edge, truthy.
  destruct (cited_document_id c) as [t|]; auto.
  destruct (t =? 0); simpl; auto.
  intros H. now do 2 apply NoDup_keys_dict_setdefault.
Qed.

Lemma fold_add_citation_edge_inv ids cs : forall G,
  bare_outside ids G -> NoDup (keys (dg_node G)) ->
  let G' := fold_left add_citation_edge cs G in
  bare_outside ids G' /\ NoDup (keys (dg_node G'))
  /\ (forall n, In n (keys (dg_node G)) -> In n (keys (dg_node G')))
  /\ (forall c t, In c cs -> cited_document_id c = Some t -> t <> 0 ->
                  In (citing_document_id c) (keys (dg_node G'))
                  /\ In t (keys (dg_node G'))).
Proof.
  induction cs as [|c cs IH]; intros G Hb Hn; simpl.
  - split; [|split; [|split]]; auto. intros c t [].
  - destruct (IH (add_citation_edge G c)) as (B & N & M & E).
    { now apply add_citation_edge_bare. }
    { now apply add_citation_edge_nodes_NoDup. }
    split; [|split; [|split]]; auto.
    + intros n Hin. apply M. now apply add_citation_edge_nodes_mono.
    + intros c0 t [->|Hin] Ht Hnz; [|apply (E c0 t); auto].
      assert (In (citing_document_id c0)
                 (keys (dg_node (add_citation_edge G c0)))
              /\ In t (keys (dg_node (add_citation_edge G c0)))) as [? ?].
      { unfold add_citation_edge, truthy. rewrite Ht.
        destruct (Z.eqb_spec t 0); [contradiction|]. simpl.
        rewrite !In_keys_dict_setdefault. auto. }
      split; apply M; auto.
Qed.

Lemma document_nodes_inv s :
  let G := fold_left add_document_node (documents s) empty in
  bare_outside (doc_ids s) G /\ NoDup (keys (dg_node G))
  /\ forall n, In n (doc_ids s) -> In n (keys (dg_node G)).
Proof.
  simpl. repeat split.
  - intros n Hin Hid. apply fold_add_document_node_keys in Hin.
    destruct Hin as [[]|]. contradiction.
  - apply fold_add_document_node_NoDup. constructor.
  - intros n Hin. apply fold_add_document_node_keys. now right.
Qed.
End CitationNodes.

(** C9, as amended.  A citation record whose target is neither null nor 0
    makes both its ids nodes of the citation graph; a node whose id no
    document has carries no attributes; so when one of the two ids is not
    a document id, the node count (reported as total_papers) is greater
    than the number of documents. *)
Theorem dangling_citations_become_bare_nodes
        (s : Snapshot) (c : Citation) (cited : Z) :
  In c (citations s) ->
  cited_document_id c = Some cited ->
  cited <> 0 ->
  let G := build_citation_network s in
  DiGraphOps.has_node G (citing_document_id c) = true
  /\ DiGraphOps.has_node G cited = true
  /\ (forall n, DiGraphOps.has_node G n = true -> ~ In n (doc_ids s) ->
                dict_get Z.eq_dec n (dg_node G) = Some None)
  /\ (NoDup (doc_ids s) ->
      ~ In (citing_document_id c) (doc_ids s) \/ ~ In cited (doc_ids s) ->
      len (documents s) < DiGraphOps.number_of_nodes G).
Proof.
  intros Hc Ht Hnz G.
  destruct (document_nodes_inv s) as (B0 & N0 & D0).
  destruct (fold_add_citation_edge_inv (citations s) B0 N0) as (B & N & M & E).
  fold (build_citation_network s) in B, N, M, E. fold G in B, N, M, E.
  destruct (E c cited Hc Ht Hnz) as [Hu Hv].
  unfold DiGraphOps.has_node. rewrite !dict_mem_In.
  repeat split; auto.
  - intros n Hn Hid. apply dict_mem_In in Hn. now apply B.
  - intros Hnd Hout. unfold DiGraphOps.number_of_nodes, len.
    assert (exists x, In x (keys (dg_node G)) /\ ~ In x (doc_ids s))
      as (x & Hx & Hxid) by (destruct Hout; eauto).
    assert (Hle : (length (x :: doc_ids s) <= length (keys (dg_node G)))%nat).
    { apply NoDup_incl_length.
      - constructor; auto.
      - intros y [<-|Hy]; auto. }
    simpl in Hle. unfold keys, doc_ids in Hle. rewrite !length_map in Hle. lia.
Qed.

Lemma dangling_citations_become_bare_nodes_witness :
  DiGraphOps.has_node (build_citation_network corpus_dangling) 7 = true
  /\ DiGraphOps.has_node (build_citation_network corpus_dangling) 9 = true
  /\ (forall n,
        DiGraphOps.has_node (build_citation_network corpus_dangling) n = true ->
        ~ In n (doc_ids corpus_dangling) ->
        dict_get Z.eq_dec n (dg_node (build_citation_network corpus_dangling))
        = Some None)
  /\ (NoDup (doc_ids corpus_dangling) ->
      ~ In 7 (doc_ids corpus_dangling) \/ ~ In 9 (doc_ids corpus_dangling) ->
      len (documents corpus_dangling)
      < DiGraphOps.number_of_nodes (build_citation_network corpus_dangling)).
Proof.
  apply (@dangling_citations_become_bare_nodes
           corpus_dangling (mkCitation 7 (Some 9) "[1]") 9).
  - simpl. left. reflexivity.
  - reflexivity.
  - discriminate.
Defined.

(** C9 as stated fails: a target with the id 0 is not null, and the
    record makes neither of its ids a node. *)
Lemma zero_target_makes_no_node :
  In (mkCitation 5 (Some 0) "[1]") (citations corpus_target_zero)
  /\ cited_document_id (mkCitation 5 (Some 0) "[1]") <> None
  /\ DiGraphOps.has_node (build_citation_network corpus_target_zero) 5 = false
  /\ DiGraphOps.has_node (build_citation_network corpus_target_zero) 0 = false.
Proof. repeat split; simpl; auto. discriminate. Qed.

(* ===================================================================== *)
(** ** The collaboration graph                                            *)
(* ===================================================================== *)

Arguments string_pair_dec : simpl never.

Section CollaborationGraph.
Import GraphOps.

Lemma same_pair_spec x y a b :
  same_pair x y a b = true <-> (x = a /\ y = b) \/ (x = b /\ y = a).
Proof.
  unfold same_pair.
  rewrite orb_true_iff, !andb_true_iff, !String.eqb_eq. tauto.
Qed.

Lemma has_edge_In G u v :
  has_edge G u v = true
  <-> In (u, v) (keys (g_edge G)) \/ In (v, u) (keys (g_edge G)).
Proof.
  unfold has_edge. now rewrite orb_true_iff, !dict_mem_In.
Qed.

Lemma has_edge_false G u v :
  has_edge G u v = false
  <-> ~ In (u, v) (keys (g_edge G)) /\ ~ In (v, u) (keys (g_edge G)).
Proof.
  unfold has_edge. now rewrite orb_false_iff, !dict_mem_false.
Qed.

(** *** One step of the inner loop *)

Lemma link_nodes p a1 a2 G : g_node (link p a1 G a2) = g_node G.
Proof.
  unfold link, add_edge, update_edge.
  destruct (has_edge G a1 a2); reflexivity.
Qed.

Lemma link_keys p a1 a2 G :
  keys (g_edge (link p a1 G a2))
  = if has_edge G a1 a2 then keys (g_edge G)
    else keys (g_edge G) ++ [(a1, a2)].
Proof.
  unfold link, add_edge, update_edge.
  destruct (has_edge G a1 a2) eqn:E; simpl.
  - destruct (dict_mem string_pair_dec (a1, a2) (g_edge G)); apply keys_dict_update.
  - now rewrite keys_app.
Qed.

Lemma link_keys_In p a1 a2 G e :
  In e (keys (g_edge (link p a1 G a2)))
  <-> In e (keys (g_edge G))
      \/ (has_edge G a1 a2 = false /\ e = (a1, a2)).
Proof.
  rewrite link_keys. destruct (has_edge G a1 a2).
  - intuition. discriminate.
  - rewrite in_app_iff. simpl. intuition.
Qed.

Lemma link_stored_once p a1 a2 G :
  stored_once G -> stored_once (link p a1 G a2).
Proof.
  intros H u v. rewrite !link_keys_In.
  intros [Huv|[Hf Huv]] [Hvu|[Hf' Hvu]]; auto.
  - apply has_edge_false in Hf' as [Hf1 Hf2]. inversion Hvu; subst.
    contradiction.
  - apply has_edge_false in Hf as [Hf1 Hf2]. inversion Huv; subst.
    contradiction.
  - congruence.
Qed.

Lemma link_NoDup p a1 a2 G :
  NoDup (keys (g_edge G)) -> NoDup (keys (g_edge (link p a1 G a2))).
Proof.
  intros H. rewrite link_keys. destruct (has_edge G a1 a2) eqn:E; auto.
  apply NoDup_snoc; auto. apply has_edge_false in E. tauto.
Qed.

(** The weight between [x] and [y] goes up by one exactly when the step
    links [x] and [y]. *)
Lemma weight_of_link p a1 a2 G x y :
  stored_once G ->
  weight_of (link p a1 G a2) x y
  = weight_of G x y + (if same_pair x y a1 a2 then 1 else 0).
Proof.
  intros Honce. unfold weight_of, edge_data, link.
  destruct (has_edge G a1 a2) eqn:He.
  - (* the edge exists: its attributes are changed in place *)
    unfold update_edge. simpl.
    destruct (dict_mem string_pair_dec (a1, a2) (g_edge G)) eqn:Hm.
    + apply dict_mem_In in Hm.
      rewrite !dict_get_update.
      destruct (dict_get string_pair_dec (a1, a2) (g_edge G)) as [d|] eqn:Hg;
        [|apply dict_get_None in Hg; contradiction].
      destruct (string_pair_dec (x, y) (a1, a2)) as [E|NE].
      * inversion E; subst. rewrite Hg. simpl.
        replace (same_pair a1 a2 a1 a2) with true
          by (symmetry; apply same_pair_spec; auto). reflexivity.
      * destruct (string_pair_dec (y, x) (a1, a2)) as [E'|NE'].
        -- inversion E'; subst.
           assert (Hn : dict_get string_pair_dec (a2, a1) (g_edge G) = None).
           { apply dict_get_None. intros Hin. apply NE.
             f_equal; [symmetry|]; now apply Honce. }
           rewrite Hn, Hg. simpl.
           replace (same_pair a2 a1 a1 a2) with true
             by (symmetry; apply same_pair_spec; auto). reflexivity.
        -- replace (same_pair x y a1 a2) with false.
           { destruct (dict_get string_pair_dec (x, y) (g_edge G)); lia. }
           symmetry. apply not_true_iff_false. rewrite same_pair_spec.
           intros [[-> ->]|[-> ->]]; auto.
    + apply dict_mem_false in Hm.
      apply has_edge_In in He as [He|He]; [contradiction|].
      rewrite !dict_get_update.
      destruct (dict_get string_pair_dec (a2, a1) (g_edge G)) as [d|] eqn:Hg;
        [|apply dict_get_None in Hg; contradiction].
      destruct (string_pair_dec (x, y) (a2, a1)) as [E|NE].
      * inversion E; subst. rewrite Hg. simpl.
        replace (same_pair a2 a1 a1 a2) with true
          by (symmetry; apply same_pair_spec; auto). reflexivity.
      * destruct (string_pair_dec (y, x) (a2, a1)) as [E'|NE'].
        -- inversion E'; subst.
           assert (Hn : dict_get string_pair_dec (a1, a2) (g_edge G) = None)
             by now apply dict_get_None.
           rewrite Hn, Hg. simpl.
           replace (same_pair a1 a2 a1 a2) with true
             by (symmetry; apply same_pair_spec; auto). reflexivity.
        -- replace (same_pair x y a1 a2) with false.
           { destruct (dict_get string_pair_dec (x, y) (g_edge G)); lia. }
           symmetry. apply not_true_iff_false. rewrite same_pair_spec.
           intros [[-> ->]|[-> ->]]; auto.
  - (* a new edge of weight 1 *)
    unfold add_edge. rewrite He. simpl.
    apply has_edge_false in He as [H1 H2].
    apply (proj2 (dict_get_None string_pair_dec _ _)) in H1.
    apply (proj2 (dict_get_None string_pair_dec _ _)) in H2.
    rewrite !dict_get_app. simpl.
    destruct (string_pair_dec (x, y) (a1, a2)) as [E|NE].
    + inversion E; subst. rewrite H1. simpl.
      replace (same_pair a1 a2 a1 a2) with true
        by (symmetry; apply same_pair_spec; auto).
      destruct (string_pair_dec (a1, a2) (a1, a2)); [|congruence].
      rewrite H2. reflexivity.
    + destruct (string_pair_dec (y, x) (a1, a2)) as [E'|NE'].
      * inversion E'; subst. rewrite H2, H1. simpl.
        replace (same_pair a2 a1 a1 a2) with true
          by (symmetry; apply same_pair_spec; auto). reflexivity.
      * replace (same_pair x y a1 a2) with false.
        { destruct (dict_get string_pair_dec (x, y) (g_edge G)); [lia|].
          destruct (dict_get string_pair_dec (y, x) (g_edge G)); lia. }
        symmetry. apply not_true_iff_false. rewrite same_pair_spec.
        intros [[-> ->]|[-> ->]]; auto.
Qed.
End CollaborationGraph.

Section CollaborationWeights.
Import GraphOps.

Lemma In_dict_update (K V : Type) (K_dec : forall a b : K, {a = b} + {a <> b})
      k (f : V -> V) (d : dict K V) k' v' :
  In (k', v') (dict_update K_dec k f d) ->
  In (k', v') d \/ exists v, In (k', v) d /\ v' = f v.
Proof.
  induction d as [|[k0 v0] d IH]; simpl; auto.
  destruct (K_dec k k0) as [->|Hne]; simpl.
  - intros [H|H]; [|auto]. inversion H; subst. right. eauto.
  - intros [H|H]; [auto|].
    destruct (IH H) as [?|(v & ? & ?)]; [auto|right; eauto].
Qed.

Lemma link_positive p a1 a2 G :
  positive_weights G -> positive_weights (link p a1 G a2).
Proof.
  intros H k d. unfold link, add_edge, update_edge.
  destruct (has_edge G a1 a2); simpl.
  - destruct (dict_mem string_pair_dec (a1, a2) (g_edge G)); intros Hin;
      apply In_dict_update in Hin as [Hin|(d0 & Hin & ->)];
      try (now apply (H k)); simpl; specialize (H k d0 Hin); lia.
  - rewrite in_app_iff. simpl. intros [Hin|[Heq|[]]].
    + now apply (H k).
    + inversion Heq; subst. simpl. lia.
Qed.

(** *** The inner loop, for one first author *)
Lemma fold_link p a1 rest : forall G,
  stored_once G -> positive_weights G ->
  let G' := fold_left (link p a1) rest G in
  stored_once G' /\ positive_weights G' /\ g_node G' = g_node G
  /\ forall x y, weight_of G' x y
                 = weight_of G x y + len (filter (same_pair x y a1) rest).
Proof.
  induction rest as [|a2 rest IH]; intros G Ho Hp; simpl.
  - repeat split; auto. intros. unfold len. simpl. lia.
  - destruct (IH (link p a1 G a2)) as (O & P & N & W).
    { now apply link_stored_once. }
    { now apply link_positive. }
    split; [|split; [|split]]; auto.
    + now rewrite N, link_nodes.
    + intros x y. rewrite W, weight_of_link by auto.
      destruct (same_pair x y a1 a2); unfold len; simpl length; lia.
Qed.

(** *** The double loop over the authors of one document *)
Lemma link_pairs_spec p authors : forall G,
  stored_once G -> positive_weights G ->
  let G' := link_pairs p authors G in
  stored_once G' /\ positive_weights G' /\ g_node G' = g_node G
  /\ forall x y, weight_of G' x y
                 = weight_of G x y + pair_occurrences x y authors.
Proof.
  induction authors as [|a1 rest IH]; intros G Ho Hp; simpl.
  - repeat split; auto. intros. lia.
  - destruct (fold_link p a1 rest Ho Hp) as (O1 & P1 & N1 & W1).
    destruct (IH _ O1 P1) as (O & P & N & W).
    split; [|split; [|split]]; auto.
    + congruence.
    + intros x y. rewrite W, W1. lia.
Qed.

Lemma add_author_paper_edges p G a :
  g_edge (add_author_paper p G a) = g_edge G.
Proof.
  unfold add_author_paper, update_node, add_node.
  destruct (has_node G a); reflexivity.
Qed.

Lemma fold_add_author_paper_edges p authors : forall G,
  g_edge (fold_left (add_author_paper p) authors G) = g_edge G.
Proof.
  induction authors as [|a authors IH]; intros G; simpl; auto.
  now rewrite IH, add_author_paper_edges.
Qed.

Lemma weight_of_edges G G' x y :
  g_edge G' = g_edge G -> weight_of G' x y = weight_of G x y.
Proof. unfold weight_of, edge_data. now intros ->. Qed.

Lemma add_document_spec G doc :
  stored_once G -> positive_weights G ->
  stored_once (add_document G doc) /\ positive_weights (add_document G doc)
  /\ forall x y, weight_of (add_document G doc) x y
                 = weight_of G x y + pair_occurrences x y (doc_authors doc).
Proof.
  intros Ho Hp. unfold add_document.
  pose proof (fold_add_author_paper_edges (paper_of doc) (doc_authors doc) G)
    as He.
  set (G1 := fold_left (add_author_paper (paper_of doc)) (doc_authors doc) G)
    in *.
  assert (O1 : stored_once G1) by (unfold stored_once; now rewrite He).
  assert (P1 : positive_weights G1) by (unfold positive_weights; now rewrite He).
  destruct (link_pairs_spec (paper_of doc) (doc_authors doc) O1 P1)
    as (O & P & _ & W).
  repeat split; auto.
  intros x y. rewrite W. now rewrite (weight_of_edges G G1 x y He).
Qed.

Lemma fold_add_document_spec docs : forall G,
  stored_once G -> positive_weights G ->
  let G' := fold_left add_document docs G in
  stored_once G' /\ positive_weights G'
  /\ forall x y,
       weight_of G' x y
       = weight_of G x y
         + fold_right Z.add 0
             (map (fun d => pair_occurrences x y (doc_authors d)) docs).
Proof.
  induction docs as [|d docs IH]; intros G Ho Hp; simpl.
  - repeat split; auto. intros. lia.
  - destruct (add_document_spec d Ho Hp) as (O1 & P1 & W1).
    destruct (IH _ O1 P1) as (O & P & W).
    repeat split; auto. intros x y. rewrite W, W1. lia.
Qed.

Lemma build_coauthorship_network_spec s :
  stored_once (build_coauthorship_network s)
  /\ positive_weights (build_coauthorship_network s)
  /\ forall x y, weight_of (build_coauthorship_network s) x y
                 = total_pair_occurrences s x y.
Proof.
  destruct (@fold_add_document_spec (documents s) empty) as (O & P & W).
  - intros u v [].
  - intros k d [].
  - repeat split; auto.
Qed.

(** An edge is there exactly when its weight is positive. *)
Lemma has_edge_weight G x y :
  positive_weights G -> (has_edge G x y = true <-> 0 < weight_of G x y).
Proof.
  intros Hp. unfold weight_of, edge_data. rewrite has_edge_In. split.
  - intros [H|H].
    + destruct (dict_get string_pair_dec (x, y) (g_edge G)) as [d|] eqn:E.
      * apply dict_get_In in E. specialize (Hp _ _ E). lia.
      * apply dict_get_None in E. contradiction.
    + destruct (dict_get string_pair_dec (x, y) (g_edge G)) as [d|] eqn:E.
      * apply dict_get_In in E. specialize (Hp _ _ E). lia.
      * destruct (dict_get string_pair_dec (y, x) (g_edge G)) as [d|] eqn:E'.
        -- apply dict_get_In in E'. specialize (Hp _ _ E'). lia.
        -- apply dict_get_None in E'. contradiction.
  - destruct (dict_get string_pair_dec (x, y) (g_edge G)) as [d|] eqn:E.
    + intros _. left. apply dict_get_In in E.
      change (x, y) with (fst ((x, y), d)). now apply in_map.
    + destruct (dict_get string_pair_dec (y, x) (g_edge G)) as [d|] eqn:E';
        [|lia].
      intros _. right. apply dict_get_In in E'.
      change (y, x) with (fst ((y, x), d)). now apply in_map.
Qed.
End CollaborationWeights.

Section DistinctAuthors.
Import GraphOps.

Lemma inb_true x l : inb x l = true <-> In x l.
Proof. unfold inb. destruct (in_dec string_dec x l); intuition discriminate. Qed.

Lemma inb_false x l : inb x l = false <-> ~ In x l.
Proof. unfold inb. destruct (in_dec string_dec x l); intuition discriminate. Qed.

Lemma filter_none (A : Type) (f : A -> bool) l :
  (forall z, In z l -> f z = false) -> filter f l = [].
Proof.
  induction l as [|a l IH]; simpl; intros H; auto.
  rewrite (H a) by auto. apply IH. auto.
Qed.

Lemma count_in_NoDup y l :
  NoDup l -> len (filter (String.eqb y) l) = if inb y l then 1 else 0.
Proof.
  unfold len. induction 1 as [|a l Ha Hl IH]; simpl; auto.
  destruct (String.eqb_spec y a) as [->|Hne].
  - rewrite filter_none.
    + replace (inb a (a :: l)) with true; auto.
      symmetry. apply inb_true. now left.
    + intros z Hz. destruct (String.eqb_spec a z); congruence.
  - rewrite IH. destruct (inb y l) eqn:E.
    + replace (inb y (a :: l)) with true; auto.
      symmetry. apply inb_true. right. now apply inb_true.
    + replace (inb y (a :: l)) with false; auto.
      symmetry. apply inb_false. apply inb_false in E.
      intros [?|?]; [congruence|contradiction].
Qed.

(** With distinct authors a pair of different names occurs once in a
    document that lists both, and a name is never paired with itself. *)
Lemma pair_occurrences_NoDup x y authors :
  NoDup authors ->
  pair_occurrences x y authors
  = if negb (String.eqb x y) && inb x authors && inb y authors
    then 1 else 0.
Proof.
  induction 1 as [|a rest Ha Hrest IH]; simpl.
  - now rewrite andb_false_r.
  - rewrite IH. clear IH.
    destruct (String.eqb_spec x y) as [->|Hxy]; simpl.
    + (* a name with itself *)
      rewrite filter_none; [reflexivity|].
      intros z Hz. apply not_true_iff_false. rewrite same_pair_spec.
      intros [[-> <-]|[<- ->]]; contradiction.
    + destruct (string_dec x a) as [->|Hxa].
      * (* [x] is the first author *)
        rewrite (@filter_ext_in _ (same_pair a y a) (String.eqb y)).
        2:{ intros z Hz. apply eq_true_iff_eq.
            rewrite same_pair_spec, String.eqb_eq.
            split; [intros [[_ ?]|[? ?]]|]; auto; try congruence. }
        rewrite count_in_NoDup by auto.
        replace (inb a (a :: rest)) with true
          by (symmetry; apply inb_true; now left).
        replace (inb a rest) with false
          by (symmetry; now apply inb_false).
        replace (inb y (a :: rest)) with (inb y rest).
        2:{ apply eq_true_iff_eq. rewrite !inb_true. simpl.
            intuition congruence. }
        simpl. destruct (inb y rest); reflexivity.
      * replace (inb x (a :: rest)) with (inb x rest).
        2:{ apply eq_true_iff_eq. rewrite !inb_true. simpl.
            intuition congruence. }
        destruct (string_dec y a) as [->|Hya].
        -- rewrite (@filter_ext_in _ (same_pair x a a) (String.eqb x)).
           2:{ intros z Hz. apply eq_true_iff_eq.
               rewrite same_pair_spec, String.eqb_eq.
               split; [intros [[? ?]|[? _]]|]; auto; try congruence. }
           rewrite count_in_NoDup by auto.
           replace (inb a (a :: rest)) with true
             by (symmetry; apply inb_true; now left).
           replace (inb a rest) with false
             by (symmetry; now apply inb_false).
           rewrite andb_false_r, andb_true_r.
           destruct (inb x rest); reflexivity.
        -- rewrite filter_none.
           2:{ intros z Hz. apply not_true_iff_false.
               rewrite same_pair_spec. intuition congruence. }
           replace (inb y (a :: rest)) with (inb y rest).
           2:{ apply eq_true_iff_eq. rewrite !inb_true. simpl.
               intuition congruence. }
           unfold len. simpl. reflexivity.
Qed.

Lemma total_pair_occurrences_NoDup s x y :
  (forall d, In d (documents s) -> NoDup (doc_authors d)) ->
  total_pair_occurrences s x y
  = if String.eqb x y then 0 else shared_documents s x y.
Proof.
  unfold total_pair_occurrences, shared_documents, len.
  induction (documents s) as [|d docs IH]; intros Hnd; simpl.
  - now destruct (String.eqb x y).
  - rewrite IH by (intros; apply Hnd; now right).
    rewrite pair_occurrences_NoDup by (apply Hnd; now left).
    destruct (String.eqb x y); simpl; auto.
    destruct (inb x (doc_authors d) && inb y (doc_authors d)); simpl length;
      lia.
Qed.
End DistinctAuthors.

(** C6, as amended.  When no document lists the same author name twice:
    the weight of the collaboration edge between two different authors is
    the number of documents that list both (one more per shared document),
    the edge exists exactly when there is such a document, and neither
    author has a self-loop. *)
Theorem collaboration_weight_counts_shared_documents
        (s : Snapshot) (a b : string) :
  (forall d, In d (documents s) -> NoDup (doc_authors d)) ->
  a <> b ->
  weight_of (build_coauthorship_network s) a b = shared_documents s a b
  /\ (GraphOps.has_edge (build_coauthorship_network s) a b = true
      <-> 0 < shared_documents s a b)
  /\ GraphOps.has_edge (build_coauthorship_network s) a a = false
  /\ GraphOps.has_edge (build_coauthorship_network s) b b = false.
Proof.
  intros Hnd Hab.
  destruct (build_coauthorship_network_spec s) as (_ & P & W).
  assert (E : weight_of (build_coauthorship_network s) a b
              = shared_documents s a b).
  { rewrite W, total_pair_occurrences_NoDup by auto.
    destruct (String.eqb_spec a b); [contradiction|reflexivity]. }
  assert (L : forall x,
             GraphOps.has_edge (build_coauthorship_network s) x x = false).
  { intros x. apply not_true_iff_false. rewrite has_edge_weight by auto.
    rewrite W, total_pair_occurrences_NoDup by auto.
    rewrite String.eqb_refl. lia. }
  repeat split; auto.
  - rewrite has_edge_weight by auto. now rewrite E.
  - rewrite has_edge_weight by auto. now rewrite E.
Qed.

Lemma collaboration_weight_counts_shared_documents_witness :
  weight_of (build_coauthorship_network corpus_scenario_B) "Smith" "Jones"
  = shared_documents corpus_scenario_B "Smith" "Jones"
  /\ (GraphOps.has_edge (build_coauthorship_network corpus_scenario_B)
                        "Smith" "Jones" = true
      <-> 0 < shared_documents corpus_scenario_B "Smith" "Jones")
  /\ GraphOps.has_edge (build_coauthorship_network corpus_scenario_B)
                       "Smith" "Smith" = false
  /\ GraphOps.has_edge (build_coauthorship_network corpus_scenario_B)
                       "Jones" "Jones" = false.
Proof.
  apply (@collaboration_weight_counts_shared_documents
           corpus_scenario_B "Smith" "Jones").
  - intros d Hd. simpl in Hd.
    destruct Hd as [<-|[<-|[<-|[]]]]; simpl;
      repeat (constructor; [simpl; intuition discriminate|]); constructor.
  - discriminate.
Defined.

(** C6 as stated fails: a document that lists a name twice pairs the
    author with themself, and raises a weight by two at once. *)
Lemma repeated_author_gets_a_self_loop :
  GraphOps.has_edge (build_coauthorship_network corpus_repeated_author)
                    "Smith" "Smith" = true
  /\ shared_documents corpus_repeated_author "Smith" "Jones" = 1
  /\ weight_of (build_coauthorship_network corpus_repeated_author)
               "Smith" "Jones" = 2.
Proof. repeat split. Qed.

(* ===================================================================== *)
(** ** [sorted(..., reverse=True)]                                        *)
(* ===================================================================== *)

Section SortedFacts.
Variables (A : Type) (key : A -> Z).

Lemma insert_desc_perm x l :
  Permutation (insert_desc key Z.ltb x l) (x :: l).
Proof.
  induction l as [|y l IH]; simpl; auto.
  destruct (key x <? key y); auto.
  rewrite IH. apply perm_swap.
Qed.

Lemma sorted_desc_perm l : Permutation (sorted_desc key Z.ltb l) l.
Proof.
  induction l as [|x l IH]; simpl; auto.
  rewrite insert_desc_perm. now constructor.
Qed.

Lemma sorted_desc_length l : length (sorted_desc key Z.ltb l) = length l.
Proof. apply Permutation_length, sorted_desc_perm. Qed.

Lemma insert_desc_descending x l :
  descending key l -> descending key (insert_desc key Z.ltb x l).
Proof.
  unfold descending. induction 1 as [|y l Hl IH Hy]; simpl.
  - repeat constructor.
  - destruct (Z.ltb_spec (key x) (key y)).
    + constructor; auto.
      apply (Permutation_Forall (Permutation_sym (insert_desc_perm x l))).
      constructor; auto. lia.
    + constructor; [now constructor|].
      constructor; auto.
      eapply Forall_impl; [|exact Hy]. simpl. intros. lia.
Qed.

Lemma sorted_desc_descending l : descending key (sorted_desc key Z.ltb l).
Proof.
  induction l as [|x l IH]; simpl.
  - constructor.
  - now apply insert_desc_descending.
Qed.

Lemma insert_desc_ties x l :
  keeps_order_of_ties key (x :: l) (insert_desc key Z.ltb x l).
Proof.
  intros k. induction l as [|y l IH]; simpl; auto.
  destruct (Z.ltb_spec (key x) (key y)); simpl; auto.
  simpl in IH. rewrite IH.
  destruct (Z.eqb_spec (key x) k), (Z.eqb_spec (key y) k); auto. lia.
Qed.

Lemma sorted_desc_ties l : keeps_order_of_ties key l (sorted_desc key Z.ltb l).
Proof.
  intros k. induction l as [|x l IH]; simpl; auto.
  rewrite insert_desc_ties. simpl. now rewrite IH.
Qed.

Lemma firstn_In n (l : list A) z : In z (firstn n l) -> In z l.
Proof.
  intros H. rewrite <- (firstn_skipn n l). apply in_or_app. now left.
Qed.

Lemma descending_firstn n l : descending key l -> descending key (firstn n l).
Proof.
  unfold descending. intros H. revert n.
  induction H as [|y l Hl IH Hy]; intros [|n]; simpl; try constructor; auto.
  apply Forall_forall. intros z Hz. rewrite Forall_forall in Hy.
  apply Hy. eapply firstn_In; eauto.
Qed.

Lemma slice_to_firstn limit (l : list A) :
  exists n, slice_to limit l = firstn n l
            /\ (0 <= limit -> n = Z.to_nat limit).
Proof.
  unfold slice_to. destruct (Z.ltb_spec limit 0); eexists; split; eauto.
  lia.
Qed.

Lemma slice_to_length limit (l : list A) :
  0 <= limit -> len (slice_to limit l) <= limit.
Proof.
  intros H. unfold slice_to, len.
  destruct (Z.ltb_spec limit 0); [lia|].
  rewrite length_firstn. lia.
Qed.
End SortedFacts.

(* ===================================================================== *)
(** ** Ranked queries                                                     *)
(* ===================================================================== *)

(** C4.  [get_most_cited_papers] never returns a list: for every snapshot
    and every limit the attribute [label] is looked up on the int that
    [Query.count()] returned, and the call raises [AttributeError]. *)
Theorem most_cited_query_raises (s : Snapshot) (limit : Z) :
  get_most_cited_papers s limit = Raise (AttributeError "int" "label").
Proof. reflexivity. Qed.

(** The other half of C4 holds: the most collaborative authors come in
    descending order of their number of unique collaborators, ties in
    node order, cut to a prefix of at most [limit] entries. *)
Lemma most_collaborative_authors_ranked (s : Snapshot) (limit : Z) :
  let G := build_coauthorship_network s in
  let ranked := sorted_desc unique_collaborators Z.ltb
                            (map (author_stats G) (g_node G)) in
  (exists n, get_most_collaborative_authors s limit = firstn n ranked)
  /\ descending unique_collaborators (get_most_collaborative_authors s limit)
  /\ keeps_order_of_ties unique_collaborators
                         (map (author_stats G) (g_node G)) ranked
  /\ Permutation ranked (map (author_stats G) (g_node G))
  /\ (forall e, unique_collaborators (author_stats G e)
                = GraphOps.degree G (fst e))
  /\ (0 <= limit -> len (get_most_collaborative_authors s limit) <= limit).
Proof.
  intros G ranked. unfold get_most_collaborative_authors, most_collaborative.
  fold G. fold ranked.
  destruct (slice_to_firstn limit ranked) as (n & E & _).
  repeat split.
  - eauto.
  - rewrite E. apply descending_firstn, sorted_desc_descending.
  - apply sorted_desc_ties.
  - apply sorted_desc_perm.
  - apply slice_to_length.
Qed.

(** Scenario B: Jones, with two unique collaborators, comes first. *)
Lemma scenario_B_jones_first :
  map (fun a => (stats_name a, unique_collaborators a))
      (get_most_collaborative_authors corpus_scenario_B 10)
  = [("Jones", 2); ("Smith", 1); ("Lee", 1)].
Proof. reflexivity. Qed.

(* ===================================================================== *)
(** ** Sorting papers by year                                             *)
(* ===================================================================== *)

Section PapersByYear.

Lemma insert_desc_exc_with_years x r :
  has_year x -> Forall has_year r ->
  insert_desc_exc paper_year lt_opt_int x r
  = Ok (insert_desc year_or_zero Z.ltb x r).
Proof.
  unfold has_year, year_or_zero. intros Hx Hr.
  induction Hr as [|y r Hy Hr IH]; simpl; auto.
  destruct (paper_year x) as [yx|] eqn:Ex; [|congruence].
  destruct (paper_year y) as [yy|] eqn:Ey; [|congruence].
  simpl. destruct (yx <? yy); auto. now rewrite IH.
Qed.

Lemma sorted_desc_exc_with_years ps :
  Forall has_year ps ->
  sorted_desc_exc paper_year lt_opt_int ps
  = Ok (sorted_desc year_or_zero Z.ltb ps).
Proof.
  induction 1 as [|x ps Hx Hps IH]; simpl; auto.
  rewrite IH. simpl. apply insert_desc_exc_with_years; auto.
  apply (Permutation_Forall (Permutation_sym (sorted_desc_perm _ ps))).
  exact Hps.
Qed.

Lemma insert_desc_exc_perm x r r' :
  insert_desc_exc paper_year lt_opt_int x r = Ok r' ->
  Permutation r' (x :: r).
Proof.
  revert r'. induction r as [|y r IH]; simpl; intros r' H.
  - inversion H. auto.
  - destruct (lt_opt_int (paper_year x) (paper_year y)) as [[|]|]; simpl in H;
      try discriminate.
    + destruct (insert_desc_exc paper_year lt_opt_int x r) as [r0|];
        simpl in H; inversion H; subst.
      rewrite (IH r0 eq_refl). apply perm_swap.
    + inversion H. auto.
Qed.

Lemma sorted_desc_exc_perm ps r :
  sorted_desc_exc paper_year lt_opt_int ps = Ok r -> Permutation r ps.
Proof.
  revert r. induction ps as [|x ps IH]; simpl; intros r H.
  - inversion H. auto.
  - destruct (sorted_desc_exc paper_year lt_opt_int ps) as [r0|];
      simpl in H; [|discriminate].
    rewrite (insert_desc_exc_perm _ _ H). constructor. now apply IH.
Qed.

Lemma lt_opt_int_raise a b e :
  lt_opt_int a b = Raise e -> exists msg, e = TypeError msg.
Proof.
  destruct a, b; simpl; intros H; inversion H; eauto.
Qed.

Lemma insert_desc_exc_raise x r e :
  insert_desc_exc paper_year lt_opt_int x r = Raise e ->
  exists msg, e = TypeError msg.
Proof.
  induction r as [|y r IH]; simpl; [discriminate|].
  destruct (lt_opt_int (paper_year x) (paper_year y)) as [[|]|e0] eqn:E;
    simpl.
  - destruct (insert_desc_exc paper_year lt_opt_int x r); simpl;
      [discriminate|]. intros H. inversion H; subst. now apply IH.
  - discriminate.
  - intros H. inversion H; subst. eapply lt_opt_int_raise; eauto.
Qed.

Lemma sorted_desc_exc_raise ps e :
  sorted_desc_exc paper_year lt_opt_int ps = Raise e ->
  exists msg, e = TypeError msg.
Proof.
  induction ps as [|x ps IH]; simpl; [discriminate|].
  destruct (sorted_desc_exc paper_year lt_opt_int ps) as [r|e0]; simpl.
  - apply insert_desc_exc_raise.
  - intros H. inversion H; subst. now apply IH.
Qed.

(** The sort goes through only when every paper has a year, or there is
    nothing to compare. *)
Lemma sorted_desc_exc_ok ps r :
  sorted_desc_exc paper_year lt_opt_int ps = Ok r ->
  Forall has_year ps \/ (length ps <= 1)%nat.
Proof.
  revert r. induction ps as [|x ps IH]; simpl; intros r H.
  - left. constructor.
  - destruct (sorted_desc_exc paper_year lt_opt_int ps) as [r0|] eqn:E;
      simpl in H; [|discriminate].
    destruct ps as [|z ps]; [right; simpl; lia|]. left.
    pose proof (sorted_desc_exc_perm _ E) as P.
    destruct r0 as [|y r0];
      [apply Permutation_nil in P; discriminate|].
    simpl in H.
    destruct (paper_year x) as [yx|] eqn:Ex; [|destruct (paper_year y); discriminate].
    destruct (paper_year y) as [yy|] eqn:Ey; [|discriminate].
    assert (Hx : has_year x) by (unfold has_year; congruence).
    constructor; auto.
    destruct (IH _ eq_refl) as [F|L]; auto.
    simpl in L. destruct ps; [|simpl in L; lia].
    apply Permutation_sym, Permutation_length_1_inv in P.
    inversion P; subst.
    constructor; [|constructor]. unfold has_year. congruence.
Qed.

(** Two papers or more, one of them without a year: [sorted] raises. *)
Lemma sorted_desc_exc_missing_year ps :
  (2 <= length ps)%nat ->
  Exists (fun p => paper_year p = None) ps ->
  exists msg, sorted_desc_exc paper_year lt_opt_int ps = Raise (TypeError msg).
Proof.
  intros Hlen Hex.
  destruct (sorted_desc_exc paper_year lt_opt_int ps) as [r|e] eqn:E.
  - exfalso. destruct (sorted_desc_exc_ok _ E) as [F|L]; [|lia].
    rewrite Exists_exists in Hex. destruct Hex as (p & Hp & Hn).
    rewrite Forall_forall in F. now apply (F p Hp).
  - destruct (sorted_desc_exc_raise _ E) as (msg & ->). eauto.
Qed.
End PapersByYear.

(* ===================================================================== *)
(** ** Author profiles                                                    *)
(* ===================================================================== *)

Section Substrings.
Lemma prefix_refl s : prefix s s = true.
Proof.
  induction s as [|c s IH]; simpl; auto.
  destruct (ascii_dec c c); [auto|congruence].
Qed.

Lemma contains_refl s : contains s s = true.
Proof.
  destruct s as [|c s]; simpl; auto.
  destruct (ascii_dec c c); [|congruence]. now rewrite prefix_refl.
Qed.

Lemma contains_empty hay : contains "" hay = true.
Proof. destruct hay; reflexivity. Qed.
End Substrings.

Section ProfileResolution.
Variable lower : string -> string.

Lemma find_filter (A : Type) (f : A -> bool) l :
  find f l = hd_error (filter f l).
Proof.
  induction l as [|a l IH]; simpl; auto. destruct (f a); auto.
Qed.

Lemma matching_authors_In G author_name n :
  In n (matching_authors lower G author_name)
  <-> In n (GraphOps.nodes G)
      /\ contains (lower author_name) (lower n) = true.
Proof.
  unfold matching_authors.
  apply (filter_In (fun name => contains (lower author_name) (lower name))).
Qed.

(** The choice that the code makes is the resolution that the
    specification describes. *)
Lemma author_profile_resolves G author_name :
  author_profile lower G author_name
  = match resolve_author lower G author_name with
    | Some author => profile_of G author
    | None => Ok (ProfileError (not_found_message author_name))
    end.
Proof.
  unfold author_profile, resolve_author.
  destruct (in_dec string_dec author_name (GraphOps.nodes G)) as [Hin|Hout].
  - assert (Hm : In author_name (matching_authors lower G author_name)).
    { apply matching_authors_In. split; auto. apply contains_refl. }
    destruct (matching_authors lower G author_name) as [|first rest] eqn:E;
      [contradiction|].
    destruct (in_dec string_dec author_name (first :: rest));
      [reflexivity|contradiction].
  - rewrite find_filter. fold (matching_authors lower G author_name).
    destruct (matching_authors lower G author_name) as [|first rest] eqn:E;
      [reflexivity|].
    cbn [hd_error].
    destruct (in_dec string_dec author_name (first :: rest)) as [Hm|];
      [|reflexivity].
    exfalso. apply Hout. rewrite <- E in Hm.
    now apply matching_authors_In in Hm.
Qed.

Lemma resolve_author_In G author_name author :
  resolve_author lower G author_name = Some author ->
  In author (GraphOps.nodes G).
Proof.
  unfold resolve_author.
  destruct (in_dec string_dec author_name (GraphOps.nodes G)).
  - intros H. inversion H; subst. auto.
  - intros H. now apply find_some in H.
Qed.

(** For a node, [profile_of] gives a profile or raises; the second
    not-found test of the code never fires. *)
Lemma profile_of_node G author msg :
  In author (GraphOps.nodes G) ->
  profile_of G author <> Ok (ProfileError msg).
Proof.
  intros Hin. unfold profile_of.
  destruct (dict_get string_dec author (g_node G)) as [data|] eqn:E.
  - destruct (sorted_desc_exc paper_year lt_opt_int (papers data));
      simpl; discriminate.
  - apply dict_get_None in E. contradiction.
Qed.

Lemma matching_authors_empty_query G :
  lower "" = "" -> matching_authors lower G "" = GraphOps.nodes G.
Proof.
  intros Hl. unfold matching_authors. rewrite Hl.
  induction (GraphOps.nodes G) as [|n l IH]; simpl; auto.
  now rewrite contains_empty, IH.
Qed.
End ProfileResolution.

(** C7.  [get_author_profile] takes the node equal to the query when
    there is one; otherwise the first node, in node order, whose
    lower-cased name contains the lower-cased query; and when no node
    matches it returns the record with the error field and does not
    raise.  This holds for every query, every snapshot and every
    implementation of [str.lower]. *)
Theorem author_profile_resolution
        (lower : string -> string) (s : Snapshot) (author_name : string) :
  get_author_profile lower s author_name
  = match resolve_author lower (build_coauthorship_network s) author_name with
    | Some author => profile_of (build_coauthorship_network s) author
    | None => Ok (ProfileError (not_found_message author_name))
    end.
Proof. apply author_profile_resolves. Qed.

(** C10, as amended.  On a graph with at least one author, a query that
    is a case-insensitive substring of some author name never gets the
    not-found result, and neither does the empty query; the empty query
    is answered with the profile computation of the author named by the
    empty string if there is one, and of the first node otherwise. *)
Theorem substring_query_is_never_not_found
        (lower : string -> string) (s : Snapshot) (author_name : string) :
  lower "" = "" ->
  GraphOps.nodes (build_coauthorship_network s) <> [] ->
  (exists n, In n (GraphOps.nodes (build_coauthorship_network s))
             /\ contains (lower author_name) (lower n) = true) ->
  (forall msg, get_author_profile lower s author_name
               <> Ok (ProfileError msg))
  /\ (forall msg, get_author_profile lower s "" <> Ok (ProfileError msg))
  /\ get_author_profile lower s ""
     = profile_of (build_coauthorship_network s)
         (if in_dec string_dec "" (GraphOps.nodes (build_coauthorship_network s))
          then "" else first_node (build_coauthorship_network s)).
Proof.
  intros Hl Hne (n & Hn & Hc).
  set (G := build_coauthorship_network s) in *.
  assert (Hany : forall q,
             (exists m, In m (GraphOps.nodes G)
                        /\ contains (lower q) (lower m) = true) ->
             forall msg, get_author_profile lower s q <> Ok (ProfileError msg)).
  { intros q (m & Hm & Hcm) msg. unfold get_author_profile. fold G.
  rewrite author_profile_resolves.
    destruct (resolve_author lower G q) as [a|] eqn:E.
    - apply profile_of_node. eapply resolve_author_In; eauto.
    - exfalso. unfold resolve_author in E.
      destruct (in_dec string_dec q (GraphOps.nodes G)); [discriminate|].
      eapply find_none in E; eauto. simpl in E. congruence. }
  assert (Hfirst : exists m, In m (GraphOps.nodes G)
                             /\ contains (lower "") (lower m) = true).
  { destruct (GraphOps.nodes G) as [|m l] eqn:E; [contradiction|].
    exists m. split; [now left|]. rewrite Hl. apply contains_empty. }
  repeat split; auto.
  - apply Hany. eauto.
  - unfold get_author_profile, author_profile. fold G.
    rewrite matching_authors_empty_query by auto.
    unfold first_node.
    destruct (GraphOps.nodes G) as [|m l] eqn:E; [contradiction|].
    reflexivity.
Qed.

Lemma substring_query_is_never_not_found_witness :
  (forall msg, get_author_profile lower_ascii corpus_scenario_B "smith"
               <> Ok (ProfileError msg))
  /\ (forall msg, get_author_profile lower_ascii corpus_scenario_B ""
                  <> Ok (ProfileError msg))
  /\ get_author_profile lower_ascii corpus_scenario_B ""
     = profile_of (build_coauthorship_network corpus_scenario_B)
         (if in_dec string_dec ""
               (GraphOps.nodes (build_coauthorship_network corpus_scenario_B))
          then "" else first_node (build_coauthorship_network corpus_scenario_B)).
Proof.
  apply (@substring_query_is_never_not_found
           lower_ascii corpus_scenario_B "smith").
  - reflexivity.
  - discriminate.
  - exists "Smith". split; [left|]; reflexivity.
Defined.

(** C10 as stated fails: when an author is named by the empty string, the
    empty query is an exact match and gets that author, not the first
    node. *)
Lemma empty_query_prefers_the_unnamed_author :
  first_node (build_coauthorship_network corpus_unnamed_author) = "Smith"
  /\ get_author_profile lower_ascii corpus_unnamed_author ""
     = profile_of (build_coauthorship_network corpus_unnamed_author) ""
  /\ get_author_profile lower_ascii corpus_unnamed_author ""
     <> profile_of (build_coauthorship_network corpus_unnamed_author) "Smith".
Proof. repeat split. discriminate. Qed.

(** ** Papers, collaborators and years of a profile *)

Section ProfileContents.

Lemma insert_uniq_In x y l : In y (insert_uniq x l) <-> y = x \/ In y l.
Proof.
  induction l as [|z l IH]; simpl.
  - intuition.
  - destruct (Z.ltb_spec x z); simpl; [intuition|].
    destruct (Z.eqb_spec x z); simpl.
    + subst. intuition.
    + rewrite IH. intuition.
Qed.

Lemma insert_uniq_sorted x l :
  StronglySorted Z.lt l -> StronglySorted Z.lt (insert_uniq x l).
Proof.
  induction 1 as [|z l Hl IH Hz]; simpl.
  - repeat constructor.
  - destruct (Z.ltb_spec x z).
    + constructor; [now constructor|]. constructor; auto.
      eapply Forall_impl; [|exact Hz]. simpl. intros. lia.
    + destruct (Z.eqb_spec x z); [now constructor|].
      constructor; auto. apply Forall_forall. intros y Hy.
      apply insert_uniq_In in Hy. destruct Hy as [->|Hy]; [lia|].
      rewrite Forall_forall in Hz. auto.
Qed.

(** [sorted(set(xs))]: ascending, each value once. *)
Lemma sorted_set_spec xs :
  StronglySorted Z.lt (sorted_set xs)
  /\ forall y, In y (sorted_set xs) <-> In y xs.
Proof.
  induction xs as [|x xs [IHs IHi]]; simpl.
  - split; [constructor|intuition].
  - split; [now apply insert_uniq_sorted|].
    intros y. rewrite insert_uniq_In, IHi. intuition.
Qed.

(** What is left of C5 when every paper of the author has a year: the
    call returns, with the papers in descending order of year, the
    collaborators in descending order of weight, the collaboration
    rate, and the distinct non-zero years in ascending order. *)
Lemma profile_of_with_years G author data :
  dict_get string_dec author (g_node G) = Some data ->
  Forall has_year (papers data) ->
  exists p,
    profile_of G author = Ok (Profile p)
    /\ profile_name p = author
    /\ profile_papers p = sorted_desc year_or_zero Z.ltb (papers data)
    /\ descending year_or_zero (profile_papers p)
    /\ Permutation (profile_papers p) (papers data)
    /\ descending collaboration_count (profile_collaborators p)
    /\ Permutation (profile_collaborators p) (collaborators_of G author)
    /\ collaboration_rate p
       = ratio_or_zero (collaborative_papers p) (profile_total_papers p)
    /\ StronglySorted Z.lt (years_active p)
    /\ (forall y, In y (years_active p)
                  <-> y <> 0 /\ exists q, In q (papers data)
                                          /\ paper_year q = Some y).
Proof.
  intros Hd Hy. unfold profile_of. rewrite Hd.
  rewrite (sorted_desc_exc_with_years Hy). simpl.
  eexists. split; [reflexivity|]. simpl.
  repeat match goal with |- _ /\ _ => split end;
    try reflexivity;
    try apply sorted_desc_descending; try apply sorted_desc_perm;
    try apply sorted_set_spec.
  intros y. rewrite (proj2 (sorted_set_spec _)).
  unfold truthy_years. rewrite in_flat_map. unfold truthy. split.
  - intros (q & Hq & Hin).
    destruct (paper_year q) as [z|] eqn:E; [|contradiction].
    destruct (Z.eqb_spec z 0); simpl in Hin; [contradiction|].
    destruct Hin as [<-|[]]. eauto.
  - intros (Hnz & q & Hq & Hyq). exists q. split; auto. rewrite Hyq.
    destruct (Z.eqb_spec y 0); [contradiction|]. simpl. auto.
Qed.

(** The defect behind C5: with two papers or more and a year missing,
    the sort of the papers raises and no profile is returned. *)
Lemma profile_of_missing_year G author data :
  dict_get string_dec author (g_node G) = Some data ->
  (2 <= length (papers data))%nat ->
  Exists (fun p => paper_year p = None) (papers data) ->
  exists msg, profile_of G author = Raise (TypeError msg).
Proof.
  intros Hd Hlen Hex. unfold profile_of. rewrite Hd.
  destruct (sorted_desc_exc_missing_year Hlen Hex) as (msg & ->).
  simpl. eauto.
Qed.
End ProfileContents.

(** C5.  Smith has a paper without a year and a paper of 2020: where the
    claim has the profile returned with the first paper sorted as year 0,
    [get_author_profile] raises [TypeError], because [x.get('year', 0)]
    is [None] for a paper whose year is [None]. *)
Theorem profile_raises_when_a_year_is_missing :
  exists msg,
    get_author_profile lower_ascii corpus_missing_year "Smith"
    = Raise (TypeError msg).
Proof. eexists. reflexivity. Qed.

(* ===================================================================== *)
(** ** The overviews                                                      *)
(* ===================================================================== *)

Section Overviews.
Variable nx : NxLib.

(** Whatever raises inside [try:] empties the result. *)
Lemma analyze_graph_centrality_raise G e :
  author_centrality_body nx G = Raise e ->
  analyze_graph_centrality nx G = [].
Proof.
  intros H. unfold analyze_graph_centrality. rewrite H.
  now destruct (GraphOps.number_of_nodes G =? 0).
Qed.

Lemma centrality_raise_empties G :
  is_ok (degree_centrality nx G) = false
  \/ is_ok (betweenness_centrality nx G) = false
  \/ is_ok (closeness_centrality nx G) = false
  \/ is_ok (eigenvector_centrality nx G 1000) = false ->
  analyze_graph_centrality nx G = [].
Proof.
  intros H. unfold analyze_graph_centrality.
  destruct (GraphOps.number_of_nodes G =? 0); auto.
  unfold author_centrality_body.
  destruct (degree_centrality nx G); simpl in *; auto.
  destruct (betweenness_centrality nx G); simpl in *; auto.
  destruct (closeness_centrality nx G); simpl in *; auto.
  destruct (eigenvector_centrality nx G 1000); simpl in *; auto.
  intuition discriminate.
Qed.

Lemma no_internal_pairs_no_change cs : forall G,
  internal_pairs cs = [] -> fold_left add_citation_edge cs G = G.
Proof.
  induction cs as [|c cs IH]; intros G H; simpl; auto.
  rewrite internal_pairs_cons in H. apply app_eq_nil in H as [Hc Hcs].
  replace (add_citation_edge G c) with G; auto.
  unfold add_citation_edge, truthy. unfold internal_pairs in Hc.
  simpl in Hc. destruct (cited_document_id c) as [t|]; auto.
  destruct (t =? 0); simpl; auto. discriminate.
Qed.
End Overviews.

(** C1, as amended.  When the power iteration of the eigenvector
    centrality does not converge within 1000 rounds, the exception is
    caught around the whole analysis: [analyze_author_centrality] returns
    the empty dictionary, with none of the metrics of the overview. *)
Theorem nonconvergence_empties_the_overview
        (nx : NxLib) (s : Snapshot) (e : exn) :
  eigenvector_centrality nx (build_coauthorship_network s) 1000 = Raise e ->
  analyze_author_centrality nx s = [].
Proof.
  intros H. apply centrality_raise_empties. rewrite H. simpl. auto.
Qed.

Lemma nonconvergence_empties_the_overview_witness :
  analyze_author_centrality nx_power_iteration corpus_two_paths = [].
Proof.
  apply (@nonconvergence_empties_the_overview
           nx_power_iteration corpus_two_paths
           (PowerIterationFailedConvergence 1000)).
  vm_compute. reflexivity.
Defined.

(** C1 as stated fails.  On two chains of nine and of ten co-authors the
    power iteration has not converged after 1000 rounds (it would within
    3000), the three other centralities are computed, and the result has
    neither their rankings nor the counts. *)
Lemma nonconvergence_drops_the_sibling_metrics :
  eigenvector_centrality nx_power_iteration
    (build_coauthorship_network corpus_two_paths) 1000
  = Raise (PowerIterationFailedConvergence 1000)
  /\ is_ok (eigenvector_centrality nx_power_iteration
              (build_coauthorship_network corpus_two_paths) 3000) = true
  /\ is_ok (degree_centrality nx_power_iteration
              (build_coauthorship_network corpus_two_paths)) = true
  /\ is_ok (betweenness_centrality nx_power_iteration
              (build_coauthorship_network corpus_two_paths)) = true
  /\ is_ok (closeness_centrality nx_power_iteration
              (build_coauthorship_network corpus_two_paths)) = true
  /\ dict_get string_dec "top_by_degree_centrality"
       (analyze_author_centrality nx_power_iteration corpus_two_paths)
     = None
  /\ dict_get string_dec "top_by_betweenness_centrality"
       (analyze_author_centrality nx_power_iteration corpus_two_paths)
     = None
  /\ dict_get string_dec "top_by_closeness_centrality"
       (analyze_author_centrality nx_power_iteration corpus_two_paths)
     = None
  /\ dict_get string_dec "total_authors"
       (analyze_author_centrality nx_power_iteration corpus_two_paths)
     = None
  /\ dict_get string_dec "is_connected"
       (analyze_author_centrality nx_power_iteration corpus_two_paths)
     = None.
Proof.
  assert (Hr : eigenvector_centrality nx_power_iteration
                 (build_coauthorship_network corpus_two_paths) 1000
               = Raise (PowerIterationFailedConvergence 1000))
    by (vm_compute; reflexivity).
  assert (He : analyze_author_centrality nx_power_iteration corpus_two_paths
               = []).
  { apply centrality_raise_empties. rewrite Hr. cbn. auto. }
  rewrite He. split; [exact Hr|].
  split; [vm_compute; reflexivity|]. repeat split.
Qed.

(** C2, as amended.  For a corpus without documents and without internal
    citations neither overview raises; [analyze_citation_patterns]
    returns exactly total_papers = 0, total_citations = 0 and
    average_citations_per_paper = 0, without any ranking, and
    [analyze_author_centrality] returns the empty dictionary. *)
Theorem empty_corpus_overviews (nx : NxLib) (s : Snapshot) :
  documents s = [] ->
  internal_pairs (citations s) = [] ->
  analyze_citation_patterns nx s
  = [ ("total_papers", VInt 0); ("total_citations", VInt 0);
      ("average_citations_per_paper", VInt 0) ]
  /\ analyze_author_centrality nx s = [].
Proof.
  intros Hd Hc. split.
  - unfold analyze_citation_patterns, build_citation_network.
    rewrite Hd. simpl fold_left at 2.
    now rewrite no_internal_pairs_no_change.
  - unfold analyze_author_centrality, build_coauthorship_network.
    now rewrite Hd.
Qed.

Lemma empty_corpus_overviews_witness :
  analyze_citation_patterns nx_power_iteration empty_corpus
  = [ ("total_papers", VInt 0); ("total_citations", VInt 0);
      ("average_citations_per_paper", VInt 0) ]
  /\ analyze_author_centrality nx_power_iteration empty_corpus = [].
Proof.
  apply (@empty_corpus_overviews nx_power_iteration empty_corpus);
    reflexivity.
Defined.

(** C2 as stated fails: on the empty corpus the author overview has no
    counts and no ratio, and neither overview has a ranking list. *)
Lemma empty_corpus_overviews_lack_fields :
  dict_get string_dec "total_authors"
    (analyze_author_centrality nx_power_iteration empty_corpus) = None
  /\ dict_get string_dec "average_collaborators_per_author"
       (analyze_author_centrality nx_power_iteration empty_corpus) = None
  /\ dict_get string_dec "top_by_degree_centrality"
       (analyze_author_centrality nx_power_iteration empty_corpus) = None
  /\ dict_get string_dec "most_cited_by_in_degree"
       (analyze_citation_patterns nx_power_iteration empty_corpus) = None
  /\ dict_get string_dec "highest_pagerank"
       (analyze_citation_patterns nx_power_iteration empty_corpus) = None.
Proof. repeat split. Qed.

(* ===================================================================== *)
(** ** Breadth-first search                                               *)
(* ===================================================================== *)

Section TraversalFacts.
Variable N : Type.
Variable N_dec : forall a b : N, {a = b} + {a <> b}.
Variable nodes : list N.
Variable nbrs : N -> list N.

Hypothesis nodes_NoDup : NoDup nodes.
Hypothesis nbrs_in_nodes : forall u v, In v (nbrs u) -> In v nodes.
Hypothesis nbrs_sym : forall u v, In v (nbrs u) -> In u (nbrs v).

Lemma mem_true x l : mem N_dec x l = true <-> In x l.
Proof. unfold mem. destruct (in_dec N_dec x l); intuition discriminate. Qed.

Lemma next_level_In seen frontier x :
  In x (next_level N_dec nbrs seen frontier)
  <-> (exists f, In f frontier /\ In x (nbrs f)) /\ ~ In x seen.
Proof.
  unfold next_level. rewrite nodup_In, filter_In, in_flat_map.
  rewrite negb_true_iff, <- not_true_iff_false, mem_true. tauto.
Qed.

Lemma next_level_NoDup seen frontier :
  NoDup (next_level N_dec nbrs seen frontier).
Proof. apply NoDup_nodup. Qed.

Lemma bfs_layers_no_frontier fuel seen :
  bfs_layers N_dec nbrs fuel seen [] = [].
Proof. destruct fuel; reflexivity. Qed.

(** *** Soundness: what the search lists is reachable *)
Lemma bfs_layers_sound fuel : forall seen frontier x,
  In x (concat (bfs_layers N_dec nbrs fuel seen frontier)) ->
  exists f, In f frontier /\ reach nbrs f x.
Proof.
  induction fuel as [|fuel IH]; intros seen frontier x H; [contradiction|].
  destruct frontier as [|a fr]; [contradiction|].
  set (fr0 := a :: fr) in *.
  change (bfs_layers N_dec nbrs (S fuel) seen fr0)
    with (fr0 :: bfs_layers N_dec nbrs fuel
                   (seen ++ next_level N_dec nbrs seen fr0)
                   (next_level N_dec nbrs seen fr0)) in H.
  rewrite concat_cons, in_app_iff in H. destruct H as [Hx|Hx].
  - exists x. split; auto. apply rt_refl.
  - apply IH in Hx as (y & Hy & Hyx).
    apply next_level_In in Hy as ((f & Hf & Hfy) & _).
    exists f. split; auto.
    eapply rt_trans; [apply rt_step; exact Hfy|exact Hyx].
Qed.

(** *** The invariant of the search *)
Lemma bfs_layers_inv fuel : forall seen frontier,
  incl frontier seen -> NoDup seen -> incl seen nodes -> NoDup frontier ->
  (length nodes < fuel + length seen)%nat ->
  let R := concat (bfs_layers N_dec nbrs fuel seen frontier) in
  incl frontier R
  /\ (forall u w, In u R -> In w (nbrs u) -> In w seen \/ In w R)
  /\ incl R nodes
  /\ NoDup R
  /\ (forall x, In x R -> In x frontier \/ ~ In x seen).
Proof.
  induction fuel as [|fuel IH]; intros seen frontier Hfs Hns Hsn Hnf Hfuel.
  - exfalso. pose proof (NoDup_incl_length Hns Hsn). simpl in Hfuel. lia.
  - destruct frontier as [|a fr].
    + simpl. repeat split; auto using incl_nil_l; try constructor;
        intros; contradiction.
    + set (fr0 := a :: fr) in *.
      change (bfs_layers N_dec nbrs (S fuel) seen fr0)
        with (fr0 :: bfs_layers N_dec nbrs fuel
                       (seen ++ next_level N_dec nbrs seen fr0)
                       (next_level N_dec nbrs seen fr0)).
      cbv zeta. rewrite concat_cons.
      pose proof (next_level_In seen fr0) as Hnext.
      pose proof (next_level_NoDup seen fr0) as Hnd.
      remember (next_level N_dec nbrs seen fr0) as next eqn:Enext.
      clear Enext.
      assert (Hdisj : forall x, In x next -> ~ In x seen)
        by (intros x Hx; apply Hnext, Hx).
      destruct (list_eq_dec N_dec next []) as [->|Hnn].
      * (* nothing new: the search ends with this level *)
        rewrite bfs_layers_no_frontier. simpl. rewrite app_nil_r.
        repeat split; auto using incl_refl.
        -- intros u w Hu Hw. destruct (in_dec N_dec w seen); auto.
           assert (Hw' : In w []).
           { apply Hnext. split; auto. exists u. split; [exact Hu|exact Hw]. }
           contradiction.
        -- intros x Hx. apply Hsn, Hfs, Hx.
      * destruct (IH (seen ++ next) next) as (I1 & I2 & I3 & I4 & I5).
        { apply incl_appr, incl_refl. }
        { apply NoDup_app; auto.
          intros x Hs Hx. now apply (Hdisj x). }
        { apply incl_app; auto. intros x Hx.
          destruct (proj1 (Hnext x) Hx) as ((f & _ & Hfx) & _).
          eapply nbrs_in_nodes; eauto. }
        { exact Hnd. }
        { rewrite length_app.
          assert (0 < length next)%nat
            by (destruct next; [congruence|simpl; lia]).
          lia. }
        set (R' := concat (bfs_layers N_dec nbrs fuel (seen ++ next) next))
          in *.
        repeat split.
        -- apply incl_appl, incl_refl.
        -- intros u w Hu Hw. apply in_app_or in Hu as [Hu|Hu].
           ++ destruct (in_dec N_dec w seen); auto. right.
              apply in_or_app. right. apply I1.
              apply Hnext. eauto.
           ++ destruct (I2 u w Hu Hw) as [H|H].
              ** apply in_app_or in H as [H|H]; auto.
                 right. apply in_or_app. right. now apply I1.
              ** right. apply in_or_app. now right.
        -- apply incl_app; auto. intros x Hx. apply Hsn, Hfs, Hx.
        -- apply NoDup_app; auto.
           intros x Hf Hr. destruct (I5 x Hr) as [H|H].
           ++ apply (Hdisj x H). now apply Hfs.
           ++ apply H. apply in_or_app. left. now apply Hfs.
        -- intros x Hx. apply in_app_or in Hx as [Hx|Hx]; auto.
           right. destruct (I5 x Hx) as [H|H].
           ++ now apply Hdisj.
           ++ intros Hs. apply H. apply in_or_app. now left.
Qed.

(** *** [_plain_bfs] lists exactly what is reachable, once each *)
Lemma plain_bfs_spec v :
  In v nodes ->
  (forall x, In x (plain_bfs N_dec nodes nbrs v) <-> reach nbrs v x)
  /\ NoDup (plain_bfs N_dec nodes nbrs v)
  /\ incl (plain_bfs N_dec nodes nbrs v) nodes.
Proof.
  intros Hv. unfold plain_bfs, layers_from.
  destruct (@bfs_layers_inv (S (length nodes)) [v] [v])
    as (I1 & I2 & I3 & I4 & _).
  { apply incl_refl. }
  { repeat constructor. simpl. tauto. }
  { intros x [<-|[]]. exact Hv. }
  { repeat constructor. simpl. tauto. }
  { simpl. lia. }
  repeat split; auto.
  - intros Hx. apply bfs_layers_sound in Hx as (f & [<-|[]] & Hr). exact Hr.
  - intros Hx. apply clos_rt_rtn1 in Hx.
    induction Hx as [|y z Hyz Hvy IH].
    + apply I1. now left.
    + destruct (I2 y z IH Hyz) as [[<-|[]]|H]; auto.
      apply I1. now left.
Qed.

Lemma reach_sym u v : reach nbrs u v -> reach nbrs v u.
Proof.
  induction 1 as [x y H|x|x y z _ IH1 _ IH2].
  - apply rt_step. now apply nbrs_sym.
  - apply rt_refl.
  - eapply rt_trans; eauto.
Qed.

Lemma reach_in_nodes u v : In u nodes -> reach nbrs u v -> In v nodes.
Proof.
  intros Hu H. apply clos_rt_rtn1 in H. destruct H as [|y z Hyz _]; auto.
  eapply nbrs_in_nodes; eauto.
Qed.

(** The search from [v] meets every node exactly when every node is
    reachable from [v]. *)
Lemma covers_iff v :
  In v nodes ->
  length (plain_bfs N_dec nodes nbrs v) = length nodes
  <-> (forall x, In x nodes -> reach nbrs v x).
Proof.
  intros Hv. destruct (@plain_bfs_spec v Hv) as (S1 & S2 & S3). split.
  - intros Hlen x Hx. apply S1.
    apply (@NoDup_length_incl _ (plain_bfs N_dec nodes nbrs v) nodes S2);
      [lia|exact S3|exact Hx].
  - intros Hall. apply Permutation_length, NoDup_Permutation; auto.
    intros x. split; [apply S3|]. intros Hx. apply S1. auto.
Qed.

Lemma is_connected_nonempty :
  nodes <> [] -> exists b, is_connected N_dec nodes nbrs = Ok b.
Proof.
  unfold is_connected. destruct nodes; [congruence|]. eauto.
Qed.

Lemma is_connected_head b :
  is_connected N_dec nodes nbrs = Ok b ->
  exists v0, hd_error nodes = Some v0
             /\ b = (length (plain_bfs N_dec nodes nbrs v0)
                     =? length nodes)%nat.
Proof.
  unfold is_connected. destruct nodes as [|v0 rest]; [discriminate|].
  intros H. exists v0. split; [reflexivity|congruence].
Qed.

Lemma hd_error_In (v0 : N) l : hd_error l = Some v0 -> In v0 l.
Proof. destruct l; simpl; [discriminate|]. intros H. left. congruence. Qed.

Lemma is_connected_true :
  is_connected N_dec nodes nbrs = Ok true -> nodes <> [] /\ connected nodes nbrs.
Proof.
  intros H. destruct (is_connected_head H) as (v0 & Hhd & Hlen).
  symmetry in Hlen. apply Nat.eqb_eq in Hlen.
  pose proof (hd_error_In _ Hhd) as Hv0.
  split; [intros E; rewrite E in Hv0; contradiction|].
  intros u x Hu Hx.
  eapply rt_trans; [apply reach_sym|]; apply (proj1 (@covers_iff v0 Hv0)); auto.
Qed.

Lemma eccentricity_connected v :
  connected nodes nbrs -> In v nodes ->
  exists e, eccentricity N_dec nodes nbrs v = Ok e.
Proof.
  intros Hc Hv. unfold eccentricity.
  assert (E : length (plain_bfs N_dec nodes nbrs v) = length nodes)
    by (apply covers_iff; auto).
  unfold plain_bfs in E. rewrite E, Nat.eqb_refl. eauto.
Qed.

Lemma eccentricities_connected vs :
  connected nodes nbrs -> incl vs nodes ->
  exists es, eccentricities N_dec nodes nbrs vs = Ok es
             /\ length es = length vs.
Proof.
  intros Hc. induction vs as [|v vs IH]; intros Hin; simpl.
  - exists []. auto.
  - destruct (@eccentricity_connected v Hc) as (e & ->).
    { apply Hin. now left. }
    destruct IH as (es & -> & Hlen).
    { intros x Hx. apply Hin. now right. }
    simpl. exists (e :: es). simpl. auto.
Qed.

(** On a connected graph with a node, [nx.diameter] returns. *)
Lemma diameter_connected :
  connected nodes nbrs -> nodes <> [] -> exists d, diameter N_dec nodes nbrs = Ok d.
Proof.
  intros Hc Hne. unfold diameter.
  destruct (@eccentricities_connected nodes Hc (incl_refl _))
    as (es & -> & Hlen).
  simpl. destruct es as [|e es]; eauto.
  destruct nodes; [congruence|discriminate].
Qed.

(** On a disconnected graph it raises, at the first node already. *)
Lemma diameter_disconnected :
  is_connected N_dec nodes nbrs = Ok false ->
  exists msg, diameter N_dec nodes nbrs = Raise (NetworkXError msg).
Proof.
  intros H. destruct (is_connected_head H) as (v0 & Hhd & Hlen).
  unfold diameter. destruct nodes as [|v rest]; [discriminate|].
  injection Hhd as ->. cbn [eccentricities]. unfold eccentricity.
  unfold plain_bfs in Hlen. rewrite <- Hlen. simpl. eauto.
Qed.

Lemma average_shortest_path_length_connected :
  is_connected N_dec nodes nbrs = Ok true ->
  exists q, average_shortest_path_length N_dec nodes nbrs = Ok q.
Proof.
  intros H. unfold average_shortest_path_length.
  destruct (len nodes =? 0) eqn:E0.
  - exfalso. unfold is_connected in H. destruct nodes; [discriminate|].
    unfold len in E0. simpl in E0. discriminate.
  - destruct (len nodes =? 1); eauto. rewrite H. simpl. eauto.
Qed.

(** *** Components *)
Lemma components_from_spec todo : forall seen c,
  incl todo nodes ->
  In c (components_from N_dec nodes nbrs todo seen) ->
  exists v, In v nodes /\ c = plain_bfs N_dec nodes nbrs v.
Proof.
  induction todo as [|v todo IH]; intros seen c Hin; simpl; [tauto|].
  assert (Hin' : incl todo nodes) by (intros x Hx; apply Hin; now right).
  destruct (mem N_dec v seen); [now apply IH|].
  intros [<-|Hc]; [|now apply IH in Hc].
  exists v. split; auto. apply Hin. now left.
Qed.

Lemma max_by_len_In (cs : list (list N)) : forall best,
  In (max_by_len best cs) (best :: cs).
Proof.
  induction cs as [|c cs IH]; intros best; simpl; auto.
  destruct (IH (if (length best <? length c)%nat then c else best))
    as [H|H]; auto.
  destruct (length best <? length c)%nat; auto.
Qed.

Lemma largest_component_spec :
  nodes <> [] ->
  exists c v, largest_component N_dec nodes nbrs = Ok c
              /\ In v nodes /\ c = plain_bfs N_dec nodes nbrs v.
Proof.
  intros Hne. unfold largest_component, connected_components.
  destruct (components_from N_dec nodes nbrs nodes []) as [|c cs] eqn:E.
  - exfalso. destruct nodes; [congruence|]. simpl in E. discriminate.
  - destruct (@components_from_spec nodes [] (max_by_len c cs) (incl_refl _))
      as (v & Hv & Hc).
    { rewrite E. apply max_by_len_In. }
    eauto.
Qed.

(** *** The component that [max(..., key=len)] takes *)

(** It is the first one of the greatest length. *)
Lemma max_by_len_first (cs : list (list N)) : forall best,
  exists pre post,
    best :: cs = pre ++ max_by_len best cs :: post
    /\ (forall c, In c pre ->
                  (length c < length (max_by_len best cs))%nat)
    /\ (forall c, In c post ->
                  (length c <= length (max_by_len best cs))%nat).
Proof.
  induction cs as [|c cs IH]; intros best; cbn [max_by_len].
  - exists [], []. repeat split; intros c [].
  - destruct (Nat.ltb_spec (length best) (length c)) as [Hlt|Hge].
    + destruct (IH c) as (pre & post & Heq & Hpre & Hpost).
      remember (max_by_len c cs) as m eqn:Em.
      exists (best :: pre), post. split; [cbn [app]; now rewrite Heq|].
      split; [|exact Hpost].
      intros c' [Hc'|Hc']; [subst c'|now apply Hpre].
      destruct pre as [|p pre'].
      * cbn [app] in Heq. injection Heq as Hm _. rewrite <- Hm. exact Hlt.
      * cbn [app] in Heq. injection Heq as Hp _.
        assert (Hc : (length c < length m)%nat)
          by (apply Hpre; left; now symmetry).
        lia.
    + destruct (IH best) as (pre & post & Heq & Hpre & Hpost).
      remember (max_by_len best cs) as m eqn:Em.
      destruct pre as [|p pre'].
      * cbn [app] in Heq. injection Heq as Hm Hcs.
        exists [], (c :: post).
        split; [cbn [app]; now rewrite <- Hm, <- Hcs|].
        split; [intros c' []|].
        intros c' [Hc'|Hc']; [subst c'; rewrite <- Hm; exact Hge|].
        now apply Hpost.
      * cbn [app] in Heq. injection Heq as Hp Hcs.
        exists (best :: c :: pre'), post.
        split; [cbn [app]; now rewrite Hcs|].
        split; [|exact Hpost].
        assert (Hb : (length best < length m)%nat)
          by (apply Hpre; left; now symmetry).
        intros c' [Hc'|[Hc'|Hc']]; [subst c'; exact Hb|subst c'; lia|].
        apply Hpre. now right.
Qed.

(** The components come in the order of their first nodes: the nodes
    before the first node of a component are in earlier components. *)
Lemma components_from_first todo : forall seen pre c post,
  incl todo nodes ->
  components_from N_dec nodes nbrs todo seen = pre ++ c :: post ->
  exists before v after,
    todo = before ++ v :: after
    /\ c = plain_bfs N_dec nodes nbrs v
    /\ forall u, In u before ->
                 In u seen \/ exists c', In c' pre /\ In u c'.
Proof.
  induction todo as [|w todo IH]; intros seen pre c post Hin;
    cbn [components_from].
  - intros H. destruct pre; discriminate.
  - assert (Hin' : incl todo nodes) by (intros x Hx; apply Hin; now right).
    assert (Hw : In w nodes) by (apply Hin; now left).
    destruct (mem N_dec w seen) eqn:Hm.
    + intros H. destruct (IH _ _ _ _ Hin' H) as (b & v & a & Ht & Hc & Hb).
      exists (w :: b), v, a. split; [now rewrite Ht|]. split; [exact Hc|].
      intros u [<-|Hu]; [left; now apply mem_true|now apply Hb].
    + intros H. destruct pre as [|p pre'].
      * cbn [app] in H. inversion H as [[Hc Hrest]].
        exists [], w, todo. repeat split. intros u [].
      * cbn [app] in H. inversion H as [[Hp Hrest]].
        destruct (IH _ _ _ _ Hin' Hrest) as (b & v & a & Ht & Hc & Hb).
        exists (w :: b), v, a. split; [now rewrite Ht|]. split; [exact Hc|].
        intros u [<-|Hu].
        -- right. exists (plain_bfs N_dec nodes nbrs w).
           split; [now left|].
           apply (proj1 (@plain_bfs_spec w Hw)). apply rt_refl.
        -- destruct (Hb u Hu) as [Hs|(c' & Hc' & Huc)].
           ++ apply in_app_or in Hs. destruct Hs as [Hs|Hs]; [now left|].
              right. exists (plain_bfs N_dec nodes nbrs w).
              split; [now left|exact Hs].
           ++ right. exists c'. split; [now right|exact Huc].
Qed.

(** Every node is in a component. *)
Lemma components_from_cover todo : forall seen u,
  incl todo nodes -> In u todo ->
  In u seen
  \/ exists c, In c (components_from N_dec nodes nbrs todo seen) /\ In u c.
Proof.
  induction todo as [|w todo IH]; intros seen u Hin Hu; [destruct Hu|].
  cbn [components_from].
  assert (Hin' : incl todo nodes) by (intros x Hx; apply Hin; now right).
  assert (Hw : In w nodes) by (apply Hin; now left).
  destruct (mem N_dec w seen) eqn:Hm.
  - destruct Hu as [<-|Hu]; [left; now apply mem_true|now apply IH].
  - destruct Hu as [<-|Hu].
    + right. exists (plain_bfs N_dec nodes nbrs w). split; [now left|].
      apply (proj1 (@plain_bfs_spec w Hw)). apply rt_refl.
    + destruct (IH (seen ++ plain_bfs N_dec nodes nbrs w) u Hin' Hu)
        as [Hs|(c & Hc & Huc)].
      * apply in_app_or in Hs. destruct Hs as [Hs|Hs]; [now left|].
        right. exists (plain_bfs N_dec nodes nbrs w).
        split; [now left|exact Hs].
      * right. exists c. split; [now right|exact Huc].
Qed.

(** The nodes reached from a member of a component are as many as the
    component has. *)
Lemma component_length v u (cu : list N) :
  In v nodes ->
  In u (plain_bfs N_dec nodes nbrs v) ->
  NoDup cu -> (forall x, In x cu <-> reach nbrs u x) ->
  length cu = length (plain_bfs N_dec nodes nbrs v).
Proof.
  intros Hv Hu Hnd Hcu.
  destruct (@plain_bfs_spec v Hv) as (Hreach & Hbnd & _).
  apply Permutation_length, NoDup_Permutation; auto.
  intros x. rewrite Hcu, Hreach. apply Hreach in Hu. split.
  - intros Hx. eapply rt_trans; eauto.
  - intros Hx. eapply rt_trans; [apply reach_sym; exact Hu|exact Hx].
Qed.

(** [max(nx.connected_components(G), key=len)] is a connected component,
    no component has more nodes, and the components that start earlier
    in node order have fewer. *)
Lemma largest_component_largest :
  nodes <> [] ->
  exists c v before after,
    largest_component N_dec nodes nbrs = Ok c
    /\ nodes = before ++ v :: after
    /\ c = plain_bfs N_dec nodes nbrs v
    /\ (forall u cu, In u before -> NoDup cu ->
                     (forall x, In x cu <-> reach nbrs u x) ->
                     (length cu < length c)%nat)
    /\ (forall u cu, In u nodes -> NoDup cu ->
                     (forall x, In x cu <-> reach nbrs u x) ->
                     (length cu <= length c)%nat).
Proof.
  intros Hne. unfold largest_component, connected_components.
  destruct (components_from N_dec nodes nbrs nodes []) as [|c0 cs] eqn:E.
  { exfalso. destruct nodes; [congruence|]. simpl in E. discriminate. }
  destruct (max_by_len_first cs c0) as (pre & post & Heq & Hpre & Hpost).
  set (m := max_by_len c0 cs) in *.
  rewrite Heq in E.
  destruct (@components_from_first nodes [] pre m post (incl_refl _) E)
    as (before & v & after & Hnodes & Hm & Hbefore).
  assert (Hclass : forall c', In c' (pre ++ m :: post) ->
            forall u cu, In u c' -> NoDup cu ->
              (forall x, In x cu <-> reach nbrs u x) ->
              length cu = length c').
  { intros c' Hc' u cu Hu Hnd Hcu.
    destruct (@components_from_spec nodes [] c' (incl_refl _))
      as (v' & Hv' & Ec'); [now rewrite E|].
    subst c'. now apply (@component_length v' u cu). }
  exists m, v, before, after.
  split; [reflexivity|]. split; [exact Hnodes|]. split; [exact Hm|]. split.
  - intros u cu Hu Hnd Hcu.
    destruct (Hbefore u Hu) as [[]|(c' & Hc' & Huc)].
    rewrite (Hclass c' (in_or_app _ _ _ (or_introl Hc')) u cu Huc Hnd Hcu).
    now apply Hpre.
  - intros u cu Hu Hnd Hcu.
    destruct (@components_from_cover nodes [] u (incl_refl _) Hu)
      as [[]|(c' & Hc' & Huc)].
    rewrite E in Hc'.
    rewrite (Hclass c' Hc' u cu Huc Hnd Hcu).
    apply in_app_or in Hc'. destruct Hc' as [Hc'|[<-|Hc']].
    + apply Nat.lt_le_incl. now apply Hpre.
    + apply Nat.le_refl.
    + now apply Hpost.
Qed.
End TraversalFacts.

(** *** The subgraph on a component is connected *)
Section ComponentSubgraph.
Variable N : Type.
Variable N_dec : forall a b : N, {a = b} + {a <> b}.
Variables (nodes : list N) (nbrs : N -> list N).
Hypothesis nodes_NoDup : NoDup nodes.
Hypothesis nbrs_in_nodes : forall u v, In v (nbrs u) -> In v nodes.
Hypothesis nbrs_sym : forall u v, In v (nbrs u) -> In u (nbrs v).

Variable v : N.
Hypothesis v_node : In v nodes.

(** The graph restricted to the component of [v]. *)
Variables (nodes' : list N) (nbrs' : N -> list N).
Hypothesis nodes'_NoDup : NoDup nodes'.
Hypothesis nodes'_spec : forall x,
  In x nodes' <-> In x nodes /\ In x (plain_bfs N_dec nodes nbrs v).
Hypothesis nbrs'_spec : forall u w,
  In w (nbrs' u)
  <-> In w (nbrs u) /\ In u (plain_bfs N_dec nodes nbrs v)
      /\ In w (plain_bfs N_dec nodes nbrs v).

Lemma component_reach x :
  In x (plain_bfs N_dec nodes nbrs v) <-> reach nbrs v x.
Proof.
  apply (plain_bfs_spec N_dec nodes nbrs nbrs_in_nodes v v_node).
Qed.

Lemma restricted_in_nodes u w : In w (nbrs' u) -> In w nodes'.
Proof.
  intros H. apply nbrs'_spec in H as (H1 & _ & H3).
  apply nodes'_spec. split; auto. eapply nbrs_in_nodes; eauto.
Qed.

Lemma restricted_sym u w : In w (nbrs' u) -> In u (nbrs' w).
Proof.
  intros H. apply nbrs'_spec in H as (H1 & H2 & H3).
  apply nbrs'_spec. auto.
Qed.

(** A path from [v] stays inside the component of [v]. *)
Lemma reach_restricted x : reach nbrs v x -> reach nbrs' v x.
Proof.
  intros H. apply clos_rt_rtn1 in H.
  induction H as [|y z Hyz Hvy IH]; [apply rt_refl|].
  eapply rt_trans; [exact IH|]. apply rt_step. apply nbrs'_spec.
  assert (Hy : reach nbrs v y) by now apply clos_rtn1_rt.
  repeat split; auto.
  - now apply component_reach.
  - apply component_reach. eapply rt_trans; [exact Hy|now apply rt_step].
Qed.

Lemma component_connected : connected nodes' nbrs' /\ nodes' <> [].
Proof.
  split.
  - intros u x Hu Hx.
    apply nodes'_spec in Hu as (_ & Hu). apply nodes'_spec in Hx as (_ & Hx).
    apply component_reach in Hu, Hx.
    eapply rt_trans.
    + apply (@reach_sym N nbrs' restricted_sym).
      apply reach_restricted. exact Hu.
    + apply reach_restricted. exact Hx.
  - assert (In v nodes').
    { apply nodes'_spec. split; auto. apply component_reach. apply rt_refl. }
    intros E. rewrite E in H. contradiction.
Qed.

(** So [nx.diameter] returns on it. *)
Lemma component_diameter : exists d, diameter N_dec nodes' nbrs' = Ok d.
Proof.
  destruct component_connected as [Hc Hne].
  apply diameter_connected; auto. exact restricted_in_nodes.
Qed.
End ComponentSubgraph.

(* ===================================================================== *)
(** ** Shape of the collaboration graph                                   *)
(* ===================================================================== *)

Section CollaborationShape.
Import GraphOps.

Lemma neighbors_In G u w :
  In w (neighbors G u)
  <-> In (u, w) (keys (g_edge G)) \/ In (w, u) (keys (g_edge G)).
Proof.
  unfold neighbors, adjacency, keys.
  rewrite in_map_iff. setoid_rewrite in_flat_map. setoid_rewrite in_map_iff.
  split.
  - intros ([w' d'] & Hw & [[a b] d] & He & Hin). simpl in Hw. subst w'.
    destruct (string_dec a u) as [->|Ha].
    + destruct Hin as [Heq|[]]. inversion Heq; subst.
      left. exists ((u, w), d'). auto.
    + destruct (string_dec b u) as [->|Hb]; [|contradiction].
      destruct Hin as [Heq|[]]. inversion Heq; subst.
      right. exists ((w, u), d'). auto.
  - intros [([[a b] d] & Hk & He)|([[a b] d] & Hk & He)];
      simpl in Hk; inversion Hk; subst.
    + exists (w, d). split; auto. exists ((u, w), d). split; auto.
      destruct (string_dec u u); [now left|congruence].
    + exists (w, d). split; auto. exists ((w, u), d). split; auto.
      destruct (string_dec w u) as [->|Hne]; [now left|].
      destruct (string_dec u u); [now left|congruence].
Qed.

Lemma neighbors_sym G u w : In w (neighbors G u) -> In u (neighbors G w).
Proof. rewrite !neighbors_In. tauto. Qed.

Lemma neighbors_in_nodes G u w :
  well_formed G -> In w (neighbors G u) -> In w (nodes G).
Proof.
  intros [_ Hwf]. rewrite neighbors_In. intros [H|H]; apply Hwf in H; tauto.
Qed.

(** *** The builder keeps the graph well formed *)

Lemma add_author_paper_nodes p G a x :
  In x (nodes (add_author_paper p G a)) <-> x = a \/ In x (nodes G).
Proof.
  unfold add_author_paper, nodes, update_node, add_node, has_node. simpl.
  rewrite keys_dict_update.
  destruct (dict_mem string_dec a (g_node G)) eqn:E; simpl.
  - apply dict_mem_In in E. split; [auto|]. intros [->|]; auto.
  - apply In_keys_dict_set.
Qed.

Lemma add_author_paper_NoDup p G a :
  NoDup (nodes G) -> NoDup (nodes (add_author_paper p G a)).
Proof.
  intros H. unfold add_author_paper, nodes, update_node, add_node, has_node.
  simpl. rewrite keys_dict_update.
  destruct (dict_mem string_dec a (g_node G)) eqn:E; simpl; auto.
  now apply NoDup_keys_dict_set.
Qed.

Lemma fold_add_author_paper_nodes p authors : forall G,
  (forall x, In x (nodes (fold_left (add_author_paper p) authors G))
             <-> In x authors \/ In x (nodes G))
  /\ (NoDup (nodes G) ->
      NoDup (nodes (fold_left (add_author_paper p) authors G))).
Proof.
  induction authors as [|a authors IH]; intros G; simpl.
  - split; [intros; tauto|auto].
  - destruct (IH (add_author_paper p G a)) as [I1 I2]. split.
    + intros x. rewrite I1, add_author_paper_nodes. intuition.
    + intros H. apply I2. now apply add_author_paper_NoDup.
Qed.

Lemma fold_link_shape p a1 rest : forall G,
  g_node (fold_left (link p a1) rest G) = g_node G
  /\ forall e, In e (keys (g_edge (fold_left (link p a1) rest G))) ->
               In e (keys (g_edge G)) \/ (fst e = a1 /\ In (snd e) rest).
Proof.
  induction rest as [|a2 rest IH]; intros G; simpl.
  - split; auto.
  - destruct (IH (link p a1 G a2)) as [I1 I2]. split.
    + now rewrite I1, link_nodes.
    + intros e He. destruct (I2 e He) as [H|[H1 H2]]; auto.
      apply link_keys_In in H as [H|[_ ->]]; auto.
Qed.

Lemma link_pairs_shape p authors : forall G,
  g_node (link_pairs p authors G) = g_node G
  /\ forall e, In e (keys (g_edge (link_pairs p authors G))) ->
               In e (keys (g_edge G))
               \/ (In (fst e) authors /\ In (snd e) authors).
Proof.
  induction authors as [|a1 rest IH]; intros G; simpl.
  - split; auto.
  - destruct (fold_link_shape p a1 rest G) as [F1 F2].
    destruct (IH (fold_left (link p a1) rest G)) as [I1 I2]. split.
    + congruence.
    + intros e He. destruct (I2 e He) as [H|[H1 H2]]; auto.
      destruct (F2 e H) as [H'|[H1 H2]]; auto.
Qed.

Lemma add_document_well_formed G doc :
  well_formed G -> well_formed (add_document G doc).
Proof.
  intros [Hnd Hin]. unfold add_document.
  set (p := paper_of doc). set (authors := doc_authors doc).
  destruct (fold_add_author_paper_nodes p authors G) as [N1 N2].
  destruct (link_pairs_shape p authors (fold_left (add_author_paper p) authors G))
    as [L1 L2].
  unfold well_formed, nodes in *. rewrite L1. split; auto.
  intros u v He. rewrite !N1.
  destruct (L2 _ He) as [H|[H1 H2]]; simpl in *; auto.
  rewrite fold_add_author_paper_edges in H. apply Hin in H. tauto.
Qed.

Lemma build_coauthorship_network_well_formed s :
  well_formed (build_coauthorship_network s).
Proof.
  unfold build_coauthorship_network.
  assert (H : well_formed empty) by (split; [constructor|intros ? ? []]).
  revert H. generalize empty.
  induction (documents s) as [|d docs IH]; intros G H; simpl; auto.
  apply IH. now apply add_document_well_formed.
Qed.

(** *** [G.subgraph(c)] *)

Lemma keys_filter (K V : Type) (P : K -> bool) (d : dict K V) :
  keys (filter (fun kv => P (fst kv)) d) = filter P (keys d).
Proof.
  induction d as [|[k v] d IH]; simpl; auto.
  destruct (P k); simpl; congruence.
Qed.

Lemma subgraph_nodes G c x :
  In x (nodes (subgraph G c)) <-> In x (nodes G) /\ In x c.
Proof.
  unfold nodes, subgraph. simpl.
  rewrite (keys_filter (fun k => if in_dec string_dec k c then true else false)).
  rewrite filter_In. destruct (in_dec string_dec x c); intuition discriminate.
Qed.

Lemma subgraph_nodes_NoDup G c :
  NoDup (nodes G) -> NoDup (nodes (subgraph G c)).
Proof.
  unfold nodes, subgraph. simpl. intros H.
  rewrite (keys_filter (fun k => if in_dec string_dec k c then true else false)).
  now apply NoDup_filter.
Qed.

Lemma subgraph_edges G c a b :
  In (a, b) (keys (g_edge (subgraph G c)))
  <-> In (a, b) (keys (g_edge G)) /\ In a c /\ In b c.
Proof.
  unfold subgraph. simpl.
  rewrite (keys_filter
             (fun k : string * string =>
                (if in_dec string_dec (fst k) c then true else false)
                && (if in_dec string_dec (snd k) c then true else false))).
  rewrite filter_In. simpl.
  destruct (in_dec string_dec a c), (in_dec string_dec b c); simpl;
    intuition discriminate.
Qed.

Lemma subgraph_neighbors G c u w :
  In w (neighbors (subgraph G c) u)
  <-> In w (neighbors G u) /\ In u c /\ In w c.
Proof. rewrite !neighbors_In, !subgraph_edges. tauto. Qed.
End CollaborationShape.

(* ===================================================================== *)
(** ** Connectivity in the author overview                                *)
(* ===================================================================== *)

Section ConnectivityReport.
Import GraphOps.

(** What the traversal routines do on a collaboration graph with a node:
    connected, [nx.diameter] and the average path length return;
    disconnected, [nx.diameter] returns on the subgraph of the largest
    component and would raise on the whole graph. *)
Lemma collaboration_connectivity G :
  well_formed G -> nodes G <> [] ->
  exists flag,
    GraphAlg.is_connected G = Ok flag
    /\ if flag then
         exists d q, GraphAlg.diameter G = Ok d
                     /\ GraphAlg.average_shortest_path_length G = Ok q
       else
         exists c d msg,
           GraphAlg.largest_component G = Ok c
           /\ is_largest_component G c
           /\ GraphAlg.diameter (subgraph G c) = Ok d
           /\ GraphAlg.diameter G = Raise (NetworkXError msg).
Proof.
  intros Hwf Hne. pose proof Hwf as [Hnd _].
  assert (Hin : forall u v, In v (neighbors G u) -> In v (nodes G))
    by (intros u v; now apply neighbors_in_nodes).
  assert (Hsym : forall u v, In v (neighbors G u) -> In u (neighbors G v))
    by (intros u v; apply neighbors_sym).
  destruct (@is_connected_nonempty string string_dec (nodes G) (neighbors G)
              Hnd Hin Hne) as (flag & Hflag).
  exists flag. split; [exact Hflag|]. destruct flag.
  - destruct (@is_connected_true string string_dec (nodes G) (neighbors G)
                Hnd Hin Hsym Hflag) as [_ Hc].
    destruct (@diameter_connected string string_dec (nodes G) (neighbors G)
                Hnd Hin Hc Hne) as (d & Hd).
    destruct (@average_shortest_path_length_connected
                string string_dec (nodes G) (neighbors G) Hnd Hin Hflag)
      as (q & Hq).
    exists d, q. auto.
  - destruct (@largest_component_largest string string_dec (nodes G)
                (neighbors G) Hnd Hin Hsym Hne)
      as (c & v & before & after & Hc & Hnodes & Ec & Hbefore & Hall).
    assert (Hv : In v (nodes G))
      by (rewrite Hnodes; apply in_or_app; right; now left).
    assert (Hlargest : is_largest_component G c).
    { destruct (@plain_bfs_spec string string_dec (nodes G) (neighbors G)
                  Hin v Hv) as (Hreach & Hcnd & _).
      exists v, before, after. split; [exact Hnodes|]. split.
      - split; [now rewrite Ec|]. intros x. rewrite Ec. apply Hreach.
      - split.
        + intros u cu Hu [Hcu1 Hcu2]. unfold len. apply inj_lt.
          now apply (Hbefore u cu).
        + intros u cu Hu [Hcu1 Hcu2]. unfold len. apply inj_le.
          now apply (Hall u cu). }
    destruct (@diameter_disconnected string string_dec (nodes G) (neighbors G)
                Hnd Hin Hflag) as (msg & Hmsg).
    assert (exists d, GraphAlg.diameter (subgraph G c) = Ok d) as (d & Hd).
    { unfold GraphAlg.diameter.
      eapply (@component_diameter string string_dec (nodes G) (neighbors G));
        eauto.
      - now apply subgraph_nodes_NoDup.
      - intros x. rewrite subgraph_nodes. now rewrite Ec.
      - intros u w. rewrite subgraph_neighbors. now rewrite Ec. }
    exists c, d, msg. auto.
Qed.
End ConnectivityReport.

(** C8, as amended.  For every collaboration graph with at least one
    author on which the four centrality computations succeed,
    [analyze_author_centrality] reports: when the graph is connected, its
    diameter and its average shortest-path length, and none of the
    component fields; when it is disconnected, the number of connected
    components and the size and the diameter of the largest component
    only, which is a connected component that no component exceeds in
    size, the first such in node order.  No diameter is computed over a
    disconnected whole graph
    ([nx.diameter] would raise there), and the diameter calls that are
    made return. *)
Theorem connectivity_report (nx : NxLib) (s : Snapshot) :
  GraphOps.nodes (build_coauthorship_network s) <> [] ->
  is_ok (degree_centrality nx (build_coauthorship_network s)) = true ->
  is_ok (betweenness_centrality nx (build_coauthorship_network s)) = true ->
  is_ok (closeness_centrality nx (build_coauthorship_network s)) = true ->
  is_ok (eigenvector_centrality nx (build_coauthorship_network s) 1000) = true ->
  connectivity_reported nx s.
Proof.
  unfold connectivity_reported.
  set (G := build_coauthorship_network s).
  intros Hne Hdeg Hbtw Hclo Heig.
  destruct (collaboration_connectivity
              (build_coauthorship_network_well_formed s) Hne)
    as (flag & Hflag & Hrest).
  fold G in Hflag, Hrest.
  assert (Hn : (GraphOps.number_of_nodes G =? 0) = false).
  { apply Z.eqb_neq. unfold GraphOps.number_of_nodes, len.
    unfold GraphOps.nodes, keys in Hne.
    destruct (g_node G); [contradiction|]. simpl. lia. }
  unfold analyze_author_centrality, analyze_graph_centrality. fold G.
  rewrite Hn. unfold author_centrality_body.
  destruct (degree_centrality nx G) as [dc|]; [|discriminate].
  destruct (betweenness_centrality nx G) as [bc|]; [|discriminate].
  destruct (closeness_centrality nx G) as [cc|]; [|discriminate].
  destruct (eigenvector_centrality nx G 1000) as [ec|]; [|discriminate].
  cbn [bind]. rewrite Hflag. cbn [bind].
  exists flag. split; [reflexivity|]. destruct flag.
  - destruct Hrest as (d & q & Hd & Hq). rewrite Hd, Hq. cbn [bind].
    split; [reflexivity|]. split; [|repeat split].
    exists d, q. repeat split; auto.
  - destruct Hrest as (c & d & msg & Hc & Hlargest & Hd & Hmsg).
    rewrite Hc. cbn [bind]. rewrite Hd. cbn [bind].
    split; [reflexivity|]. split; [|repeat split; eauto].
    exists c, d. split; [reflexivity|]. split; [exact Hlargest|].
    repeat split; auto.
Qed.

Lemma connectivity_report_witness :
  connectivity_reported nx_power_iteration corpus_two_groups.
Proof.
  apply (@connectivity_report nx_power_iteration corpus_two_groups).
  - vm_compute. discriminate.
  - vm_compute. reflexivity.
  - vm_compute. reflexivity.
  - vm_compute. reflexivity.
  - vm_compute. reflexivity.
Defined.

(** The two cases on examples: one group of three authors, and two
    groups without a common paper. *)
Lemma connected_overview_example :
  map (fun k => dict_get string_dec k
                         (analyze_author_centrality nx_power_iteration
                                                    corpus_scenario_B))
      ["is_connected"; "diameter"; "average_path_length";
       "connected_components"; "largest_component_diameter"]
  = [Some (VBool true); Some (VInt 2); Some (VFloat (8 # 6)); None; None].
Proof. vm_compute. reflexivity. Qed.

Lemma disconnected_overview_example :
  map (fun k => dict_get string_dec k
                         (analyze_author_centrality nx_power_iteration
                                                    corpus_two_groups))
      ["is_connected"; "connected_components"; "largest_component_size";
       "largest_component_diameter"; "diameter"; "average_path_length"]
  = [Some (VBool false); Some (VInt 2); Some (VInt 4); Some (VInt 2);
     None; None].
Proof. vm_compute. reflexivity. Qed.

(** On one paper by two authors the power iteration converges, in its
    second round, and the overview has the diameter and the average path
    length. *)
Lemma two_coauthors_overview_example :
  is_ok (eigenvector_centrality nx_power_iteration
           (build_coauthorship_network corpus_two_coauthors) 2) = true
  /\ map (fun k => dict_get string_dec k
                            (analyze_author_centrality nx_power_iteration
                                                       corpus_two_coauthors))
         ["is_connected"; "diameter"; "average_path_length"]
     = [Some (VBool true); Some (VInt 1); Some (VFloat (2 # 2))].
Proof. vm_compute. split; reflexivity. Qed.

(** For a single author the average path length is the int 0. *)
Lemma single_author_overview_example :
  map (fun k => dict_get string_dec k
                         (analyze_author_centrality nx_power_iteration
                                                    corpus_missing_year))
      ["total_authors"; "is_connected"; "diameter"; "average_path_length"]
  = [Some (VInt 1); Some (VBool true); Some (VInt 0); Some (VInt 0)].
Proof. vm_compute. reflexivity. Qed.

(** C8 as stated fails.  The two chains of co-authors are not connected,
    the power iteration has not converged after 1000 rounds, and the
    overview has neither [is_connected] nor any of the component
    fields. *)
Lemma nonconvergence_drops_the_components :
  GraphAlg.is_connected (build_coauthorship_network corpus_two_paths)
  = Ok false
  /\ GraphAlg.number_connected_components
       (build_coauthorship_network corpus_two_paths) = 2
  /\ eigenvector_centrality nx_power_iteration
       (build_coauthorship_network corpus_two_paths) 1000
     = Raise (PowerIterationFailedConvergence 1000)
  /\ dict_get string_dec "is_connected"
       (analyze_author_centrality nx_power_iteration corpus_two_paths)
     = None
  /\ dict_get string_dec "connected_components"
       (analyze_author_centrality nx_power_iteration corpus_two_paths)
     = None
  /\ dict_get string_dec "largest_component_size"
       (analyze_author_centrality nx_power_iteration corpus_two_paths)
     = None
  /\ dict_get string_dec "largest_component_diameter"
       (analyze_author_centrality nx_power_iteration corpus_two_paths)
     = None.
Proof.
  assert (Hr : eigenvector_centrality nx_power_iteration
                 (build_coauthorship_network corpus_two_paths) 1000
               = Raise (PowerIterationFailedConvergence 1000))
    by (vm_compute; reflexivity).
  assert (He : analyze_author_centrality nx_power_iteration corpus_two_paths
               = []).
  { apply centrality_raise_empties. rewrite Hr. cbn. auto. }
  rewrite He. split; [vm_compute; reflexivity|].
  split; [vm_compute; reflexivity|]. split; [exact Hr|]. repeat split.
Qed.

(* ===================================================================== *)
(** * Further properties of the analyzers                                 *)
(* ===================================================================== *)

(** ** Sets and default dictionaries *)

Section PySetFacts.
Variable A : Type.
Variable A_dec : forall a b : A, {a = b} + {a <> b}.

Lemma set_add_In s x y : In y (set_add A_dec s x) <-> y = x \/ In y s.
Proof.
  unfold set_add. destruct (in_dec A_dec x s).
  - split; auto. intros [->|]; auto.
  - rewrite in_app_iff. simpl. intuition.
Qed.

Lemma set_add_NoDup s x : NoDup s -> NoDup (set_add A_dec s x).
Proof.
  intros H. unfold set_add. destruct (in_dec A_dec x s); auto.
  now apply NoDup_snoc.
Qed.

Lemma set_update_spec xs : forall s,
  (forall y, In y (set_update A_dec s xs) <-> In y s \/ In y xs)
  /\ (NoDup s -> NoDup (set_update A_dec s xs)).
Proof.
  unfold set_update. induction xs as [|x xs IH]; intros s; simpl.
  - split; [intuition|auto].
  - destruct (IH (set_add A_dec s x)) as [I1 I2]. split.
    + intros y. rewrite I1, set_add_In. intuition.
    + intros H. apply I2. now apply set_add_NoDup.
Qed.
End PySetFacts.

Section DefaultDictFacts.
Variables (K V : Type).
Variable K_dec : forall a b : K, {a = b} + {a <> b}.

Lemma defaultdict_update_keys k def (f : V -> V) (d : dict K V) x :
  In x (keys (defaultdict_update K_dec k def f d)) <-> x = k \/ In x (keys d).
Proof.
  unfold defaultdict_update. destruct (dict_mem K_dec k d) eqn:E.
  - rewrite keys_dict_update. apply (dict_mem_In K_dec k d) in E.
    split; auto. intros [->|]; auto.
  - rewrite keys_app, in_app_iff. simpl. intuition.
Qed.

Lemma defaultdict_update_NoDup k def (f : V -> V) (d : dict K V) :
  NoDup (keys d) -> NoDup (keys (defaultdict_update K_dec k def f d)).
Proof.
  intros H. unfold defaultdict_update. destruct (dict_mem K_dec k d) eqn:E.
  - now rewrite keys_dict_update.
  - rewrite keys_app. change (keys [(k, f def)]) with [k].
    apply NoDup_snoc; auto. exact (proj1 (dict_mem_false K_dec k d) E).
Qed.

Lemma defaultdict_update_get k def (f : V -> V) (d : dict K V) k' :
  dict_get K_dec k' (defaultdict_update K_dec k def f d)
  = if K_dec k' k
    then Some (f (match dict_get K_dec k d with
                  | Some v => v
                  | None => def
                  end))
    else dict_get K_dec k' d.
Proof.
  unfold defaultdict_update. destruct (dict_mem K_dec k d) eqn:E.
  - rewrite dict_get_update. destruct (K_dec k' k); auto.
    apply (dict_mem_In K_dec k d) in E.
    destruct (dict_get K_dec k d) eqn:G; auto.
    apply (dict_get_None K_dec k d) in G. contradiction.
  - apply (dict_mem_false K_dec k d) in E. rewrite dict_get_app.
    destruct (K_dec k' k) as [->|Hne].
    + apply (proj2 (dict_get_None K_dec k d)) in E. rewrite E. simpl.
      destruct (K_dec k k); congruence.
    + destruct (dict_get K_dec k' d); auto. simpl.
      destruct (K_dec k' k); congruence.
Qed.
End DefaultDictFacts.

(* ===================================================================== *)
(** ** The collaboration timeline                                         *)
(* ===================================================================== *)

Section TimelineFacts.

Lemma len_app (A : Type) (l1 l2 : list A) : len (l1 ++ l2) = len l1 + len l2.
Proof. unfold len. rewrite length_app. lia. Qed.

Lemma len_nonneg (A : Type) (l : list A) : 0 <= len l.
Proof. unfold len. lia. Qed.

Lemma in_year_app y l1 l2 : in_year y (l1 ++ l2) = in_year y l1 ++ in_year y l2.
Proof. apply filter_app. Qed.

Lemma in_year_year y docs d :
  In d (in_year y docs) -> publication_year d = Some y.
Proof.
  unfold in_year. rewrite filter_In. intros [_ H].
  destruct (publication_year d) as [z|]; [|discriminate].
  apply Z.eqb_eq in H. congruence.
Qed.

Lemma year_data_of_new : year_data_of [] new_year_data.
Proof.
  unfold year_data_of. simpl. repeat split; auto; try constructor;
    intros; contradiction.
Qed.

(** The loop body adds one document to the data of its year. *)
Lemma record_paper_spec docs d data :
  year_data_of docs data ->
  year_data_of (docs ++ [d]) (record_paper (doc_authors d) data).
Proof.
  intros (Ht & Hc & Hs & Hna & Ha & Hnp & Hp).
  destruct (set_update_spec string_dec (doc_authors d) (yd_unique_authors data))
    as [A1 A2].
  destruct (set_update_spec string_pair_dec (author_pairs (doc_authors d))
                            (yd_unique_collaborations data)) as [P1 P2].
  assert (Ed : is_collaborative_paper d = (1 <? len (doc_authors d)))
    by reflexivity.
  unfold year_data_of, record_paper.
  rewrite !filter_app, !flat_map_app, !len_app. cbn [filter flat_map].
  destruct (1 <? len (doc_authors d)) eqn:E; rewrite Ed; cbn [negb];
    cbn [yd_total_papers yd_collaborative_papers yd_solo_papers
         yd_unique_authors yd_unique_collaborations];
    rewrite ?app_nil_r, ?flat_map_app; cbn [flat_map]; rewrite ?app_nil_r.
  - change (len [d]) with 1. change (len (@nil Document)) with 0.
    repeat match goal with |- _ /\ _ => split end; auto; try lia.
    + intros a. rewrite A1, in_app_iff, Ha. tauto.
    + intros p. rewrite P1, in_app_iff, Hp. tauto.
  - change (len [d]) with 1. change (len (@nil Document)) with 0.
    repeat match goal with |- _ /\ _ => split end; auto; try lia.
    intros a. rewrite A1, in_app_iff, Ha. tauto.
Qed.

Lemma in_year_snoc y done d :
  in_year y (done ++ [d])
  = if match publication_year d with
       | Some z => z =? y
       | None => false
       end
    then in_year y done ++ [d] else in_year y done.
Proof.
  rewrite in_year_app. unfold in_year at 2. simpl.
  destruct (match publication_year d with
            | Some z => z =? y
            | None => false
            end); [reflexivity|apply app_nil_r].
Qed.

(** One round of the loop keeps the state of the [defaultdict]. *)
Lemma timeline_step_inv done tl d :
  timeline_inv done tl -> timeline_inv (done ++ [d]) (timeline_step tl d).
Proof.
  intros (Hnd & Hk & Hd). unfold timeline_step.
  destruct (publication_year d) as [year|] eqn:Ey.
  - split; [|split].
    + now apply defaultdict_update_NoDup.
    + intros y. rewrite defaultdict_update_keys, Hk, in_year_snoc, Ey.
      destruct (Z.eqb_spec year y) as [->|Hne].
      * split; [intros _|auto]. intros E. now apply app_eq_nil in E as [_ ?].
      * split; [intros [?|?]|]; auto; congruence.
    + intros y data. rewrite defaultdict_update_get, in_year_snoc, Ey.
      destruct (Z.eq_dec y year) as [->|Hne].
      * rewrite Z.eqb_refl. intros H. injection H as <-.
        apply record_paper_spec.
        destruct (dict_get Z.eq_dec year tl) as [data0|] eqn:G.
        -- now apply Hd.
        -- apply dict_get_None in G.
           assert (E : in_year year done = []).
           { destruct (in_year year done) eqn:E'; auto.
             exfalso. apply G, Hk. rewrite E'. discriminate. }
           rewrite E. apply year_data_of_new.
      * destruct (Z.eqb_spec year y); [congruence|]. apply Hd.
  - split; [|split]; auto.
    + intros y. rewrite in_year_snoc, Ey. apply Hk.
    + intros y data. rewrite in_year_snoc, Ey. apply Hd.
Qed.

Lemma fold_timeline_step_inv rest : forall done tl,
  timeline_inv done tl ->
  timeline_inv (done ++ rest) (fold_left timeline_step rest tl).
Proof.
  induction rest as [|d rest IH]; intros done tl H; simpl.
  - now rewrite app_nil_r.
  - replace (done ++ d :: rest) with ((done ++ [d]) ++ rest)
      by (rewrite <- app_assoc; reflexivity).
    apply IH. now apply timeline_step_inv.
Qed.

Lemma in_year_dated y s :
  in_year y (dated_documents s) = in_year y (documents s).
Proof.
  unfold in_year, dated_documents.
  induction (documents s) as [|d docs IH]; simpl; auto.
  destruct (publication_year d) as [z|] eqn:E; simpl; rewrite ?E; auto.
  destruct (z =? y); congruence.
Qed.

Lemma timeline_inv_final s :
  timeline_inv (dated_documents s)
               (fold_left timeline_step (dated_documents s) []).
Proof.
  apply (fold_timeline_step_inv (dated_documents s) (done := []) (tl := [])).
  split; [constructor|split].
  - intros y. simpl. tauto.
  - intros y data H. discriminate.
Qed.

Lemma dict_get_map (K V W : Type) (K_dec : forall a b : K, {a = b} + {a <> b})
      (g : V -> W) k (d : dict K V) :
  dict_get K_dec k (map (fun kv : K * V => (fst kv, g (snd kv))) d)
  = option_map g (dict_get K_dec k d).
Proof.
  induction d as [|[k0 v] d IH]; simpl; auto.
  destruct (K_dec k k0); auto.
Qed.

Lemma keys_map (K V W : Type) (g : V -> W) (d : dict K V) :
  keys (map (fun kv : K * V => (fst kv, g (snd kv))) d) = keys d.
Proof. unfold keys. rewrite map_map. reflexivity. Qed.

Lemma dict_get_NoDup (K V : Type) (K_dec : forall a b : K, {a = b} + {a <> b})
      k v (d : dict K V) :
  NoDup (keys d) -> In (k, v) d -> dict_get K_dec k d = Some v.
Proof.
  induction d as [|[k0 v0] d IH]; simpl; [tauto|].
  intros Hnd [Heq|Hin]; inversion Hnd; subst.
  - inversion Heq; subst. destruct (K_dec k k); congruence.
  - destruct (K_dec k k0) as [->|]; auto.
    exfalso. apply H1. change k0 with (fst (k0, v)). now apply in_map.
Qed.

Lemma same_elements_length (A : Type) (A_dec : forall a b : A, {a = b} + {a <> b})
      (l l' : list A) :
  NoDup l -> (forall x, In x l <-> In x l') ->
  len l = len (nodup A_dec l').
Proof.
  intros Hnd H. unfold len. f_equal. apply Permutation_length.
  apply NoDup_Permutation; auto using NoDup_nodup.
  intros x. now rewrite nodup_In.
Qed.

Lemma timeline_entry_year_data docs data :
  year_data_of docs data -> timeline_entry data = timeline_entry_of docs.
Proof.
  intros (Ht & Hc & Hs & Hna & Ha & Hnp & Hp).
  unfold timeline_entry, timeline_entry_of.
  rewrite Ht, Hc, Hs.
  rewrite (@same_elements_length _ string_dec _ _ Hna Ha).
  rewrite (@same_elements_length _ string_pair_dec _ _ Hnp Hp).
  reflexivity.
Qed.

Lemma filter_partition_length (A : Type) (f : A -> bool) (l : list A) :
  len (filter f l) + len (filter (fun x => negb (f x)) l) = len l.
Proof.
  assert (H : (length (filter f l)
               + length (filter (fun x => negb (f x)) l) = length l)%nat).
  { induction l as [|a l IH]; simpl; auto. destruct (f a); simpl; lia. }
  unfold len. lia.
Qed.
End TimelineFacts.

(** X1.  The timeline has an entry for a year exactly when a document
    was published in that year, and the entry counts the papers of the
    year, those with two authors or more, those with fewer, the distinct
    author names and the distinct pairs of co-authors. *)
Theorem collaboration_timeline_entries (s : Snapshot) (year : Z) :
  dict_get Z.eq_dec year (timeline (get_collaboration_timeline s))
  = match in_year year (documents s) with
    | [] => None
    | _ :: _ => Some (timeline_entry_of (in_year year (documents s)))
    end.
Proof.
  destruct (timeline_inv_final s) as (Hnd & Hk & Hd).
  unfold get_collaboration_timeline. cbn [timeline].
  rewrite dict_get_map.
  destruct (dict_get Z.eq_dec year
              (fold_left timeline_step (dated_documents s) [])) as [data|] eqn:G.
  - assert (Hin : In year (keys (fold_left timeline_step (dated_documents s) []))).
    { destruct (in_dec Z.eq_dec year
                 (keys (fold_left timeline_step (dated_documents s) [])));
        auto.
      apply (dict_get_None Z.eq_dec) in n. congruence. }
    apply Hk in Hin. apply Hd in G. rewrite in_year_dated in Hin, G.
    simpl. rewrite (timeline_entry_year_data G).
    destruct (in_year year (documents s)); [contradiction|reflexivity].
  - apply dict_get_None in G. rewrite Hk, in_year_dated in G.
    destruct (in_year year (documents s)); [reflexivity|].
    exfalso. apply G. discriminate.
Qed.

Section TimelineTotals.

Lemma timeline_keys s :
  keys (timeline (get_collaboration_timeline s))
  = keys (fold_left timeline_step (dated_documents s) []).
Proof. unfold get_collaboration_timeline. cbn [timeline]. apply keys_map. Qed.

Lemma record_paper_total authors data :
  yd_total_papers (record_paper authors data) = yd_total_papers data + 1.
Proof. unfold record_paper. destruct (1 <? len authors); reflexivity. Qed.

Lemma sum_totals_app tl1 tl2 :
  sum_totals (tl1 ++ tl2) = sum_totals tl1 + sum_totals tl2.
Proof.
  unfold sum_totals. induction tl1 as [|e tl1 IH]; simpl; auto. lia.
Qed.

Lemma sum_totals_update year authors tl :
  In year (keys tl) ->
  sum_totals (dict_update Z.eq_dec year (record_paper authors) tl)
  = sum_totals tl + 1.
Proof.
  unfold sum_totals. induction tl as [|[y data] tl IH]; simpl; [tauto|].
  destruct (Z.eq_dec year y) as [->|Hne]; simpl.
  - intros _. rewrite record_paper_total. lia.
  - intros [?|Hin]; [congruence|]. rewrite IH by auto. lia.
Qed.

Lemma sum_totals_step tl d :
  sum_totals (timeline_step tl d)
  = sum_totals tl + match publication_year d with Some _ => 1 | None => 0 end.
Proof.
  unfold timeline_step. destruct (publication_year d) as [year|]; [|lia].
  unfold defaultdict_update. destruct (dict_mem Z.eq_dec year tl) eqn:E.
  - apply sum_totals_update. now apply dict_mem_In in E.
  - rewrite sum_totals_app. unfold sum_totals at 2. simpl.
    rewrite record_paper_total. simpl. lia.
Qed.

Lemma sum_totals_fold docs : forall tl,
  sum_totals (fold_left timeline_step docs tl)
  = sum_totals tl
    + len (filter (fun doc => match publication_year doc with
                              | Some _ => true
                              | None => false
                              end) docs).
Proof.
  induction docs as [|d docs IH]; intros tl; simpl.
  - unfold len. simpl. lia.
  - rewrite IH, sum_totals_step.
    destruct (publication_year d); unfold len; simpl length; lia.
Qed.

Lemma filter_idem (A : Type) (f : A -> bool) (l : list A) :
  filter f (filter f l) = filter f l.
Proof.
  induction l as [|a l IH]; simpl; auto.
  destruct (f a) eqn:E; simpl; rewrite ?E; congruence.
Qed.

Lemma fold_min_max_spec ys : forall y,
  let lo := fold_left Z.min ys y in
  let hi := fold_left Z.max ys y in
  In lo (y :: ys) /\ In hi (y :: ys)
  /\ forall z, In z (y :: ys) -> lo <= z <= hi.
Proof.
  induction ys as [|a ys IH]; intros y; simpl.
  - repeat split; auto; destruct H as [<-|[]]; lia.
  - destruct (IH (Z.min y a)) as (L1 & _ & L3).
    destruct (IH (Z.max y a)) as (_ & H2 & H3).
    simpl in *. repeat split.
    + destruct L1 as [E|E]; auto. rewrite <- E.
      destruct (Z.min_spec y a) as [[_ ->]|[_ ->]]; auto.
    + destruct H2 as [E|E]; auto. rewrite <- E.
      destruct (Z.max_spec y a) as [[_ ->]|[_ ->]]; auto.
    + destruct H as [<-|[<-|Hz]].
      * specialize (L3 (Z.min y a) (or_introl eq_refl)). lia.
      * specialize (L3 (Z.min y a) (or_introl eq_refl)). lia.
      * apply L3. auto.
    + destruct H as [<-|[<-|Hz]].
      * specialize (H3 (Z.max y a) (or_introl eq_refl)). lia.
      * specialize (H3 (Z.max y a) (or_introl eq_refl)). lia.
      * apply H3. auto.
Qed.
End TimelineTotals.

(** X2.  In every entry of the timeline the papers of the year are split
    into collaborative and solo papers, there is at least one paper, and
    the collaboration rate is the share of collaborative papers, between
    0 and 1. *)
Theorem timeline_entry_balance (s : Snapshot) (year : Z) (e : TimelineEntry) :
  In (year, e) (timeline (get_collaboration_timeline s)) ->
  te_total_papers e = te_collaborative_papers e + te_solo_papers e
  /\ 1 <= te_total_papers e
  /\ 0 <= te_collaborative_papers e
  /\ 0 <= te_solo_papers e
  /\ te_collaboration_rate e
     = Qmake (te_collaborative_papers e) (Z.to_pos (te_total_papers e))
  /\ (0 <= te_collaboration_rate e)%Q
  /\ (te_collaboration_rate e <= 1)%Q.
Proof.
  intros Hin.
  assert (Hnd : NoDup (keys (timeline (get_collaboration_timeline s)))).
  { rewrite timeline_keys. apply (timeline_inv_final s). }
  pose proof (dict_get_NoDup Z.eq_dec _ _ _ Hnd Hin) as G.
  rewrite collaboration_timeline_entries in G.
  destruct (in_year year (documents s)) as [|d rest] eqn:E; [discriminate|].
  injection G as Ge. clear Hin Hnd. subst e.
  set (docs := d :: rest).
  assert (Hpos : 1 <= len docs) by (unfold docs, len; simpl length; lia).
  pose proof (filter_partition_length is_collaborative_paper docs) as Hp.
  pose proof (len_nonneg (filter is_collaborative_paper docs)) as Hc.
  pose proof (len_nonneg
                (filter (fun d => negb (is_collaborative_paper d)) docs)) as Hs.
  unfold timeline_entry_of. cbn [te_total_papers te_collaborative_papers
    te_solo_papers te_collaboration_rate].
  assert (Hr : ratio_or_zero (len (filter is_collaborative_paper docs)) (len docs)
               = Qmake (len (filter is_collaborative_paper docs))
                       (Z.to_pos (len docs))).
  { unfold ratio_or_zero. destruct (Z.ltb_spec 0 (len docs)); [reflexivity|lia]. }
  rewrite Hr. repeat split; try lia.
  - unfold Qle. cbn [Qnum Qden]. lia.
  - unfold Qle. cbn [Qnum Qden]. rewrite Z2Pos.id by lia. lia.
Qed.

Lemma timeline_entry_balance_witness :
  te_total_papers (timeline_entry_of (in_year 2021 (documents corpus_two_groups)))
  = te_collaborative_papers
      (timeline_entry_of (in_year 2021 (documents corpus_two_groups)))
    + te_solo_papers
        (timeline_entry_of (in_year 2021 (documents corpus_two_groups)))
  /\ 1 <= te_total_papers
            (timeline_entry_of (in_year 2021 (documents corpus_two_groups)))
  /\ 0 <= te_collaborative_papers
            (timeline_entry_of (in_year 2021 (documents corpus_two_groups)))
  /\ 0 <= te_solo_papers
            (timeline_entry_of (in_year 2021 (documents corpus_two_groups)))
  /\ te_collaboration_rate
       (timeline_entry_of (in_year 2021 (documents corpus_two_groups)))
     = Qmake (te_collaborative_papers
                (timeline_entry_of (in_year 2021 (documents corpus_two_groups))))
             (Z.to_pos (te_total_papers
                (timeline_entry_of (in_year 2021 (documents corpus_two_groups)))))
  /\ (0 <= te_collaboration_rate
             (timeline_entry_of (in_year 2021 (documents corpus_two_groups))))%Q
  /\ (te_collaboration_rate
        (timeline_entry_of (in_year 2021 (documents corpus_two_groups))) <= 1)%Q.
Proof.
  apply (@timeline_entry_balance corpus_two_groups 2021).
  vm_compute. right. left. reflexivity.
Defined.

(** X3.  The years of the timeline are distinct and are exactly the
    years in which a document was published; [total_years] counts them,
    and the papers of all entries add up to the number of documents that
    have a year. *)
Theorem timeline_years (s : Snapshot) :
  NoDup (keys (timeline (get_collaboration_timeline s)))
  /\ (forall y, In y (keys (timeline (get_collaboration_timeline s)))
                <-> exists d, In d (documents s) /\ publication_year d = Some y)
  /\ total_years (get_collaboration_timeline s)
     = len (keys (timeline (get_collaboration_timeline s)))
  /\ papers_in_timeline (timeline (get_collaboration_timeline s))
     = len (dated_documents s).
Proof.
  destruct (timeline_inv_final s) as (Hnd & Hk & _).
  rewrite timeline_keys. repeat split; auto.
  - intros H. apply Hk in H. rewrite in_year_dated in H.
    destruct (in_year y (documents s)) as [|d l] eqn:E; [contradiction|].
    exists d. assert (Hd : In d (in_year y (documents s)))
      by (rewrite E; now left).
    split; [|eapply in_year_year; eauto].
    unfold in_year in Hd. now apply filter_In in Hd.
  - intros (d & Hd & Hy). apply Hk. rewrite in_year_dated.
    assert (In d (in_year y (documents s))).
    { unfold in_year. apply filter_In. split; auto.
      rewrite Hy. apply Z.eqb_refl. }
    intros E. rewrite E in H. contradiction.
  - unfold get_collaboration_timeline. cbn [total_years timeline].
    unfold len, keys. now rewrite !length_map.
  - unfold get_collaboration_timeline, papers_in_timeline. cbn [timeline].
    rewrite map_map. cbn [snd te_total_papers timeline_entry].
    change (fold_right Z.add 0
              (map (fun x : Z * YearData => yd_total_papers (snd x))
                   (fold_left timeline_step (dated_documents s) [])))
      with (sum_totals (fold_left timeline_step (dated_documents s) [])).
    rewrite sum_totals_fold. unfold dated_documents.
    rewrite filter_idem. reflexivity.
Qed.

(** X4.  [year_range] is (None, None) exactly when no document has a
    year; otherwise it holds the least and the greatest year of the
    timeline. *)
Theorem timeline_year_range (s : Snapshot) :
  match year_range (get_collaboration_timeline s) with
  | (None, None) =>
      dated_documents s = [] /\ timeline (get_collaboration_timeline s) = []
  | (Some lo, Some hi) =>
      dated_documents s <> []
      /\ In lo (keys (timeline (get_collaboration_timeline s)))
      /\ In hi (keys (timeline (get_collaboration_timeline s)))
      /\ forall y, In y (keys (timeline (get_collaboration_timeline s))) ->
                   lo <= y <= hi
  | _ => False
  end.
Proof.
  destruct (timeline_inv_final s) as (_ & Hk & _).
  pose proof (timeline_keys s) as Ek.
  unfold get_collaboration_timeline in *. cbn [year_range timeline] in *.
  set (tl := fold_left timeline_step (dated_documents s) []) in *.
  set (final := map (fun yd : Z * YearData =>
                       (fst yd, timeline_entry (snd yd))) tl) in *.
  unfold year_range_of. destruct (keys final) as [|y ys] eqn:E.
  - split.
    + destruct (dated_documents s) as [|d l] eqn:Ed; auto. exfalso.
      assert (Hd : In d (dated_documents s)) by (rewrite Ed; now left).
      unfold dated_documents in Hd. apply filter_In in Hd as [_ Hy].
      destruct (publication_year d) as [z|] eqn:Ez; [|discriminate].
      assert (In z (keys tl)).
      { apply Hk. rewrite ?Ed. unfold in_year. simpl. rewrite Ez, Z.eqb_refl.
        discriminate. }
      rewrite <- Ek in H. contradiction.
    + destruct final; [reflexivity|discriminate].
  - destruct (fold_min_max_spec ys y) as (L & H & B).
    repeat split; auto; try apply B; auto.
    intros Ed. assert (In y (keys tl)) by (rewrite <- Ek; now left).
    apply Hk in H0. rewrite Ed in H0. now apply H0.
Qed.

(* ===================================================================== *)
(** ** The collaboration counts of the document store                     *)
(* ===================================================================== *)

Section StoreCollaborations.

Lemma ltb_asym a b : String.ltb a b = true -> String.ltb b a = false.
Proof.
  unfold String.ltb. rewrite (String.compare_antisym a b).
  destruct (String.compare b a); simpl; congruence.
Qed.

Lemma ltb_total a b :
  String.ltb a b = false -> String.ltb b a = false -> a = b.
Proof.
  unfold String.ltb. rewrite (String.compare_antisym a b).
  destruct (String.compare b a) eqn:E; simpl; try congruence.
  intros _ _. symmetry. now apply String.compare_eq_iff.
Qed.

Lemma sorted_pair_swap a b : sorted_pair a b = sorted_pair b a.
Proof.
  unfold sorted_pair.
  destruct (String.ltb b a) eqn:E1, (String.ltb a b) eqn:E2; auto.
  - apply (@ltb_asym b a) in E1. congruence.
  - rewrite (@ltb_total a b E2 E1). reflexivity.
Qed.

Lemma sorted_pair_cases a b :
  sorted_pair a b = (a, b) \/ sorted_pair a b = (b, a).
Proof. unfold sorted_pair. destruct (String.ltb b a); auto. Qed.

(** Two pairs of names get the same key exactly when they are the same
    unordered pair. *)
Lemma sorted_pair_eq_iff a b x y :
  sorted_pair a b = sorted_pair x y <-> same_pair x y a b = true.
Proof.
  rewrite same_pair_spec. split.
  - intros H.
    destruct (sorted_pair_cases a b) as [E1|E1],
             (sorted_pair_cases x y) as [E2|E2];
      rewrite E1, E2 in H; inversion H; subst; auto.
  - intros [[-> ->]|[-> ->]]; [reflexivity|apply sorted_pair_swap].
Qed.

Lemma dict_get_set (K V : Type) (K_dec : forall a b : K, {a = b} + {a <> b})
      k v (d : dict K V) k' :
  dict_get K_dec k' (dict_set K_dec k v d)
  = if K_dec k' k then Some v else dict_get K_dec k' d.
Proof.
  unfold dict_set. destruct (dict_mem K_dec k d) eqn:E.
  - rewrite dict_get_update. destruct (K_dec k' k); auto.
    apply (dict_mem_In K_dec k d) in E.
    destruct (dict_get K_dec k d) eqn:G; auto.
    apply (dict_get_None K_dec k d) in G. contradiction.
  - apply (dict_mem_false K_dec k d) in E. rewrite dict_get_app.
    destruct (K_dec k' k) as [->|Hne].
    + apply (proj2 (dict_get_None K_dec k d)) in E. rewrite E. simpl.
      destruct (K_dec k k); congruence.
    + destruct (dict_get K_dec k' d); auto. simpl.
      destruct (K_dec k' k); congruence.
Qed.

Lemma count_pair_spec d key :
  counts_positive d ->
  counts_positive (count_pair d key)
  /\ (NoDup (keys d) -> NoDup (keys (count_pair d key)))
  /\ (forall x, In x (keys (count_pair d key)) <-> x = key \/ In x (keys d))
  /\ forall k, count_of (count_pair d key) k
               = count_of d k + occurrences k [key].
Proof.
  intros Hp. unfold count_pair. repeat split.
  - intros k c. rewrite dict_get_set.
    destruct (string_pair_dec k key) as [->|Hne].
    + intros H. injection H as <-.
      destruct (dict_get string_pair_dec key d) as [c0|] eqn:G; [|lia].
      specialize (Hp _ _ G). lia.
    + apply Hp.
  - apply NoDup_keys_dict_set.
  - apply In_keys_dict_set.
  - apply In_keys_dict_set.
  - intros k. unfold count_of, occurrences. rewrite dict_get_set.
    unfold len. simpl.
    destruct (string_pair_dec k key) as [->|Hne].
    + destruct (string_pair_dec key key); [|congruence]. simpl.
      destruct (dict_get string_pair_dec key d); lia.
    + destruct (string_pair_dec key k); [congruence|]. simpl.
      destruct (dict_get string_pair_dec k d); lia.
Qed.

Lemma occurrences_app k l1 l2 :
  occurrences k (l1 ++ l2) = occurrences k l1 + occurrences k l2.
Proof. unfold occurrences. now rewrite filter_app, len_app. Qed.

Lemma fold_count_pair_spec ks : forall d,
  counts_positive d ->
  let d' := fold_left count_pair ks d in
  counts_positive d'
  /\ (NoDup (keys d) -> NoDup (keys d'))
  /\ (forall x, In x (keys d') <-> In x ks \/ In x (keys d))
  /\ forall k, count_of d' k = count_of d k + occurrences k ks.
Proof.
  induction ks as [|key ks IH]; intros d Hp; simpl.
  - repeat split; auto; try tauto. intros k. unfold occurrences, len. simpl. lia.
  - destruct (count_pair_spec key Hp) as (P1 & N1 & K1 & C1).
    destruct (IH _ P1) as (P & N & K & C).
    repeat split; auto.
    + intros H. apply K in H. rewrite K1 in H. intuition.
    + intros H. apply K. rewrite K1. intuition.
    + intros k. rewrite C, C1.
      change (key :: ks) with ([key] ++ ks). rewrite occurrences_app. lia.
Qed.

Lemma occurrences_first_author x y a rest :
  occurrences (sorted_pair x y) (map (sorted_pair a) rest)
  = len (filter (same_pair x y a) rest).
Proof.
  unfold occurrences, len. f_equal.
  induction rest as [|b rest IH]; simpl; auto.
  destruct (string_pair_dec (sorted_pair a b) (sorted_pair x y)) as [E|NE].
  - apply sorted_pair_eq_iff in E. rewrite E. simpl. now rewrite IH.
  - destruct (same_pair x y a b) eqn:S; [|exact IH].
    apply sorted_pair_eq_iff in S. contradiction.
Qed.

(** A key of the store occurs among the keys of a document as often as
    the pair occurs among the positions of its authors. *)
Lemma occurrences_author_pairs x y authors :
  occurrences (sorted_pair x y) (author_pairs authors)
  = pair_occurrences x y authors.
Proof.
  induction authors as [|a rest IH]; simpl; auto.
  now rewrite occurrences_app, IH, occurrences_first_author.
Qed.

Lemma author_pairs_sorted authors k :
  In k (author_pairs authors) -> k = sorted_pair (fst k) (snd k).
Proof.
  induction authors as [|a rest IH]; simpl; [tauto|].
  rewrite in_app_iff, in_map_iff. intros [(b & <- & _)|H]; auto.
  destruct (sorted_pair_cases a b) as [E|E]; rewrite E; simpl.
  - now rewrite E.
  - now rewrite sorted_pair_swap, E.
Qed.

Lemma count_collaborations_spec docs : forall d,
  counts_positive d ->
  let d' := fold_left (fun collaborations doc =>
                         fold_left count_pair (author_pairs (doc_authors doc))
                                   collaborations) docs d in
  counts_positive d'
  /\ (NoDup (keys d) -> NoDup (keys d'))
  /\ (forall x, In x (keys d') ->
                In x (keys d)
                \/ exists doc, In doc docs
                               /\ In x (author_pairs (doc_authors doc)))
  /\ forall x y, count_of d' (sorted_pair x y)
                 = count_of d (sorted_pair x y)
                   + fold_right Z.add 0
                       (map (fun doc => pair_occurrences x y (doc_authors doc))
                            docs).
Proof.
  induction docs as [|doc docs IH]; intros d Hp; simpl.
  - repeat split; auto. intros. lia.
  - destruct (fold_count_pair_spec (author_pairs (doc_authors doc)) Hp)
      as (P1 & N1 & K1 & C1).
    destruct (IH _ P1) as (P & N & K & C).
    repeat split; auto.
    + intros x Hx. destruct (K x Hx) as [H|(doc' & Hd & Hin)].
      * apply K1 in H as [H|H]; eauto.
      * eauto.
    + intros x y. rewrite C, C1, occurrences_author_pairs. lia.
Qed.
End StoreCollaborations.

(** X5.  Without an author to focus on, the document store counts for
    every pair of names exactly the weight that the analyzer gives to the
    collaboration edge of the pair, and has no entry when there is no
    such edge; every key is a sorted pair and occurs once. *)
Theorem store_counts_agree_with_edge_weights
        (author_documents : string -> option (list Document))
        (s : Snapshot) (x y : string) :
  dict_get string_pair_dec (sorted_pair x y)
           (get_coauthorship_network author_documents s None)
  = (if weight_of (build_coauthorship_network s) x y =? 0 then None
     else Some (weight_of (build_coauthorship_network s) x y))
  /\ NoDup (keys (get_coauthorship_network author_documents s None))
  /\ forall k, In k (keys (get_coauthorship_network author_documents s None)) ->
               k = sorted_pair (fst k) (snd k).
Proof.
  destruct (build_coauthorship_network_spec s) as (_ & _ & W).
  rewrite W. unfold total_pair_occurrences.
  unfold get_coauthorship_network, nonempty_name, count_collaborations.
  destruct (@count_collaborations_spec (documents s) []) as (P & N & K & C).
  { intros k c H. discriminate. }
  repeat split.
  - specialize (C x y). unfold count_of in C. simpl in C.
    destruct (dict_get string_pair_dec (sorted_pair x y) _) as [c|] eqn:G.
    + specialize (P _ _ G). rewrite <- C.
      destruct (Z.eqb_spec c 0); [lia|reflexivity].
    + rewrite <- C. reflexivity.
  - apply N. constructor.
  - intros k Hk. destruct (K k Hk) as [[]|(doc & _ & Hin)].
    eapply author_pairs_sorted; eauto.
Qed.

(* ===================================================================== *)
(** ** The edge view and the strongest collaborations                     *)
(* ===================================================================== *)

Section EdgeView.

Lemma adjacency_In (G : Graph) (n w : string) (d : EdgeData) :
  In (w, d) (GraphOps.adjacency G n) <->
  In ((n, w), d) (g_edge G) \/ (w <> n /\ In ((w, n), d) (g_edge G)).
Proof.
  unfold GraphOps.adjacency. rewrite in_flat_map. split.
  - intros [[[u v] d'] [Hin Hd]].
    destruct (string_dec u n) as [->|Hu].
    + destruct Hd as [Hd|[]]. inversion Hd; subst. now left.
    + destruct (string_dec v n) as [->|Hv]; [|destruct Hd].
      destruct Hd as [Hd|[]]. inversion Hd; subst. right. now split.
  - intros [Hin|[Hne Hin]].
    + exists ((n, w), d). split; [exact Hin|].
      destruct (string_dec n n); [now left|congruence].
    + exists ((w, n), d). split; [exact Hin|].
      destruct (string_dec w n); [congruence|].
      destruct (string_dec n n); [now left|congruence].
Qed.

Lemma inb_snoc (x n : string) (seen : list string) :
  inb x (seen ++ [n]) = inb x seen || String.eqb x n.
Proof.
  destruct (inb x seen) eqn:Hs; destruct (String.eqb x n) eqn:Hx; simpl.
  - apply inb_true, in_or_app. left. now apply inb_true.
  - apply inb_true, in_or_app. left. now apply inb_true.
  - apply inb_true, in_or_app. right. apply String.eqb_eq in Hx. now left.
  - apply inb_false. intros Hin. apply in_app_or in Hin.
    destruct Hin as [Hin|[Heq|[]]].
    + apply inb_false in Hs. tauto.
    + subst. now rewrite String.eqb_refl in Hx.
Qed.

(** Listing the neighbours of a fresh node [n] takes exactly the free
    edges that touch [n]. *)
Lemma free_edges_step (G : Graph) (n : string) (seen : list string) :
  ~ In n seen ->
  (length (filter (fun nd : string * EdgeData => negb (inb (fst nd) seen))
                  (GraphOps.adjacency G n))
   + length (free_edges G (seen ++ [n])))%nat
  = length (free_edges G seen).
Proof.
  intros Hn. apply inb_false in Hn.
  destruct G as [N E]. unfold free_edges, GraphOps.adjacency.
  cbn [g_edge]. induction E as [|[[u v] d] E IH]; [reflexivity|].
  cbn [flat_map filter fst snd]. rewrite filter_app, length_app.
  rewrite !inb_snoc.
  destruct (string_dec u n) as [->|Hu].
  - rewrite String.eqb_refl, Hn. cbn [filter fst].
    destruct (inb v seen); cbn [negb andb orb length filter];
      rewrite <- IH; lia.
  - destruct (string_dec v n) as [->|Hv].
    + rewrite String.eqb_refl, Hn. cbn [filter fst].
      destruct (inb u seen); cbn [negb andb orb length filter];
        rewrite ?Bool.orb_true_r, ?Bool.andb_false_r;
        cbn [negb andb orb length filter]; rewrite <- IH; lia.
    + apply String.eqb_neq in Hu, Hv. rewrite Hu, Hv, !Bool.orb_false_r.
      cbn [filter length].
      destruct (negb (inb u seen) && negb (inb v seen));
        cbn [length]; rewrite <- IH; lia.
Qed.

(** The view lists as many entries as there are stored edges with no
    endpoint seen so far. *)
Lemma edges_from_length (G : Graph) (todo : list string) :
  forall seen,
    NoDup (seen ++ todo) ->
    (forall u v, In (u, v) (keys (g_edge G)) ->
                 In u (seen ++ todo) /\ In v (seen ++ todo)) ->
    length (edges_from G todo seen) = length (free_edges G seen).
Proof.
  induction todo as [|n todo IH]; intros seen Hnd Hin.
  - cbn [edges_from length]. unfold free_edges. rewrite filter_none; auto.
    intros [[u v] d] Hz. cbn [fst snd].
    destruct (Hin u v) as [Hu _].
    { apply in_map_iff. now exists ((u, v), d). }
    rewrite app_nil_r in Hu. apply inb_true in Hu. now rewrite Hu.
  - cbn [edges_from]. rewrite length_app, length_map.
    rewrite IH.
    + apply free_edges_step. apply NoDup_remove_2 in Hnd.
      intros Hs. apply Hnd, in_or_app. now left.
    + now rewrite <- app_assoc.
    + intros u v Huv. rewrite <- app_assoc. now apply Hin.
Qed.

Lemma free_edges_nil (G : Graph) : free_edges G [] = g_edge G.
Proof.
  unfold free_edges. induction (g_edge G) as [|e E IH]; [reflexivity|].
  cbn [filter]. unfold inb at 1 2. cbn [in_dec negb andb].
  now rewrite IH.
Qed.

Lemma edges_data_length (G : Graph) :
  well_formed G -> len (edges_data G) = GraphOps.number_of_edges G.
Proof.
  intros [Hnd Hin]. unfold edges_data, len, GraphOps.number_of_edges, len.
  f_equal. rewrite edges_from_length.
  - now rewrite free_edges_nil.
  - exact Hnd.
  - exact Hin.
Qed.

(** Every entry of the view is a stored edge, in one of its two
    orientations. *)
Lemma edges_from_sound (G : Graph) (todo : list string) :
  forall seen x y d,
    In (x, y, d) (edges_from G todo seen) ->
    In ((x, y), d) (g_edge G) \/ In ((y, x), d) (g_edge G).
Proof.
  induction todo as [|n todo IH]; intros seen x y d; cbn [edges_from].
  - intros [].
  - intros Hin. apply in_app_or in Hin. destruct Hin as [Hin|Hin].
    + apply in_map_iff in Hin. destruct Hin as [[w d'] [Heq Hin]].
      cbn [fst snd] in Heq. inversion Heq; subst.
      apply filter_In in Hin. destruct Hin as [Hin _].
      apply adjacency_In in Hin. tauto.
    + eapply IH; eauto.
Qed.

(** Every stored edge between nodes still to come is listed, in one of
    its two orientations. *)
Lemma edges_from_complete (G : Graph) (todo : list string) :
  forall seen a b d,
    In ((a, b), d) (g_edge G) ->
    In a todo -> In b todo -> ~ In a seen -> ~ In b seen ->
    In (a, b, d) (edges_from G todo seen)
    \/ In (b, a, d) (edges_from G todo seen).
Proof.
  induction todo as [|n todo IH]; intros seen a b d He Ha Hb Hsa Hsb;
    [destruct Ha|].
  cbn [edges_from].
  destruct (string_dec a n) as [->|Han].
  - left. apply in_or_app. left. apply in_map_iff.
    exists (b, d). split; [reflexivity|]. apply filter_In. split.
    + apply adjacency_In. now left.
    + cbn [fst]. apply inb_false in Hsb. now rewrite Hsb.
  - destruct (string_dec b n) as [->|Hbn].
    + right. apply in_or_app. left. apply in_map_iff.
      exists (a, d). split; [reflexivity|]. apply filter_In. split.
      * apply adjacency_In. right. now split.
      * cbn [fst]. apply inb_false in Hsa. now rewrite Hsa.
    + destruct Ha as [Ha|Ha]; [congruence|].
      destruct Hb as [Hb|Hb]; [congruence|].
      destruct (IH (seen ++ [n]) a b d He Ha Hb) as [H|H].
      * intros Hin. apply in_app_or in Hin.
        destruct Hin as [Hin|[Heq|[]]]; [tauto|congruence].
      * intros Hin. apply in_app_or in Hin.
        destruct Hin as [Hin|[Heq|[]]]; [tauto|congruence].
      * left. apply in_or_app. now right.
      * right. apply in_or_app. now right.
Qed.

Lemma edge_data_In (G : Graph) (x y : string) (d : EdgeData) :
  NoDup (keys (g_edge G)) -> stored_once G ->
  In ((x, y), d) (g_edge G) \/ In ((y, x), d) (g_edge G) ->
  GraphOps.edge_data G x y = Some d.
Proof.
  intros Hnd Hso [Hin|Hin]; unfold GraphOps.edge_data.
  - now rewrite (dict_get_NoDup string_pair_dec _ _ _ Hnd Hin).
  - destruct (dict_get string_pair_dec (x, y) (g_edge G)) as [d'|] eqn:Hget.
    + pose proof (dict_get_In _ _ _ Hget) as Hin'.
      assert (x = y) as ->.
      { apply Hso; apply in_map_iff;
          [now exists ((x, y), d')|now exists ((y, x), d)]. }
      rewrite (dict_get_NoDup string_pair_dec _ _ _ Hnd Hin) in Hget.
      congruence.
    + now apply dict_get_NoDup.
Qed.

Lemma fold_link_NoDup (p : Paper) (a1 : string) (rest : list string) :
  forall G, NoDup (keys (g_edge G)) ->
            NoDup (keys (g_edge (fold_left (link p a1) rest G))).
Proof.
  induction rest as [|a2 rest IH]; intros G H; cbn [fold_left]; auto.
  apply IH. now apply link_NoDup.
Qed.

Lemma link_pairs_NoDup (p : Paper) (authors : list string) :
  forall G, NoDup (keys (g_edge G)) ->
            NoDup (keys (g_edge (link_pairs p authors G))).
Proof.
  induction authors as [|a rest IH]; intros G H; cbn [link_pairs]; auto.
  apply IH. now apply fold_link_NoDup.
Qed.

Lemma add_document_NoDup (G : Graph) (doc : Document) :
  NoDup (keys (g_edge G)) -> NoDup (keys (g_edge (add_document G doc))).
Proof.
  intros H. unfold add_document. apply link_pairs_NoDup.
  now rewrite fold_add_author_paper_edges.
Qed.

Lemma build_coauthorship_network_edges_NoDup (s : Snapshot) :
  NoDup (keys (g_edge (build_coauthorship_network s))).
Proof.
  unfold build_coauthorship_network.
  assert (H : NoDup (keys (g_edge GraphOps.empty))) by constructor.
  revert H. generalize GraphOps.empty.
  induction (documents s) as [|d ds IH]; intros G H; cbn [fold_left]; auto.
  apply IH. now apply add_document_NoDup.
Qed.

Lemma slice_to_len (A : Type) (limit : Z) (l : list A) :
  len (slice_to limit l)
  = if limit <? 0 then Z.max 0 (len l + limit) else Z.min limit (len l).
Proof.
  unfold slice_to, len. destruct (limit <? 0) eqn:Hl.
  - apply Z.ltb_lt in Hl. rewrite length_firstn. lia.
  - apply Z.ltb_ge in Hl. rewrite length_firstn. lia.
Qed.

End EdgeView.

(** X6.  [get_strongest_collaborations]: the answer is in descending order
    of the collaboration count, pairs of equal count keep the order of the
    edge view, and its length is the smaller of [limit] and the number of
    edges (for a negative [limit], the number of edges less [-limit], or
    none).  Every entry is a stored edge of the co-authorship graph with
    the weight and the papers of that edge, and the count is the number
    of times the two names are paired in the author lists. *)
Theorem strongest_collaborations_ranked (s : Snapshot) (limit : Z) :
  let G := build_coauthorship_network s in
  let r := get_strongest_collaborations s limit in
  descending strength r
  /\ (exists n, r = firstn n (sorted_desc strength Z.ltb
                                (map collaboration_of (edges_data G)))
                /\ keeps_order_of_ties strength
                     (map collaboration_of (edges_data G))
                     (sorted_desc strength Z.ltb
                        (map collaboration_of (edges_data G))))
  /\ len r = (if limit <? 0
              then Z.max 0 (GraphOps.number_of_edges G + limit)
              else Z.min limit (GraphOps.number_of_edges G))
  /\ forall c, In c r ->
       let (a, b) := collaboration_authors c in
       GraphOps.has_edge G a b = true
       /\ GraphOps.edge_data G a b
          = Some (mkEdgeData (strength c) (collaboration_papers c))
       /\ strength c = total_pair_occurrences s a b
       /\ 1 <= strength c.
Proof.
  intros G r.
  pose proof (build_coauthorship_network_spec s) as (Hso & Hpos & Hw).
  pose proof (build_coauthorship_network_well_formed s) as Hwf.
  pose proof (build_coauthorship_network_edges_NoDup s) as Hnd.
  fold G in Hso, Hpos, Hw, Hwf, Hnd.
  unfold r, get_strongest_collaborations, strongest_collaborations. fold G.
  destruct (slice_to_firstn limit
              (sorted_desc strength Z.ltb
                 (map collaboration_of (edges_data G)))) as [n [Hn _]].
  repeat split.
  - rewrite Hn. apply descending_firstn, sorted_desc_descending.
  - exists n. split; [exact Hn|apply sorted_desc_ties].
  - rewrite slice_to_len.
    assert (Hlen : len (sorted_desc strength Z.ltb
                          (map collaboration_of (edges_data G)))
                   = GraphOps.number_of_edges G).
    { rewrite <- (edges_data_length Hwf). unfold len.
      now rewrite sorted_desc_length, length_map. }
    now rewrite Hlen.
  - intros c Hc. rewrite Hn in Hc. apply firstn_In in Hc.
    apply (Permutation_in _ (sorted_desc_perm strength _)) in Hc.
    apply in_map_iff in Hc. destruct Hc as [[[a b] d] [Heq Hin]].
    subst c. cbn [collaboration_of collaboration_authors strength
                  collaboration_papers fst snd].
    apply edges_from_sound in Hin.
    assert (Hd : GraphOps.edge_data G a b = Some d)
      by now apply edge_data_In.
    assert (Hwd : weight_of G a b = weight d)
      by (unfold weight_of; now rewrite Hd).
    assert (H1 : 1 <= weight d)
      by (destruct Hin as [Hin|Hin]; eapply Hpos; eauto).
    repeat split.
    + apply has_edge_weight; [exact Hpos|lia].
    + rewrite Hd. now destruct d.
    + now rewrite <- Hw, Hwd.
    + exact H1.
Qed.

(** X7.  When [limit] is at least the number of edges, every collaboration
    of the graph is in the answer of [get_strongest_collaborations], once
    for the pair and under one order of the two names. *)
Theorem strongest_collaborations_complete (s : Snapshot) (limit : Z) :
  let G := build_coauthorship_network s in
  let r := get_strongest_collaborations s limit in
  GraphOps.number_of_edges G <= limit ->
  len r = GraphOps.number_of_edges G
  /\ forall u v, GraphOps.has_edge G u v = true ->
       exists c, In c r
                 /\ (collaboration_authors c = (u, v)
                     \/ collaboration_authors c = (v, u))
                 /\ strength c = weight_of G u v.
Proof.
  intros G r Hlim.
  pose proof (build_coauthorship_network_spec s) as (Hso & Hpos & Hw).
  pose proof (build_coauthorship_network_well_formed s) as Hwf.
  pose proof (build_coauthorship_network_edges_NoDup s) as Hnd.
  fold G in Hso, Hpos, Hw, Hwf, Hnd.
  assert (Hall : r = sorted_desc strength Z.ltb
                       (map collaboration_of (edges_data G))).
  { unfold r, get_strongest_collaborations, strongest_collaborations.
    fold G. unfold slice_to.
    assert (0 <= GraphOps.number_of_edges G)
      by (unfold GraphOps.number_of_edges, len; lia).
    destruct (limit <? 0) eqn:Hl; [apply Z.ltb_lt in Hl; lia|].
    apply firstn_all2. rewrite sorted_desc_length, length_map.
    rewrite <- (edges_data_length Hwf) in Hlim. unfold len in Hlim. lia. }
  split.
  - rewrite Hall. unfold len. rewrite sorted_desc_length, length_map.
    now apply edges_data_length.
  - intros u v Huv.
    assert (Hview : forall a b d, In ((a, b), d) (g_edge G) ->
              In (a, b, d) (edges_data G) \/ In (b, a, d) (edges_data G)).
    { intros a b d Hin. destruct Hwf as [_ Hnodes].
      destruct (Hnodes a b) as [Ha Hb].
      { apply in_map_iff. now exists ((a, b), d). }
      apply edges_from_complete; auto. }
    assert (Hstored : exists a b d, In ((a, b), d) (g_edge G)
              /\ ((a, b) = (u, v) \/ (a, b) = (v, u))).
    { apply has_edge_In in Huv. destruct Huv as [H|H];
        apply in_map_iff in H; destruct H as [[[a b] d] [Heq Hin]];
        cbn [fst] in Heq; inversion Heq; subst; eauto 6. }
    destruct Hstored as (a & b & d & Hin & Hab).
    assert (Hd : GraphOps.edge_data G u v = Some d).
    { apply edge_data_In; auto.
      destruct Hab as [Hab|Hab]; inversion Hab; subst; tauto. }
    assert (Hwd : weight_of G u v = weight d)
      by (unfold weight_of; now rewrite Hd).
    destruct (Hview a b d Hin) as [Hv|Hv].
    + exists (collaboration_of (a, b, d)). split; [|split].
      * rewrite Hall.
        apply (Permutation_in _ (Permutation_sym (sorted_desc_perm strength _))).
        now apply in_map.
      * cbn. destruct Hab as [Hab|Hab]; inversion Hab; subst; tauto.
      * cbn. now rewrite Hwd.
    + exists (collaboration_of (b, a, d)). split; [|split].
      * rewrite Hall.
        apply (Permutation_in _ (Permutation_sym (sorted_desc_perm strength _))).
        now apply in_map.
      * cbn. destruct Hab as [Hab|Hab]; inversion Hab; subst; tauto.
      * cbn. now rewrite Hwd.
Qed.

Lemma strongest_collaborations_complete_witness :
  GraphOps.number_of_edges (build_coauthorship_network corpus_two_groups) <= 10
  /\ len (get_strongest_collaborations corpus_two_groups 10)
     = GraphOps.number_of_edges (build_coauthorship_network corpus_two_groups).
Proof.
  assert (H : GraphOps.number_of_edges
                (build_coauthorship_network corpus_two_groups) <= 10)
    by (vm_compute; discriminate).
  split; [exact H|].
  exact (proj1 (@strongest_collaborations_complete corpus_two_groups 10 H)).
Defined.

(* ===================================================================== *)
(** ** The author nodes of the co-authorship graph                        *)
(* ===================================================================== *)

Section AuthorNodes.

Lemma author_data_of_snoc (ps : list Paper) (p : Paper) :
  option_map (fun a : AuthorData =>
                mkAuthorData (papers a ++ [p]) (total_papers a + 1))
             (author_data_of ps)
  = match ps with [] => None | _ :: _ => author_data_of (ps ++ [p]) end.
Proof.
  destruct ps as [|q ps]; [reflexivity|].
  cbn [author_data_of option_map papers total_papers app]. f_equal. f_equal.
  unfold len. cbn [length]. rewrite length_app. cbn [length]. lia.
Qed.

Lemma add_author_paper_data (p : Paper) (G : Graph) (x : string)
      (L : string -> list Paper) :
  (forall a, dict_get string_dec a (g_node G) = author_data_of (L a)) ->
  forall a, dict_get string_dec a (g_node (add_author_paper p G x))
            = author_data_of (L a ++ if String.eqb a x then [p] else []).
Proof.
  intros HL a. unfold add_author_paper, GraphOps.update_node,
    GraphOps.add_node, GraphOps.has_node. cbn [g_node].
  rewrite dict_get_update.
  destruct (string_dec a x) as [->|Hne].
  - rewrite String.eqb_refl.
    destruct (dict_mem string_dec x (g_node G)) eqn:Hm.
    + rewrite HL, author_data_of_snoc.
      destruct (L x) as [|q ps] eqn:HLx; [|reflexivity].
      apply dict_mem_In in Hm.
      assert (Hn : dict_get string_dec x (g_node G) = None)
        by (rewrite HL, HLx; reflexivity).
      apply dict_get_None in Hn. contradiction.
    + cbn [g_node]. rewrite dict_get_set.
      destruct (string_dec x x) as [_|]; [|congruence].
      assert (HLx : L x = []).
      { apply dict_mem_false in Hm.
        apply (proj2 (dict_get_None string_dec x (g_node G))) in Hm.
        rewrite HL in Hm. destruct (L x); [reflexivity|discriminate]. }
      rewrite HLx. reflexivity.
  - apply String.eqb_neq in Hne as Hne'. rewrite Hne', app_nil_r.
    destruct (dict_mem string_dec x (g_node G)); [apply HL|].
    cbn [g_node]. rewrite dict_get_set.
    destruct (string_dec a x); [congruence|apply HL].
Qed.

Lemma fold_add_author_paper_data (p : Paper) (authors : list string) :
  forall G (L : string -> list Paper),
    (forall a, dict_get string_dec a (g_node G) = author_data_of (L a)) ->
    forall a, dict_get string_dec a
                (g_node (fold_left (add_author_paper p) authors G))
              = author_data_of
                  (L a ++ map (fun _ => p) (filter (String.eqb a) authors)).
Proof.
  induction authors as [|x rest IH]; intros G L HL a; cbn [fold_left].
  - cbn [filter map]. now rewrite app_nil_r.
  - rewrite (IH _ _ (add_author_paper_data p G x L HL)).
    f_equal. rewrite <- app_assoc. f_equal. cbn [filter].
    destruct (String.eqb a x); reflexivity.
Qed.

Lemma add_document_data (G : Graph) (doc : Document)
      (L : string -> list Paper) :
  (forall a, dict_get string_dec a (g_node G) = author_data_of (L a)) ->
  forall a, dict_get string_dec a (g_node (add_document G doc))
            = author_data_of (L a ++ papers_of a [doc]).
Proof.
  intros HL a. unfold add_document.
  rewrite (proj1 (link_pairs_shape _ _ _)).
  rewrite (fold_add_author_paper_data _ _ _ L HL).
  unfold papers_of. cbn [flat_map]. now rewrite app_nil_r.
Qed.

Lemma papers_of_app (a : string) (l1 l2 : list Document) :
  papers_of a (l1 ++ l2) = papers_of a l1 ++ papers_of a l2.
Proof. unfold papers_of. apply flat_map_app. Qed.

Lemma fold_add_document_data (docs : list Document) :
  forall G (L : string -> list Paper),
    (forall a, dict_get string_dec a (g_node G) = author_data_of (L a)) ->
    forall a, dict_get string_dec a (g_node (fold_left add_document docs G))
              = author_data_of (L a ++ papers_of a docs).
Proof.
  induction docs as [|d ds IH]; intros G L HL a; cbn [fold_left].
  - unfold papers_of. cbn [flat_map]. now rewrite app_nil_r.
  - rewrite (IH _ _ (add_document_data G d L HL)).
    rewrite <- app_assoc. f_equal. f_equal.
    change (d :: ds) with ([d] ++ ds). now rewrite papers_of_app.
Qed.

Lemma build_coauthorship_network_data (s : Snapshot) (a : string) :
  dict_get string_dec a (g_node (build_coauthorship_network s))
  = author_data_of (papers_of a (documents s)).
Proof.
  unfold build_coauthorship_network.
  now rewrite (fold_add_document_data (documents s) GraphOps.empty
                 (fun _ => []) (fun _ => eq_refl)).
Qed.

Lemma papers_of_nil (a : string) (docs : list Document) :
  papers_of a docs = [] <->
  ~ exists d, In d docs /\ In a (doc_authors d).
Proof.
  unfold papers_of. induction docs as [|d ds IH]; cbn [flat_map].
  - split; [intros _ (d & [] & _)|reflexivity].
  - split.
    + intros H. apply app_eq_nil in H. destruct H as [H1 H2].
      intros (d' & [->|Hin] & Ha).
      * apply map_eq_nil in H1.
        assert (In a (filter (String.eqb a) (doc_authors d')))
          by (apply filter_In; split; [exact Ha|apply String.eqb_refl]).
        rewrite H1 in H. destruct H.
      * apply IH in H2. apply H2. eauto.
    + intros H.
      assert (Hf : filter (String.eqb a) (doc_authors d) = []).
      { apply filter_none. intros z Hz. apply String.eqb_neq. intros ->.
        apply H. exists d. split; [now left|exact Hz]. }
      rewrite Hf. cbn [map app]. apply IH.
      intros (d' & Hin & Ha). apply H. exists d'. split; [now right|exact Ha].
Qed.

Lemma author_node_In (s : Snapshot) (a : string) :
  In a (GraphOps.nodes (build_coauthorship_network s)) <->
  exists d, In d (documents s) /\ In a (doc_authors d).
Proof.
  unfold GraphOps.nodes. split.
  - intros Hin.
    destruct (papers_of a (documents s)) as [|q ps] eqn:Hp.
    + exfalso. revert Hin.
      apply (proj1 (dict_get_None string_dec a _)).
      now rewrite build_coauthorship_network_data, Hp.
    + destruct (in_dec string_dec a
                  (flat_map doc_authors (documents s))) as [Hi|Hi].
      * apply in_flat_map in Hi. exact Hi.
      * assert (Hn : papers_of a (documents s) = []).
        { apply papers_of_nil. intros (d & Hd & Ha). apply Hi.
          apply in_flat_map. eauto. }
        congruence.
  - intros Hex.
    destruct (in_dec string_dec a
                (keys (g_node (build_coauthorship_network s)))) as [Hi|Hi];
      [exact Hi|].
    apply (proj2 (dict_get_None string_dec a _)) in Hi.
    rewrite build_coauthorship_network_data in Hi.
    destruct (papers_of a (documents s)) eqn:Hp; [|discriminate].
    apply papers_of_nil in Hp. contradiction.
Qed.

Lemma papers_of_length (a : string) (docs : list Document) :
  len (papers_of a docs)
  = fold_right Z.add 0 (map (fun d => count_name a (doc_authors d)) docs).
Proof.
  unfold papers_of, count_name, len.
  induction docs as [|d ds IH]; [reflexivity|].
  cbn [flat_map map fold_right]. rewrite length_app, length_map.
  rewrite <- IH. lia.
Qed.

End AuthorNodes.

(** X8.  [build_coauthorship_network], author nodes: a name is a node
    exactly when some document lists it; the nodes are distinct, so their
    number is the number of distinct names.  The node of an author holds
    one paper entry for each place of the name in an author list, in
    document order, and [total_papers] is the length of that list. *)
Theorem author_nodes_record_papers (s : Snapshot) :
  let G := build_coauthorship_network s in
  (forall a, dict_get string_dec a (g_node G)
             = author_data_of (papers_of a (documents s)))
  /\ (forall a, In a (GraphOps.nodes G) <->
                exists d, In d (documents s) /\ In a (doc_authors d))
  /\ NoDup (GraphOps.nodes G)
  /\ GraphOps.number_of_nodes G
     = len (nodup string_dec (flat_map doc_authors (documents s)))
  /\ (forall a data, In (a, data) (g_node G) ->
        papers data = papers_of a (documents s)
        /\ total_papers data = len (papers data)
        /\ total_papers data
           = fold_right Z.add 0
               (map (fun d => count_name a (doc_authors d)) (documents s))
        /\ 1 <= total_papers data).
Proof.
  intros G.
  pose proof (build_coauthorship_network_well_formed s) as [Hnd _].
  fold G in Hnd.
  split; [|split; [|split; [|split]]].
  - intros a. apply build_coauthorship_network_data.
  - intros a. apply author_node_In.
  - exact Hnd.
  - unfold GraphOps.number_of_nodes.
    replace (len (g_node G)) with (len (GraphOps.nodes G))
      by (unfold len, GraphOps.nodes, keys; now rewrite length_map).
    apply same_elements_length; [exact Hnd|].
    intros a. unfold G. rewrite author_node_In, in_flat_map. tauto.
  - intros a data Hin.
    apply (dict_get_NoDup string_dec) in Hin; [|exact Hnd].
    unfold G in Hin. rewrite build_coauthorship_network_data in Hin.
    destruct (papers_of a (documents s)) as [|q ps] eqn:Hp; [discriminate|].
    cbn [author_data_of] in Hin. inversion Hin; subst data.
    cbn [papers total_papers]. rewrite <- Hp at 3.
    rewrite <- papers_of_length, Hp.
    repeat split. unfold len. cbn [length]. lia.
Qed.

(* ===================================================================== *)
(** ** The metrics of [get_most_collaborative_authors]                    *)
(* ===================================================================== *)

Section AuthorMetrics.

(** Over the edges of a graph that stores each edge once, a node has
    each neighbour once. *)
Lemma neighbors_NoDup (G : Graph) (n : string) :
  NoDup (keys (g_edge G)) -> stored_once G ->
  NoDup (GraphOps.neighbors G n).
Proof.
  destruct G as [N E]. unfold stored_once, GraphOps.neighbors,
    GraphOps.adjacency. cbn [g_edge].
  induction E as [|[[u v] d] E IH]; intros Hnd Hso; [constructor|].
  cbn [keys map fst] in Hnd. inversion Hnd as [|k ks Hk Hnd']; subst.
  assert (IH' : NoDup (map fst (flat_map
            (fun e : string * string * EdgeData =>
               let '(u0, v0, d0) := e in
               if string_dec u0 n then [(v0, d0)]
               else if string_dec v0 n then [(u0, d0)] else []) E))).
  { apply IH; [exact Hnd'|]. intros a b Ha Hb.
    apply Hso; cbn [keys map fst]; now right. }
  assert (Hfresh : forall w, In w (map fst (flat_map
            (fun e : string * string * EdgeData =>
               let '(u0, v0, d0) := e in
               if string_dec u0 n then [(v0, d0)]
               else if string_dec v0 n then [(u0, d0)] else []) E)) ->
            In (n, w) (keys E) \/ In (w, n) (keys E)).
  { intros w Hw. apply (neighbors_In (mkGraph N E) n w). exact Hw. }
  cbn [flat_map]. rewrite map_app.
  destruct (string_dec u n) as [->|Hu].
  - cbn [map fst app]. constructor; [|exact IH'].
    intros Hw. destruct (Hfresh v Hw) as [H|H]; [contradiction|].
    assert (v = n) as ->.
    { apply Hso; cbn [keys map fst]; [now right|now left]. }
    contradiction.
  - destruct (string_dec v n) as [->|Hv]; [|exact IH'].
    cbn [map fst app]. constructor; [|exact IH'].
    intros Hw. destruct (Hfresh u Hw) as [H|H]; [|contradiction].
    apply Hu. apply Hso; cbn [keys map fst]; [now left|now right].
Qed.

Lemma fold_left_add (l : list Z) (z : Z) :
  fold_left Z.add l z = z + fold_right Z.add 0 l.
Proof.
  revert z. induction l as [|x l IH]; intros z; cbn [fold_left fold_right];
    [lia|]. rewrite IH. lia.
Qed.

(** Counting a list by the classes of a duplicate-free list that covers
    it. *)
Lemma sum_count_name (l m : list string) :
  NoDup l -> incl m l ->
  fold_right Z.add 0 (map (fun b => count_name b m) l) = len m.
Proof.
  intros Hnd. induction m as [|x m IH]; intros Hin.
  - unfold count_name, len. cbn [filter length].
    induction l as [|b l IHl]; [reflexivity|].
    cbn [map fold_right]. inversion Hnd; subst. rewrite IHl; auto.
    intros z [].
  - assert (Hx : In x l) by (apply Hin; now left).
    assert (Hm : incl m l) by (intros z Hz; apply Hin; now right).
    specialize (IH Hm).
    replace (len (x :: m)) with (1 + len m)
      by (unfold len; cbn [length]; lia).
    rewrite <- IH. clear IH Hin Hm.
    induction l as [|b l IHl]; [destruct Hx|].
    inversion Hnd as [|b' l' Hb Hnd']; subst.
    cbn [map fold_right]. unfold count_name at 1 3. cbn [filter].
    destruct Hx as [->|Hx].
    + rewrite String.eqb_refl.
      assert (Hrest : fold_right Z.add 0
                        (map (fun b => count_name b (x :: m)) l)
                      = fold_right Z.add 0
                          (map (fun b => count_name b m) l)).
      { clear IHl Hnd Hnd'. induction l as [|c l IHc]; [reflexivity|].
        cbn [map fold_right]. rewrite IHc by (intros H; apply Hb; now right).
        f_equal. unfold count_name. cbn [filter].
        destruct (String.eqb c x) eqn:Hc; [|reflexivity].
        apply String.eqb_eq in Hc. subst. exfalso. apply Hb. now left. }
      rewrite Hrest. unfold len. cbn [length]. lia.
    + assert (Hbx : String.eqb b x = false).
      { apply String.eqb_neq. intros ->. contradiction. }
      rewrite Hbx. rewrite (IHl Hnd' Hx). unfold count_name. lia.
Qed.

Lemma count_name_NoDup (x : string) (l : list string) :
  NoDup l -> count_name x l = if inb x l then 1 else 0.
Proof.
  unfold count_name, len. induction l as [|y l IH]; intros Hnd;
    [reflexivity|].
  inversion Hnd as [|y' l' Hy Hnd']; subst. cbn [filter].
  destruct (String.eqb x y) eqn:Hxy.
  - apply String.eqb_eq in Hxy. subst y.
    assert (Hi : inb x (x :: l) = true) by (apply inb_true; now left).
    rewrite Hi. cbn [length].
    assert (Hz : inb x l = false) by now apply inb_false.
    specialize (IH Hnd'). rewrite Hz in IH. lia.
  - rewrite (IH Hnd'). apply String.eqb_neq in Hxy.
    destruct (inb x l) eqn:Hl.
    + assert (Hi : inb x (y :: l) = true)
        by (apply inb_true; right; now apply inb_true).
      now rewrite Hi.
    + assert (Hi : inb x (y :: l) = false).
      { apply inb_false. intros [H|H]; [congruence|].
        apply inb_false in Hl. contradiction. }
      now rewrite Hi.
Qed.

Lemma count_name_filter_other (a b : string) (l : list string) :
  a <> b ->
  count_name b (filter (fun c => negb (String.eqb c a)) l) = count_name b l.
Proof.
  intros Hab. unfold count_name, len. f_equal. f_equal.
  induction l as [|y l IH]; [reflexivity|]. cbn [filter].
  destruct (String.eqb y a) eqn:Hya; cbn [negb filter].
  - apply String.eqb_eq in Hya. subst y.
    assert (Hba : String.eqb b a = false)
      by (apply String.eqb_neq; congruence).
    now rewrite Hba.
  - destruct (String.eqb b y); [now rewrite IH|exact IH].
Qed.

Lemma count_name_app (x : string) (l1 l2 : list string) :
  count_name x (l1 ++ l2) = count_name x l1 + count_name x l2.
Proof.
  unfold count_name, len. rewrite filter_app, length_app. lia.
Qed.

(** With distinct names in each author list, a co-author [b] stands in
    [coauthors_of a] once for each document shared with [a]. *)
Lemma count_name_coauthors (s : Snapshot) (a b : string) :
  (forall d, In d (documents s) -> NoDup (doc_authors d)) ->
  a <> b ->
  count_name b (coauthors_of a (documents s)) = shared_documents s a b.
Proof.
  unfold shared_documents, coauthors_of.
  induction (documents s) as [|d ds IH]; intros Hnd Hab; [reflexivity|].
  cbn [flat_map filter]. rewrite count_name_app.
  rewrite IH by (intros; auto using in_cons).
  assert (Hd : NoDup (doc_authors d)) by (apply Hnd; now left).
  destruct (inb a (doc_authors d)) eqn:Ha; cbn [andb].
  - rewrite count_name_filter_other by exact Hab.
    rewrite (count_name_NoDup b Hd).
    destruct (inb b (doc_authors d)); unfold len; cbn [length]; lia.
  - unfold count_name at 1. cbn [filter]. unfold len at 1. cbn [length]. lia.
Qed.

Lemma coauthors_of_In (s : Snapshot) (a b : string) :
  In b (coauthors_of a (documents s)) <->
  b <> a /\ exists d, In d (documents s)
                      /\ In a (doc_authors d) /\ In b (doc_authors d).
Proof.
  unfold coauthors_of. rewrite in_flat_map. split.
  - intros (d & Hd & Hin). destruct (inb a (doc_authors d)) eqn:Ha;
      [|destruct Hin].
    apply filter_In in Hin. destruct Hin as [Hb Hne].
    apply Bool.negb_true_iff, String.eqb_neq in Hne.
    apply inb_true in Ha. split; [exact Hne|eauto].
  - intros (Hne & d & Hd & Ha & Hb). exists d. split; [exact Hd|].
    apply inb_true in Ha. rewrite Ha. apply filter_In. split; [exact Hb|].
    now apply Bool.negb_true_iff, String.eqb_neq.
Qed.

Lemma shared_documents_pos (s : Snapshot) (a b : string) :
  0 < shared_documents s a b <->
  exists d, In d (documents s) /\ In a (doc_authors d) /\ In b (doc_authors d).
Proof.
  unfold shared_documents, len. split.
  - intros H.
    destruct (filter (fun d => inb a (doc_authors d) && inb b (doc_authors d))
                     (documents s)) as [|d l] eqn:Hf; [cbn in H; lia|].
    assert (Hin : In d (d :: l)) by now left.
    rewrite <- Hf in Hin. apply filter_In in Hin. destruct Hin as [Hd Hab].
    apply Bool.andb_true_iff in Hab. destruct Hab as [Ha Hb].
    apply inb_true in Ha, Hb. eauto.
  - intros (d & Hd & Ha & Hb).
    assert (Hin : In d (filter (fun d => inb a (doc_authors d)
                                         && inb b (doc_authors d))
                               (documents s))).
    { apply filter_In. split; [exact Hd|].
      apply inb_true in Ha, Hb. now rewrite Ha, Hb. }
    destruct (filter _ (documents s)); [destruct Hin|cbn [length]; lia].
Qed.

(** With distinct names in each author list, the neighbours of an author
    are the co-authors. *)
Lemma neighbors_coauthors (s : Snapshot) (a b : string) :
  (forall d, In d (documents s) -> NoDup (doc_authors d)) ->
  In b (GraphOps.neighbors (build_coauthorship_network s) a) <->
  In b (coauthors_of a (documents s)).
Proof.
  intros Hnd.
  pose proof (build_coauthorship_network_spec s) as (Hso & Hpos & Hw).
  rewrite neighbors_In, <- has_edge_In, (has_edge_weight _ _ Hpos), Hw.
  rewrite (total_pair_occurrences_NoDup s a b Hnd), coauthors_of_In.
  destruct (String.eqb a b) eqn:Hab.
  - apply String.eqb_eq in Hab. subst. split; [lia|tauto].
  - apply String.eqb_neq in Hab. rewrite shared_documents_pos.
    split; [intros H; split; [congruence|exact H]|tauto].
Qed.

Lemma adjacency_weight (s : Snapshot) (a w : string) (d : EdgeData) :
  In (w, d) (GraphOps.adjacency (build_coauthorship_network s) a) ->
  GraphOps.edge_data (build_coauthorship_network s) a w = Some d
  /\ weight d = total_pair_occurrences s a w.
Proof.
  intros Hin.
  pose proof (build_coauthorship_network_spec s) as (Hso & Hpos & Hw).
  pose proof (build_coauthorship_network_edges_NoDup s) as Hnd.
  assert (Hd : GraphOps.edge_data (build_coauthorship_network s) a w = Some d).
  { apply edge_data_In; auto. apply adjacency_In in Hin. tauto. }
  split; [exact Hd|]. rewrite <- Hw. unfold weight_of. now rewrite Hd.
Qed.

Lemma documents_of_length (s : Snapshot) (a : string) :
  (forall d, In d (documents s) -> NoDup (doc_authors d)) ->
  len (papers_of a (documents s)) = len (documents_of a (documents s)).
Proof.
  intros Hnd. rewrite papers_of_length. unfold documents_of.
  induction (documents s) as [|d ds IH]; [reflexivity|].
  cbn [map fold_right filter].
  rewrite IH by (intros; auto using in_cons).
  rewrite count_name_NoDup by (apply Hnd; now left).
  destruct (inb a (doc_authors d)); unfold len; cbn [length]; lia.
Qed.

End AuthorMetrics.

(** X9.  [get_most_collaborative_authors], for a store whose documents
    each list distinct names: an entry's [total_papers] is the number of
    documents that list the author, [unique_collaborators] the number of
    distinct co-authors, [total_collaborations] the number of co-author
    places over those documents, and each listed collaborator is a
    co-author with the number of documents the two share. *)
Theorem collaborative_author_metrics (s : Snapshot) (limit : Z) :
  (forall d, In d (documents s) -> NoDup (doc_authors d)) ->
  forall st, In st (get_most_collaborative_authors s limit) ->
    let a := stats_name st in
    stats_total_papers st = len (documents_of a (documents s))
    /\ unique_collaborators st
       = len (nodup string_dec (coauthors_of a (documents s)))
    /\ total_collaborations st = len (coauthors_of a (documents s))
    /\ (forall c, In c (stats_collaborators st) ->
          In (collab_name c) (coauthors_of a (documents s))
          /\ collaboration_count c = shared_documents s a (collab_name c))
    /\ len (stats_collaborators st) = unique_collaborators st.
Proof.
  intros Hnd st Hst a.
  set (G := build_coauthorship_network s) in *.
  pose proof (build_coauthorship_network_spec s) as (Hso & Hpos & Hw).
  pose proof (build_coauthorship_network_well_formed s) as [Hnodes _].
  pose proof (build_coauthorship_network_edges_NoDup s) as Hedges.
  fold G in Hso, Hpos, Hw, Hnodes, Hedges.
  unfold get_most_collaborative_authors, most_collaborative in Hst.
  fold G in Hst.
  destruct (slice_to_firstn limit
              (sorted_desc unique_collaborators Z.ltb
                 (map (author_stats G) (g_node G)))) as [n [Hn _]].
  rewrite Hn in Hst. apply firstn_In in Hst.
  apply (Permutation_in _ (sorted_desc_perm unique_collaborators _)) in Hst.
  apply in_map_iff in Hst. destruct Hst as [[x data] [Heq Hin]].
  subst st. unfold a. clear a.
  cbn [author_stats stats_name stats_total_papers unique_collaborators
       total_collaborations stats_collaborators fst snd].
  assert (Hnb : NoDup (GraphOps.neighbors G x))
    by now apply neighbors_NoDup.
  assert (Hdeg : GraphOps.degree G x = len (GraphOps.neighbors G x)).
  { unfold GraphOps.degree.
    destruct (in_dec string_dec x (GraphOps.neighbors G x)) as [Hi|_]; [|lia].
    apply (neighbors_coauthors s x x Hnd), coauthors_of_In in Hi.
    destruct Hi as [Hi _]. congruence. }
  assert (Hcount : len (GraphOps.neighbors G x)
                   = len (nodup string_dec (coauthors_of x (documents s)))).
  { apply same_elements_length; [exact Hnb|].
    intros b. now apply neighbors_coauthors. }
  split; [|split; [|split; [|split]]].
  - apply (dict_get_NoDup string_dec) in Hin; [|exact Hnodes].
    unfold G in Hin. rewrite build_coauthorship_network_data in Hin.
    rewrite <- (documents_of_length s x Hnd).
    destruct (papers_of x (documents s)); [discriminate|].
    cbn [author_data_of] in Hin. inversion Hin. reflexivity.
  - now rewrite Hdeg.
  - rewrite fold_left_add, Z.add_0_l.
    rewrite <- (@sum_count_name (GraphOps.neighbors G x)
                               (coauthors_of x (documents s)) Hnb).
    + unfold GraphOps.neighbors. rewrite !map_map. f_equal.
      apply map_ext_in. intros [w d] Hwd. cbn [fst snd].
      destruct (adjacency_weight s x w d Hwd) as [_ Hwt]. rewrite Hwt.
      assert (Hne : x <> w).
      { intros ->.
        assert (Hi : In w (GraphOps.neighbors G w))
          by (apply in_map_iff; now exists (w, d)).
        apply (neighbors_coauthors s w w Hnd), coauthors_of_In in Hi.
        destruct Hi as [Hi _]. congruence. }
      rewrite (total_pair_occurrences_NoDup s x w Hnd).
      apply String.eqb_neq in Hne as Hne'. rewrite Hne'.
      symmetry. now apply count_name_coauthors.
    + intros b Hb. now apply neighbors_coauthors.
  - intros c Hc. unfold ranked_collaborators in Hc.
    apply (Permutation_in _ (sorted_desc_perm collaboration_count _)) in Hc.
    unfold collaborators_of in Hc. apply in_map_iff in Hc.
    destruct Hc as [[w d] [Heq Hwd]]. subst c.
    cbn [collab_name collaboration_count fst snd].
    assert (Hi : In w (coauthors_of x (documents s))).
    { apply neighbors_coauthors; [exact Hnd|].
      apply in_map_iff. now exists (w, d). }
    split; [exact Hi|].
    destruct (adjacency_weight s x w d Hwd) as [_ Hwt]. rewrite Hwt.
    rewrite (total_pair_occurrences_NoDup s x w Hnd).
    apply coauthors_of_In in Hi. destruct Hi as [Hne _].
    assert (Hne' : String.eqb x w = false)
      by (apply String.eqb_neq; congruence).
    now rewrite Hne'.
  - rewrite Hdeg. unfold ranked_collaborators, collaborators_of, len.
    rewrite sorted_desc_length, length_map.
    unfold GraphOps.neighbors. now rewrite length_map.
Qed.

Lemma collaborative_author_metrics_witness :
  (forall d, In d (documents corpus_two_groups) -> NoDup (doc_authors d))
  /\ exists st, In st (get_most_collaborative_authors corpus_two_groups 10)
       /\ unique_collaborators st
          = len (nodup string_dec
                   (coauthors_of (stats_name st)
                                 (documents corpus_two_groups))).
Proof.
  assert (H : forall d, In d (documents corpus_two_groups) ->
                        NoDup (doc_authors d)).
  { intros d Hd. cbn in Hd.
    destruct Hd as [<-|[<-|[<-|[]]]]; cbn;
      repeat (constructor; [cbn; intuition discriminate|]); constructor. }
  split; [exact H|].
  assert (Hr : exists st,
             In st (get_most_collaborative_authors corpus_two_groups 10))
    by (vm_compute; eexists; left; reflexivity).
  destruct Hr as [st Hst]. exists st. split; [exact Hst|].
  exact (proj1 (proj2 (@collaborative_author_metrics corpus_two_groups 10
                         H st Hst))).
Defined.

(* ===================================================================== *)
(** ** The papers on a collaboration edge                                 *)
(* ===================================================================== *)

Section EdgePapers.

Lemma edge_data_link (p : Paper) (a1 a2 : string) (G : Graph) (x y : string) :
  stored_once G ->
  GraphOps.edge_data (link p a1 G a2) x y
  = if same_pair x y a1 a2
    then Some (linked p (GraphOps.edge_data G x y))
    else GraphOps.edge_data G x y.
Proof.
  intros Honce.
  assert (Hno : (x, y) <> (a1, a2) -> (y, x) <> (a1, a2) ->
                same_pair x y a1 a2 = false).
  { intros H1 H2. apply Bool.not_true_iff_false. rewrite same_pair_spec.
    intros [[-> ->]|[-> ->]]; congruence. }
  assert (Hyes1 : same_pair a1 a2 a1 a2 = true)
    by (apply same_pair_spec; auto).
  assert (Hyes2 : same_pair a2 a1 a1 a2 = true)
    by (apply same_pair_spec; auto).
  unfold link.
  destruct (GraphOps.has_edge G a1 a2) eqn:He.
  - unfold GraphOps.update_edge, GraphOps.edge_data. cbn [g_edge].
    destruct (dict_mem string_pair_dec (a1, a2) (g_edge G)) eqn:Hm.
    + apply dict_mem_In in Hm. rewrite !dict_get_update.
      destruct (dict_get string_pair_dec (a1, a2) (g_edge G)) as [d|] eqn:Hg;
        [|apply dict_get_None in Hg; contradiction].
      destruct (string_pair_dec (x, y) (a1, a2)) as [E|NE].
      * inversion E; subst. rewrite Hyes1, Hg. reflexivity.
      * destruct (string_pair_dec (y, x) (a1, a2)) as [E'|NE'].
        -- inversion E'; subst.
           assert (Hn : dict_get string_pair_dec (a2, a1) (g_edge G) = None).
           { apply dict_get_None. intros Hin. apply NE.
             f_equal; [symmetry|]; now apply Honce. }
           rewrite Hyes2, Hn, Hg. reflexivity.
        -- now rewrite (Hno NE NE').
    + apply dict_mem_false in Hm.
      apply has_edge_In in He. destruct He as [He|He]; [contradiction|].
      rewrite !dict_get_update.
      destruct (dict_get string_pair_dec (a2, a1) (g_edge G)) as [d|] eqn:Hg;
        [|apply dict_get_None in Hg; contradiction].
      assert (Hn : dict_get string_pair_dec (a1, a2) (g_edge G) = None)
        by now apply dict_get_None.
      destruct (string_pair_dec (x, y) (a2, a1)) as [E|NE].
      * inversion E; subst. rewrite Hyes2, Hg. reflexivity.
      * destruct (string_pair_dec (y, x) (a2, a1)) as [E'|NE'].
        -- inversion E'; subst. rewrite Hyes1, Hn, Hg. reflexivity.
        -- rewrite Hno; [reflexivity| |]; congruence.
  - unfold GraphOps.add_edge. rewrite He.
    unfold GraphOps.edge_data. cbn [g_edge].
    apply has_edge_false in He. destruct He as [H1 H2].
    apply (proj2 (dict_get_None string_pair_dec _ _)) in H1.
    apply (proj2 (dict_get_None string_pair_dec _ _)) in H2.
    rewrite !dict_get_app. cbn [dict_get].
    destruct (string_pair_dec (x, y) (a1, a2)) as [E|NE].
    + inversion E; subst. rewrite Hyes1, H1, H2. reflexivity.
    + destruct (string_pair_dec (y, x) (a1, a2)) as [E'|NE'].
      * inversion E'; subst. rewrite Hyes2, H1, H2. reflexivity.
      * rewrite (Hno NE NE').
        destruct (dict_get string_pair_dec (x, y) (g_edge G)); [reflexivity|].
        now destruct (dict_get string_pair_dec (y, x) (g_edge G)).
Qed.

Lemma edge_papers_link (p : Paper) (a1 a2 : string) (G : Graph)
      (x y : string) :
  stored_once G ->
  edge_papers_of (link p a1 G a2) x y
  = edge_papers_of G x y ++ (if same_pair x y a1 a2 then [p] else []).
Proof.
  intros Honce. unfold edge_papers_of. rewrite edge_data_link by exact Honce.
  destruct (same_pair x y a1 a2).
  - now destruct (GraphOps.edge_data G x y).
  - now rewrite app_nil_r.
Qed.

Lemma fold_link_papers (p : Paper) (a1 : string) (rest : list string) :
  forall G, stored_once G ->
    forall x y, edge_papers_of (fold_left (link p a1) rest G) x y
                = edge_papers_of G x y
                  ++ repeat p (length (filter (same_pair x y a1) rest)).
Proof.
  induction rest as [|a2 rest IH]; intros G Ho x y; cbn [fold_left filter].
  - cbn [length repeat]. now rewrite app_nil_r.
  - rewrite IH by now apply link_stored_once.
    rewrite edge_papers_link by exact Ho. rewrite <- app_assoc. f_equal.
    destruct (same_pair x y a1 a2); reflexivity.
Qed.

Lemma pair_occurrences_nonneg (x y : string) (authors : list string) :
  0 <= pair_occurrences x y authors.
Proof.
  induction authors as [|a rest IH]; cbn [pair_occurrences]; [lia|].
  unfold len. lia.
Qed.

Lemma link_pairs_papers (p : Paper) (authors : list string) :
  forall G, stored_once G -> positive_weights G ->
    forall x y, edge_papers_of (link_pairs p authors G) x y
                = edge_papers_of G x y
                  ++ repeat p (Z.to_nat (pair_occurrences x y authors)).
Proof.
  induction authors as [|a1 rest IH]; intros G Ho Hp x y;
    cbn [link_pairs pair_occurrences].
  - cbn [Z.to_nat repeat]. now rewrite app_nil_r.
  - destruct (fold_link p a1 rest Ho Hp) as (O1 & P1 & _ & _).
    rewrite IH by assumption. rewrite fold_link_papers by exact Ho.
    rewrite <- app_assoc. f_equal. rewrite <- repeat_app. f_equal.
    pose proof (pair_occurrences_nonneg x y rest). unfold len. lia.
Qed.

Lemma add_document_papers (G : Graph) (doc : Document) :
  stored_once G -> positive_weights G ->
  forall x y, edge_papers_of (add_document G doc) x y
              = edge_papers_of G x y ++ pair_papers x y [doc].
Proof.
  intros Ho Hp x y. unfold add_document.
  set (G1 := fold_left (add_author_paper (paper_of doc)) (doc_authors doc) G).
  assert (He : g_edge G1 = g_edge G)
    by apply fold_add_author_paper_edges.
  assert (Ho1 : stored_once G1) by (unfold stored_once; now rewrite He).
  assert (Hp1 : positive_weights G1)
    by (unfold positive_weights; now rewrite He).
  rewrite link_pairs_papers by assumption.
  unfold pair_papers. cbn [flat_map]. rewrite app_nil_r. f_equal.
  unfold edge_papers_of, GraphOps.edge_data. now rewrite He.
Qed.

Lemma fold_add_document_papers (docs : list Document) :
  forall G, stored_once G -> positive_weights G ->
    forall x y, edge_papers_of (fold_left add_document docs G) x y
                = edge_papers_of G x y ++ pair_papers x y docs.
Proof.
  induction docs as [|d ds IH]; intros G Ho Hp x y; cbn [fold_left].
  - unfold pair_papers. cbn [flat_map]. now rewrite app_nil_r.
  - destruct (add_document_spec d Ho Hp) as (O1 & P1 & _).
    rewrite IH by assumption. rewrite add_document_papers by assumption.
    rewrite <- app_assoc. f_equal. unfold pair_papers. cbn [flat_map].
    now rewrite app_nil_r.
Qed.

Lemma build_coauthorship_network_papers (s : Snapshot) (x y : string) :
  edge_papers_of (build_coauthorship_network s) x y
  = pair_papers x y (documents s).
Proof.
  unfold build_coauthorship_network.
  rewrite fold_add_document_papers.
  - reflexivity.
  - intros u v [].
  - intros k d [].
Qed.

Lemma pair_papers_length (x y : string) (docs : list Document) :
  len (pair_papers x y docs)
  = fold_right Z.add 0
      (map (fun d => pair_occurrences x y (doc_authors d)) docs).
Proof.
  unfold pair_papers, len. induction docs as [|d ds IH]; [reflexivity|].
  cbn [flat_map map fold_right]. rewrite length_app, repeat_length.
  pose proof (pair_occurrences_nonneg x y (doc_authors d)). lia.
Qed.

(** With distinct names in each author list, the papers of a pair of
    different names are the documents that list both. *)
Lemma pair_papers_NoDup (x y : string) (docs : list Document) :
  (forall d, In d docs -> NoDup (doc_authors d)) ->
  x <> y ->
  pair_papers x y docs = map paper_of (shared_documents_of x y docs).
Proof.
  intros Hnd Hxy. unfold pair_papers, shared_documents_of.
  induction docs as [|d ds IH]; [reflexivity|].
  cbn [flat_map filter]. rewrite IH by (intros; auto using in_cons).
  rewrite pair_occurrences_NoDup by (apply Hnd; now left).
  apply String.eqb_neq in Hxy. rewrite Hxy. cbn [negb andb].
  destruct (inb x (doc_authors d) && inb y (doc_authors d)); reflexivity.
Qed.

End EdgePapers.

(** X10.  [build_coauthorship_network], edge attributes: for every two
    names, the [papers] list of their edge holds one entry for each
    pairing of the two names in an author list, in document order (and
    there is no edge when there is none); its length is the weight of the
    edge.  An edge that is stored never has an empty list. *)
Theorem edge_papers_follow_the_documents (s : Snapshot) (x y : string) :
  let G := build_coauthorship_network s in
  edge_papers_of G x y = pair_papers x y (documents s)
  /\ edge_papers_of G y x = edge_papers_of G x y
  /\ len (edge_papers_of G x y) = weight_of G x y
  /\ (GraphOps.has_edge G x y = true <-> edge_papers_of G x y <> []).
Proof.
  intros G.
  pose proof (build_coauthorship_network_spec s) as (Hso & Hpos & Hw).
  fold G in Hso, Hpos, Hw.
  assert (Hlen : len (edge_papers_of G x y) = weight_of G x y).
  { unfold G. rewrite build_coauthorship_network_papers, pair_papers_length.
    fold G. now rewrite Hw. }
  split; [apply build_coauthorship_network_papers|].
  split; [|split; [exact Hlen|]].
  - unfold G. rewrite !build_coauthorship_network_papers.
    unfold pair_papers.
    assert (Hsym : forall l, pair_occurrences y x l = pair_occurrences x y l).
    { induction l as [|a l IHl]; [reflexivity|]. cbn [pair_occurrences].
      rewrite IHl. f_equal. f_equal. apply filter_ext. intros b.
      apply Bool.eq_true_iff_eq. rewrite !same_pair_spec. tauto. }
    induction (documents s) as [|d ds IH]; [reflexivity|].
    cbn [flat_map]. rewrite IH, Hsym. reflexivity.
  - rewrite (has_edge_weight _ _ Hpos), <- Hlen.
    destruct (edge_papers_of G x y); unfold len; cbn [length].
    + split; [lia|congruence].
    + split; [discriminate|lia].
Qed.

(* ===================================================================== *)
(** ** The counts of an author profile                                    *)
(* ===================================================================== *)

Section ProfileCounts.

Lemma papers_of_NoDup (a : string) (docs : list Document) :
  (forall d, In d docs -> NoDup (doc_authors d)) ->
  papers_of a docs = map paper_of (documents_of a docs).
Proof.
  intros Hnd. unfold papers_of, documents_of.
  induction docs as [|d ds IH]; [reflexivity|].
  cbn [flat_map filter]. rewrite IH by (intros; auto using in_cons).
  assert (Hd : NoDup (doc_authors d)) by (apply Hnd; now left).
  pose proof (count_name_NoDup a Hd) as Hc. unfold count_name, len in Hc.
  destruct (inb a (doc_authors d)).
  - destruct (filter (String.eqb a) (doc_authors d)) as [|z [|z' l]];
      cbn [length] in Hc; try lia. reflexivity.
  - destruct (filter (String.eqb a) (doc_authors d)) as [|z l];
      cbn [length] in Hc; try lia. reflexivity.
Qed.

Lemma same_id_same_document (docs : list Document) (d d' : Document) :
  NoDup (map doc_id docs) -> In d docs -> In d' docs ->
  doc_id d = doc_id d' -> d = d'.
Proof.
  induction docs as [|z ds IH]; intros Hnd Hd Hd' Hid; [destruct Hd|].
  cbn [map] in Hnd. inversion Hnd as [|i l Hz Hnd']; subst.
  destruct Hd as [->|Hd]; destruct Hd' as [->|Hd']; auto.
  - exfalso. apply Hz. rewrite Hid. now apply in_map.
  - exfalso. apply Hz. rewrite <- Hid. now apply in_map.
Qed.

Lemma other_author (a : string) (l : list string) :
  NoDup l -> In a l ->
  (exists w, w <> a /\ In w l) <-> 1 < len l.
Proof.
  intros Hnd Ha. unfold len. split.
  - intros (w & Hw & Hin).
    destruct l as [|z [|z' l]]; cbn [length]; [destruct Ha| |lia].
    destruct Ha as [<-|[]]. destruct Hin as [<-|[]]. congruence.
  - intros Hlen. destruct l as [|z [|z' l]]; cbn [length] in Hlen; try lia.
    inversion Hnd as [|? ? Hz _]; subst.
    destruct (string_dec z a) as [->|Hne].
    + exists z'. split; [|right; now left].
      intros ->. apply Hz. now left.
    + exists z. split; [exact Hne|now left].
Qed.

Lemma neighbors_count (s : Snapshot) (a : string) :
  (forall d, In d (documents s) -> NoDup (doc_authors d)) ->
  len (GraphOps.adjacency (build_coauthorship_network s) a)
  = len (nodup string_dec (coauthors_of a (documents s))).
Proof.
  intros Hnd.
  pose proof (build_coauthorship_network_spec s) as (Hso & _ & _).
  pose proof (build_coauthorship_network_edges_NoDup s) as Hedges.
  rewrite <- (@same_elements_length _ string_dec
                (GraphOps.neighbors (build_coauthorship_network s) a)).
  - unfold GraphOps.neighbors, len. now rewrite length_map.
  - now apply neighbors_NoDup.
  - intros b. now apply neighbors_coauthors.
Qed.

(** The collaborator entries of an author in a store with distinct names
    per document. *)
Lemma collaborators_of_spec (s : Snapshot) (a : string) (c : Collaborator) :
  (forall d, In d (documents s) -> NoDup (doc_authors d)) ->
  In c (collaborators_of (build_coauthorship_network s) a) ->
  In (collab_name c) (coauthors_of a (documents s))
  /\ shared_papers c
     = map paper_of (shared_documents_of a (collab_name c) (documents s))
  /\ collaboration_count c = shared_documents s a (collab_name c).
Proof.
  intros Hnd Hc. unfold collaborators_of in Hc. apply in_map_iff in Hc.
  destruct Hc as [[w d] [Heq Hwd]]. subst c.
  cbn [collab_name shared_papers collaboration_count fst snd].
  assert (Hi : In w (coauthors_of a (documents s))).
  { apply neighbors_coauthors; [exact Hnd|].
    apply in_map_iff. now exists (w, d). }
  assert (Hne : a <> w).
  { apply coauthors_of_In in Hi. destruct Hi as [Hi _]. congruence. }
  destruct (adjacency_weight s a w d Hwd) as [Hd Hwt].
  split; [exact Hi|split].
  - rewrite <- (pair_papers_NoDup (documents s) Hnd Hne).
    rewrite <- build_coauthorship_network_papers.
    unfold edge_papers_of. now rewrite Hd.
  - rewrite Hwt, (total_pair_occurrences_NoDup s a w Hnd).
    apply String.eqb_neq in Hne. now rewrite Hne.
Qed.

Lemma collaborator_exists (s : Snapshot) (a w : string) :
  (forall d, In d (documents s) -> NoDup (doc_authors d)) ->
  In w (coauthors_of a (documents s)) ->
  exists c, In c (collaborators_of (build_coauthorship_network s) a)
            /\ collab_name c = w.
Proof.
  intros Hnd Hw. apply (neighbors_coauthors s a w Hnd) in Hw.
  unfold GraphOps.neighbors in Hw. apply in_map_iff in Hw.
  destruct Hw as [[w' d] [Heq Hin]]. cbn [fst] in Heq. subst w'.
  exists (mkCollaborator w (weight d) (edge_papers d)). split; [|reflexivity].
  unfold collaborators_of. apply in_map_iff. now exists (w, d).
Qed.

(** A paper of the author counts as collaborative exactly when its
    document lists somebody else. *)
Lemma is_collaborative_spec (s : Snapshot) (a : string) (d : Document) :
  (forall d, In d (documents s) -> NoDup (doc_authors d)) ->
  NoDup (map doc_id (documents s)) ->
  In d (documents_of a (documents s)) ->
  is_collaborative (ranked_collaborators (build_coauthorship_network s) a)
                   (paper_of d)
  = (1 <? len (doc_authors d)).
Proof.
  intros Hnd Hids Hd. apply filter_In in Hd. destruct Hd as [Hd Ha].
  apply inb_true in Ha.
  apply Bool.eq_true_iff_eq. rewrite Z.ltb_lt.
  rewrite <- (@other_author a (doc_authors d) (Hnd d Hd) Ha).
  unfold is_collaborative. rewrite existsb_exists. split.
  - intros (c & Hc & _). apply filter_In in Hc. destruct Hc as [Hc Hex].
    apply (Permutation_in _ (sorted_desc_perm collaboration_count _)) in Hc.
    destruct (collaborators_of_spec s a c Hnd Hc) as (Hco & Hsp & _).
    apply existsb_exists in Hex. destruct Hex as (q & Hq & Hid).
    apply Z.eqb_eq in Hid. rewrite Hsp in Hq. apply in_map_iff in Hq.
    destruct Hq as (d' & Heq & Hd'). subst q. cbn [paper_of paper_id] in Hid.
    apply filter_In in Hd'. destruct Hd' as [Hd' Hboth].
    apply Bool.andb_true_iff in Hboth. destruct Hboth as [_ Hw].
    apply inb_true in Hw.
    assert (d' = d) by (eapply same_id_same_document; eauto). subst d'.
    exists (collab_name c). split; [|exact Hw].
    apply coauthors_of_In in Hco. tauto.
  - intros (w & Hne & Hw).
    assert (Hco : In w (coauthors_of a (documents s))).
    { apply coauthors_of_In. split; [exact Hne|]. exists d. auto. }
    destruct (collaborator_exists s a w Hnd Hco) as (c & Hc & Hname).
    destruct (collaborators_of_spec s a c Hnd Hc) as (_ & Hsp & _).
    assert (Hq : In (paper_of d) (shared_papers c)).
    { rewrite Hsp, Hname. apply in_map. apply filter_In. split; [exact Hd|].
      apply inb_true in Ha, Hw. now rewrite Ha, Hw. }
    exists c. split.
    + apply filter_In. split.
      * apply (Permutation_in _ (Permutation_sym
                 (sorted_desc_perm collaboration_count _))). exact Hc.
      * apply existsb_exists. exists (paper_of d). split; [exact Hq|].
        apply Z.eqb_refl.
    + destruct (shared_papers c); [destruct Hq|reflexivity].
Qed.

Lemma filter_map_swap (A B : Type) (f : B -> bool) (g : A -> B) (l : list A) :
  filter f (map g l) = map g (filter (fun x => f (g x)) l).
Proof.
  induction l as [|x l IH]; [reflexivity|]. cbn [map filter].
  destruct (f (g x)); cbn [map]; now rewrite IH.
Qed.

End ProfileCounts.

(** X11.  [get_author_profile] in a store where documents have distinct
    ids and list distinct names: for the exact name of an author whose
    documents all have a year, the call returns a profile.  Its papers are
    the author's documents in descending order of year; [total_papers] is
    their number, [collaborative_papers] the number of them with more
    than one author, [solo_papers] the number with the author alone;
    [unique_collaborators] is the number of distinct co-authors, and each
    collaborator carries the documents shared with the author. *)
Theorem profile_counts (lower : string -> string) (s : Snapshot)
        (a : string) :
  (forall d, In d (documents s) -> NoDup (doc_authors d)) ->
  NoDup (map doc_id (documents s)) ->
  (forall d, In d (documents_of a (documents s)) ->
             publication_year d <> None) ->
  documents_of a (documents s) <> [] ->
  exists p,
    get_author_profile lower s a = Ok (Profile p)
    /\ profile_name p = a
    /\ profile_papers p
       = sorted_desc year_or_zero Z.ltb
           (map paper_of (documents_of a (documents s)))
    /\ profile_total_papers p = len (documents_of a (documents s))
    /\ collaborative_papers p
       = len (filter (fun d => 1 <? len (doc_authors d))
                     (documents_of a (documents s)))
    /\ solo_papers p
       = len (filter (fun d => len (doc_authors d) =? 1)
                     (documents_of a (documents s)))
    /\ profile_unique_collaborators p
       = len (nodup string_dec (coauthors_of a (documents s)))
    /\ forall c, In c (profile_collaborators p) ->
         In (collab_name c) (coauthors_of a (documents s))
         /\ shared_papers c
            = map paper_of
                (shared_documents_of a (collab_name c) (documents s))
         /\ collaboration_count c = shared_documents s a (collab_name c).
Proof.
  intros Hnd Hids Hyears Hsome.
  set (G := build_coauthorship_network s).
  set (ds := documents_of a (documents s)) in *.
  assert (Hps : papers_of a (documents s) = map paper_of ds)
    by now apply papers_of_NoDup.
  assert (Hdata : dict_get string_dec a (g_node G)
                  = Some (mkAuthorData (map paper_of ds)
                                       (len (map paper_of ds)))).
  { unfold G. rewrite build_coauthorship_network_data, Hps.
    destruct ds as [|d l]; [congruence|reflexivity]. }
  assert (Hnode : In a (GraphOps.nodes G)).
  { destruct (in_dec string_dec a (GraphOps.nodes G)) as [Hi|Hi]; [exact Hi|].
    apply (proj2 (dict_get_None string_dec a (g_node G))) in Hi.
    congruence. }
  assert (Hhas : Forall has_year (map paper_of ds)).
  { apply Forall_forall. intros q Hq. apply in_map_iff in Hq.
    destruct Hq as (d & <- & Hd). unfold has_year. cbn [paper_of paper_year].
    now apply Hyears. }
  assert (Hcollab :
            filter (is_collaborative (ranked_collaborators G a))
                   (map paper_of ds)
            = map paper_of (filter (fun d => 1 <? len (doc_authors d)) ds)).
  { rewrite filter_map_swap. f_equal. apply filter_ext_in.
    intros d Hd. now apply is_collaborative_spec. }
  unfold get_author_profile. fold G. rewrite author_profile_resolves.
  unfold resolve_author.
  destruct (in_dec string_dec a (GraphOps.nodes G)) as [_|Hn];
    [|contradiction].
  unfold profile_of. rewrite Hdata. cbn [papers].
  rewrite (sorted_desc_exc_with_years Hhas). cbn [bind].
  eexists. split; [reflexivity|].
  cbn [profile_name profile_papers profile_total_papers collaborative_papers
       solo_papers profile_unique_collaborators profile_collaborators].
  assert (Hlen : forall l : list Document, len (map paper_of l) = len l)
    by (intros l; unfold len; now rewrite length_map).
  rewrite Hcollab, !Hlen.
  split; [reflexivity|]. split; [reflexivity|]. split; [reflexivity|].
  split; [reflexivity|]. split; [|split].
  - pose proof (filter_partition_length
                  (fun d => 1 <? len (doc_authors d)) ds) as Hpart.
    assert (Hsolo : filter (fun d => negb (1 <? len (doc_authors d))) ds
                    = filter (fun d => len (doc_authors d) =? 1) ds).
    { apply filter_ext_in. intros d Hd.
      apply filter_In in Hd. destruct Hd as [_ Ha]. apply inb_true in Ha.
      assert (1 <= len (doc_authors d)).
      { unfold len. destruct (doc_authors d); [destruct Ha|].
        cbn [length]. lia. }
      destruct (Z.ltb_spec 1 (len (doc_authors d)));
        destruct (Z.eqb_spec (len (doc_authors d)) 1); cbn [negb];
        try reflexivity; lia. }
    rewrite <- Hsolo. cbv beta in Hpart. lia.
  - unfold ranked_collaborators, collaborators_of, len.
    rewrite sorted_desc_length, length_map.
    apply (neighbors_count s a Hnd).
  - intros c Hc. unfold ranked_collaborators in Hc.
    apply (Permutation_in _ (sorted_desc_perm collaboration_count _)) in Hc.
    now apply collaborators_of_spec.
Qed.

Lemma profile_counts_witness :
  exists p,
    get_author_profile lower_ascii corpus_scenario_B "Smith" = Ok (Profile p)
    /\ profile_total_papers p = 2
    /\ collaborative_papers p = 1
    /\ solo_papers p = 1
    /\ profile_unique_collaborators p = 1.
Proof.
  assert (H1 : forall d, In d (documents corpus_scenario_B) ->
                         NoDup (doc_authors d)).
  { intros d Hd. cbn in Hd.
    destruct Hd as [<-|[<-|[<-|[]]]]; cbn;
      repeat (constructor; [cbn; intuition discriminate|]); constructor. }
  assert (H2 : NoDup (map doc_id (documents corpus_scenario_B))).
  { cbn. repeat (constructor; [cbn; intuition discriminate|]). constructor. }
  assert (H3 : forall d, In d (documents_of "Smith"
                                 (documents corpus_scenario_B)) ->
                         publication_year d <> None).
  { intros d Hd. vm_compute in Hd.
    destruct Hd as [<-|[<-|[]]]; discriminate. }
  assert (H4 : documents_of "Smith" (documents corpus_scenario_B) <> [])
    by (vm_compute; discriminate).
  destruct (@profile_counts lower_ascii corpus_scenario_B "Smith"
              H1 H2 H3 H4)
    as (p & Hp & _ & _ & Ht & Hc & Hs & Hu & _).
  exists p. split; [exact Hp|].
  split; [rewrite Ht; reflexivity|].
  split; [rewrite Hc; reflexivity|].
  split; [rewrite Hs; reflexivity|].
  rewrite Hu. reflexivity.
Defined.

(* ===================================================================== *)
(** ** Nodes, attributes and edge texts of the citation graph             *)
(* ===================================================================== *)

Section CitationAttributes.

Lemma dict_get_setdefault (K V : Type)
      (K_dec : forall a b : K, {a = b} + {a <> b})
      (k k' : K) (v : V) (d : dict K V) :
  dict_get K_dec k' (dict_setdefault K_dec k v d)
  = match dict_get K_dec k' d with
    | Some x => Some x
    | None => if K_dec k' k then Some v else None
    end.
Proof.
  destruct (K_dec k' k) as [->|Hne].
  - destruct (dict_get K_dec k d) as [x|] eqn:Hg.
    + unfold dict_setdefault.
      assert (Hm : dict_mem K_dec k d = true).
      { apply dict_mem_In.
        destruct (in_dec K_dec k (keys d)) as [Hi|Hi]; [exact Hi|].
        apply (proj2 (dict_get_None K_dec k d)) in Hi. congruence. }
      now rewrite Hm.
    + apply dict_get_setdefault_new.
      exact (proj1 (dict_get_None K_dec k d) Hg).
  - rewrite dict_get_setdefault_other by exact Hne.
    now destruct (dict_get K_dec k' d).
Qed.

Lemma fold_add_document_node_get (n : Z) (docs : list Document) :
  forall G,
    dict_get Z.eq_dec n (dg_node (fold_left add_document_node docs G))
    = match last_attrs n docs with
      | Some a => Some (Some a)
      | None => dict_get Z.eq_dec n (dg_node G)
      end.
Proof.
  induction docs as [|d ds IH]; intros G; cbn [fold_left last_attrs];
    [reflexivity|].
  rewrite IH. destruct (last_attrs n ds); [reflexivity|].
  unfold add_document_node, DiGraphOps.add_node. cbn [dg_node].
  rewrite dict_get_set.
  destruct (Z.eq_dec n (doc_id d)) as [->|Hne].
  - now rewrite Z.eqb_refl.
  - destruct (Z.eqb_spec (doc_id d) n); [congruence|reflexivity].
Qed.

Lemma inZ_true (n : Z) (l : list Z) : inZ n l = true <-> In n l.
Proof.
  unfold inZ. destruct (in_dec Z.eq_dec n l); split; auto; discriminate.
Qed.

Lemma cited_endpoints_cons (c : Citation) (cs : list Citation) :
  cited_endpoints (c :: cs) = cited_endpoints [c] ++ cited_endpoints cs.
Proof.
  unfold cited_endpoints, internal_pairs. cbn [flat_map].
  now rewrite !flat_map_app, app_nil_r.
Qed.

Lemma inZ_app (n : Z) (l1 l2 : list Z) :
  inZ n (l1 ++ l2) = inZ n l1 || inZ n l2.
Proof.
  apply Bool.eq_true_iff_eq.
  rewrite Bool.orb_true_iff, !inZ_true. apply in_app_iff.
Qed.

Lemma add_citation_edge_get (n : Z) (G : DiGraph) (c : Citation) :
  dict_get Z.eq_dec n (dg_node (add_citation_edge G c))
  = match dict_get Z.eq_dec n (dg_node G) with
    | Some x => Some x
    | None => if inZ n (cited_endpoints [c]) then Some None else None
    end.
Proof.
  unfold add_citation_edge, cited_endpoints, internal_pairs, truthy.
  cbn [flat_map].
  destruct (cited_document_id c) as [t|].
  - destruct (t =? 0); cbn [negb app flat_map].
    + now destruct (dict_get Z.eq_dec n (dg_node G)).
    + unfold DiGraphOps.add_edge. cbn [dg_node fst snd app].
      rewrite !dict_get_setdefault.
      destruct (dict_get Z.eq_dec n (dg_node G)); [reflexivity|].
      unfold inZ.
      destruct (Z.eq_dec n (citing_document_id c)) as [->|Hu].
      * destruct (in_dec Z.eq_dec (citing_document_id c)
                    [citing_document_id c; t]) as [_|Hn]; [reflexivity|].
        exfalso. apply Hn. now left.
      * destruct (Z.eq_dec n t) as [->|Hv].
        -- destruct (in_dec Z.eq_dec t [citing_document_id c; t])
             as [_|Hn]; [reflexivity|].
           exfalso. apply Hn. right. now left.
        -- destruct (in_dec Z.eq_dec n [citing_document_id c; t])
             as [[H|[H|[]]]|_]; congruence.
  - cbn [app]. now destruct (dict_get Z.eq_dec n (dg_node G)).
Qed.

Lemma fold_add_citation_edge_get (n : Z) (cs : list Citation) :
  forall G,
    dict_get Z.eq_dec n (dg_node (fold_left add_citation_edge cs G))
    = match dict_get Z.eq_dec n (dg_node G) with
      | Some x => Some x
      | None => if inZ n (cited_endpoints cs) then Some None else None
      end.
Proof.
  induction cs as [|c cs IH]; intros G; cbn [fold_left].
  - now destruct (dict_get Z.eq_dec n (dg_node G)).
  - rewrite IH, add_citation_edge_get, (cited_endpoints_cons c cs), inZ_app.
    destruct (dict_get Z.eq_dec n (dg_node G)); [reflexivity|].
    destruct (inZ n (cited_endpoints [c])); reflexivity.
Qed.

Lemma build_citation_network_get (s : Snapshot) (n : Z) :
  dict_get Z.eq_dec n (dg_node (build_citation_network s))
  = match last_attrs n (documents s) with
    | Some a => Some (Some a)
    | None => if inZ n (cited_endpoints (citations s))
              then Some None else None
    end.
Proof.
  unfold build_citation_network.
  rewrite fold_add_citation_edge_get, fold_add_document_node_get.
  now destruct (last_attrs n (documents s)).
Qed.

Lemma last_attrs_None (n : Z) (docs : list Document) :
  last_attrs n docs = None <-> ~ In n (map doc_id docs).
Proof.
  induction docs as [|d ds IH]; cbn [last_attrs map]; [tauto|].
  destruct (last_attrs n ds) as [a|].
  - split; [discriminate|]. intros H. exfalso.
    assert (Hn : ~ In n (map doc_id ds)) by (intros Hi; apply H; now right).
    apply IH in Hn. discriminate.
  - destruct (Z.eqb_spec (doc_id d) n) as [Heq|Hne].
    + split; [discriminate|]. intros H. exfalso. apply H. now left.
    + split; [|reflexivity]. intros _ [Heq|Hin]; [congruence|].
      now apply (proj1 IH).
Qed.

Lemma last_attrs_NoDup (docs : list Document) (d : Document) :
  NoDup (map doc_id docs) -> In d docs ->
  last_attrs (doc_id d) docs = Some (paper_attrs d).
Proof.
  induction docs as [|z ds IH]; intros Hnd Hd; [destruct Hd|].
  cbn [map] in Hnd. inversion Hnd as [|i l Hz Hnd']; subst.
  cbn [last_attrs]. destruct Hd as [->|Hd].
  - assert (Hn : last_attrs (doc_id d) ds = None)
      by now apply last_attrs_None.
    now rewrite Hn, Z.eqb_refl.
  - now rewrite (IH Hnd' Hd).
Qed.

Lemma build_citation_network_nodes_NoDup (s : Snapshot) :
  NoDup (DiGraphOps.nodes (build_citation_network s)).
Proof.
  destruct (document_nodes_inv s) as (B0 & N0 & _).
  destruct (fold_add_citation_edge_inv (citations s) B0 N0) as (_ & N & _).
  exact N.
Qed.

Lemma build_citation_network_nodes (s : Snapshot) (n : Z) :
  In n (DiGraphOps.nodes (build_citation_network s))
  <-> In n (doc_ids s) \/ In n (cited_endpoints (citations s)).
Proof.
  unfold DiGraphOps.nodes.
  pose proof (build_citation_network_get s n) as Hget.
  pose proof (last_attrs_None n (documents s)) as Hla.
  pose proof (inZ_true n (cited_endpoints (citations s))) as Hin.
  pose proof (dict_get_None Z.eq_dec n
                (dg_node (build_citation_network s))) as Hnone.
  fold (doc_ids s) in Hla.
  destruct (last_attrs n (documents s)) as [a|].
  - split.
    + intros _. left.
      destruct (in_dec Z.eq_dec n (doc_ids s)) as [Hi|Hi]; [exact Hi|].
      apply Hla in Hi. discriminate.
    + intros _.
      destruct (in_dec Z.eq_dec n
                  (keys (dg_node (build_citation_network s)))) as [Hi|Hi];
        [exact Hi|].
      apply Hnone in Hi. congruence.
  - destruct (inZ n (cited_endpoints (citations s))).
    + split.
      * intros _. right. now apply Hin.
      * intros _.
        destruct (in_dec Z.eq_dec n
                    (keys (dg_node (build_citation_network s)))) as [Hi|Hi];
          [exact Hi|].
        apply Hnone in Hi. congruence.
    + split.
      * intros Hi. apply Hnone in Hget. contradiction.
      * intros [Hi|Hi].
        -- exfalso. now apply (proj1 Hla).
        -- apply Hin in Hi. discriminate.
Qed.

Lemma add_citation_edge_text (u v : Z) (G : DiGraph) (c : Citation) :
  dict_get pair_dec (u, v) (dg_edge (add_citation_edge G c))
  = if cites u v c then Some (citation_text c)
    else dict_get pair_dec (u, v) (dg_edge G).
Proof.
  unfold add_citation_edge, cites, truthy.
  destruct (cited_document_id c) as [t|]; [|reflexivity].
  destruct (Z.eqb_spec t 0) as [Hz|Hz]; cbn [negb andb]; [reflexivity|].
  unfold DiGraphOps.add_edge. cbn [dg_edge]. rewrite dict_get_set.
  destruct (pair_dec (u, v) (citing_document_id c, t)) as [E|NE].
  - inversion E; subst. now rewrite !Z.eqb_refl.
  - destruct (Z.eqb_spec t v) as [->|Hv]; cbn [andb]; [|reflexivity].
    destruct (Z.eqb_spec (citing_document_id c) u) as [Hu|Hu];
      [|reflexivity].
    exfalso. apply NE. now rewrite Hu.
Qed.

Lemma fold_add_citation_edge_text (u v : Z) (cs : list Citation) :
  forall G,
    dict_get pair_dec (u, v) (dg_edge (fold_left add_citation_edge cs G))
    = match last_text u v cs with
      | Some t => Some t
      | None => dict_get pair_dec (u, v) (dg_edge G)
      end.
Proof.
  induction cs as [|c cs IH]; intros G; cbn [fold_left last_text];
    [reflexivity|].
  rewrite IH. destruct (last_text u v cs); [reflexivity|].
  rewrite add_citation_edge_text. now destruct (cites u v c).
Qed.

Lemma cites_spec (u v : Z) (c : Citation) :
  cites u v c = true
  <-> citing_document_id c = u /\ cited_document_id c = Some v /\ v <> 0.
Proof.
  unfold cites. destruct (cited_document_id c) as [t|].
  - rewrite !Bool.andb_true_iff, Bool.negb_true_iff, !Z.eqb_eq, Z.eqb_neq.
    split.
    + intros [[Hz ->] Hu]. auto.
    + intros (Hu & Ht & Hz). inversion Ht; subst. auto.
  - split; [discriminate|]. intros (_ & H & _). discriminate.
Qed.

Lemma last_text_Some (u v : Z) (cs : list Citation) (t : string) :
  last_text u v cs = Some t ->
  exists c, In c cs /\ cites u v c = true /\ citation_text c = t.
Proof.
  induction cs as [|c cs IH]; cbn [last_text]; [discriminate|].
  destruct (last_text u v cs) as [t'|].
  - intros H. destruct (IH H) as (c' & Hc & Hrest).
    exists c'. split; [now right|exact Hrest].
  - destruct (cites u v c) eqn:Hcv; [|discriminate].
    intros H. inversion H; subst. exists c. split; [now left|]. auto.
Qed.

Lemma last_text_None (u v : Z) (cs : list Citation) :
  last_text u v cs = None <-> forall c, In c cs -> cites u v c = false.
Proof.
  induction cs as [|c cs IH]; cbn [last_text].
  - split; [intros _ c []|reflexivity].
  - destruct (last_text u v cs) as [t'|].
    + split; [discriminate|]. intros H.
      assert (Hn : @None string = None) by reflexivity.
      apply (proj2 IH). intros c' Hc'. apply H. now right.
    + destruct (cites u v c) eqn:Hcv.
      * split; [discriminate|]. intros H.
        rewrite (H c (or_introl eq_refl)) in Hcv. discriminate.
      * split; [|reflexivity]. intros _ c' [<-|Hc']; [exact Hcv|].
        now apply (proj1 IH).
Qed.

End CitationAttributes.

(** X12.  [build_citation_network], nodes: an id is a node exactly when a
    document has it or a citation record with a target that counts names
    it; nodes are distinct, so [number_of_nodes] is the number of distinct
    such ids.  A node carries the attributes of the last document with
    its id, and none when no document has the id. *)
Theorem citation_nodes_and_attributes (s : Snapshot) :
  let G := build_citation_network s in
  (forall n, dict_get Z.eq_dec n (dg_node G)
             = match last_attrs n (documents s) with
               | Some a => Some (Some a)
               | None => if inZ n (cited_endpoints (citations s))
                         then Some None else None
               end)
  /\ (forall n, In n (DiGraphOps.nodes G)
                <-> In n (doc_ids s) \/ In n (cited_endpoints (citations s)))
  /\ NoDup (DiGraphOps.nodes G)
  /\ DiGraphOps.number_of_nodes G
     = len (nodup Z.eq_dec (doc_ids s ++ cited_endpoints (citations s)))
  /\ len (nodup Z.eq_dec (doc_ids s)) <= DiGraphOps.number_of_nodes G.
Proof.
  intros G.
  pose proof (build_citation_network_nodes_NoDup s) as Hnd. fold G in Hnd.
  assert (Hnum : DiGraphOps.number_of_nodes G
                 = len (nodup Z.eq_dec
                          (doc_ids s ++ cited_endpoints (citations s)))).
  { unfold DiGraphOps.number_of_nodes.
    replace (len (dg_node G)) with (len (DiGraphOps.nodes G))
      by (unfold len, DiGraphOps.nodes, keys; now rewrite length_map).
    apply same_elements_length; [exact Hnd|].
    intros n. unfold G. rewrite build_citation_network_nodes, in_app_iff.
    tauto. }
  split; [intros n; apply build_citation_network_get|].
  split; [intros n; apply build_citation_network_nodes|].
  split; [exact Hnd|]. split; [exact Hnum|].
  rewrite Hnum. unfold len. apply inj_le. apply NoDup_incl_length.
  - apply NoDup_nodup.
  - intros n Hn. apply nodup_In. apply nodup_In in Hn.
    apply in_or_app. now left.
Qed.

(** X13.  [build_citation_network] in a store with distinct document ids:
    the node of each document carries the title, the authors, the year
    and the journal of that document. *)
Theorem document_nodes_carry_their_attributes (s : Snapshot) (d : Document) :
  NoDup (doc_ids s) ->
  In d (documents s) ->
  dict_get Z.eq_dec (doc_id d) (dg_node (build_citation_network s))
  = Some (Some (paper_attrs d)).
Proof.
  intros Hnd Hd. rewrite build_citation_network_get.
  now rewrite (last_attrs_NoDup (documents s) d Hnd Hd).
Qed.

Lemma document_nodes_carry_their_attributes_witness :
  dict_get Z.eq_dec 2 (dg_node (build_citation_network corpus_one_citation))
  = Some (Some (paper_attrs (paper 2 [] None))).
Proof.
  apply (@document_nodes_carry_their_attributes corpus_one_citation
           (paper 2 [] None)).
  - vm_compute. repeat (constructor; [cbn; intuition discriminate|]).
    constructor.
  - cbn. right. left. reflexivity.
Defined.

(** X14.  [build_citation_network], edge texts: the edge from [u] to [v]
    carries the text of the last citation record that cites [v] from [u]
    with a target that counts; earlier texts of the same pair are
    replaced, and there is no edge when there is no such record. *)
Theorem citation_edge_keeps_the_last_text (s : Snapshot) (u v : Z) :
  let G := build_citation_network s in
  dict_get pair_dec (u, v) (dg_edge G) = last_text u v (citations s)
  /\ (forall t, last_text u v (citations s) = Some t ->
        exists c, In c (citations s)
                  /\ citing_document_id c = u
                  /\ cited_document_id c = Some v /\ v <> 0
                  /\ citation_text c = t)
  /\ (last_text u v (citations s) = None
      <-> DiGraphOps.has_edge G u v = false).
Proof.
  intros G.
  assert (Hget : dict_get pair_dec (u, v) (dg_edge G)
                 = last_text u v (citations s)).
  { unfold G, build_citation_network.
    rewrite fold_add_citation_edge_text, fold_add_document_node_edges.
    now destruct (last_text u v (citations s)). }
  split; [exact Hget|]. split.
  - intros t Ht. destruct (last_text_Some _ _ _ Ht) as (c & Hc & Hcv & Htx).
    apply cites_spec in Hcv. exists c. tauto.
  - rewrite <- Hget. unfold DiGraphOps.has_edge.
    rewrite dict_get_None. rewrite <- (dict_mem_In pair_dec).
    destruct (dict_mem pair_dec (u, v) (dg_edge G)); intuition congruence.
Qed.

(* ===================================================================== *)
(** ** The citation overview                                              *)
(* ===================================================================== *)

Section CitationOverview.

Lemma neighbors_undirected_In (G : DiGraph) (u v : Z) :
  In v (DiGraphOps.neighbors_undirected G u)
  <-> In (u, v) (keys (dg_edge G)) \/ In (v, u) (keys (dg_edge G)).
Proof.
  unfold DiGraphOps.neighbors_undirected.
  rewrite in_app_iff, !in_map_iff. split.
  - intros [([a b] & Heq & Hin)|([a b] & Heq & Hin)];
      apply filter_In in Hin; destruct Hin as [Hin Hab];
      cbn [fst snd] in *; apply Z.eqb_eq in Hab; subst; auto.
  - intros [H|H].
    + left. exists (u, v). split; [reflexivity|]. apply filter_In.
      split; [exact H|apply Z.eqb_refl].
    + right. exists (v, u). split; [reflexivity|]. apply filter_In.
      split; [exact H|apply Z.eqb_refl].
Qed.

Lemma neighbors_undirected_sym (G : DiGraph) (u v : Z) :
  In v (DiGraphOps.neighbors_undirected G u) ->
  In u (DiGraphOps.neighbors_undirected G v).
Proof. rewrite !neighbors_undirected_In. tauto. Qed.

Lemma citation_neighbors_in_nodes (s : Snapshot) (u v : Z) :
  In v (DiGraphOps.neighbors_undirected (build_citation_network s) u) ->
  In v (DiGraphOps.nodes (build_citation_network s)).
Proof.
  rewrite neighbors_undirected_In, !edge_keys_spec.
  intros H. apply build_citation_network_nodes. right.
  unfold cited_endpoints. apply in_flat_map.
  destruct H as [H|H].
  - exists (u, v). split; [exact H|]. right. now left.
  - exists (v, u). split; [exact H|]. now left.
Qed.

(** The flag of [is_connected] is true exactly when every two nodes are
    joined by a path. *)
Lemma is_connected_iff (N : Type) (N_dec : forall a b : N, {a = b} + {a <> b})
      (nodes : list N) (nbrs : N -> list N) (b : bool) :
  NoDup nodes ->
  (forall u v, In v (nbrs u) -> In v nodes) ->
  (forall u v, In v (nbrs u) -> In u (nbrs v)) ->
  is_connected N_dec nodes nbrs = Ok b ->
  (b = true <-> connected nodes nbrs).
Proof.
  intros Hnd Hin Hsym Hb. split.
  - intros ->.
    exact (proj2 (@is_connected_true N N_dec nodes nbrs Hnd Hin Hsym Hb)).
  - intros Hc.
    destruct (@is_connected_head N N_dec nodes nbrs Hnd Hin b Hb)
      as (v0 & Hhd & ->).
    apply Nat.eqb_eq.
    pose proof (hd_error_In _ Hhd) as Hv0.
    apply (@covers_iff N N_dec nodes nbrs Hnd Hin v0 Hv0).
    intros x Hx. now apply Hc.
Qed.

Lemma incl_or_outside (N : Type)
      (N_dec : forall a b : N, {a = b} + {a <> b}) (l c : list N) :
  (forall x, In x l -> In x c) \/ (exists x, In x l /\ ~ In x c).
Proof.
  induction l as [|y l [IH|(x & Hx & Hc)]].
  - left. intros x [].
  - destruct (in_dec N_dec y c) as [Hy|Hy].
    + left. intros x [<-|Hx]; auto.
    + right. exists y. split; [now left|exact Hy].
  - right. exists x. split; [now right|exact Hc].
Qed.

(** A node that the first components leave out starts another one. *)
Lemma components_from_nonempty (N : Type)
      (N_dec : forall a b : N, {a = b} + {a <> b})
      (nodes : list N) (nbrs : N -> list N) (todo : list N) :
  forall seen x, In x todo -> ~ In x seen ->
                 components_from N_dec nodes nbrs todo seen <> [].
Proof.
  induction todo as [|v todo IH]; intros seen x Hx Hs; [destruct Hx|].
  cbn [components_from].
  destruct (mem N_dec v seen) eqn:Hm; [|discriminate].
  apply mem_true in Hm.
  destruct Hx as [->|Hx]; [contradiction|]. now apply (IH seen x).
Qed.

Lemma disconnected_components (N : Type)
      (N_dec : forall a b : N, {a = b} + {a <> b})
      (nodes : list N) (nbrs : N -> list N) :
  NoDup nodes ->
  (forall u v, In v (nbrs u) -> In v nodes) ->
  is_connected N_dec nodes nbrs = Ok false ->
  2 <= number_connected_components N_dec nodes nbrs.
Proof.
  intros Hnd Hin Hb.
  destruct (@is_connected_head N N_dec nodes nbrs Hnd Hin false Hb)
    as (v0 & Hhd & Hlen).
  symmetry in Hlen. apply Nat.eqb_neq in Hlen.
  unfold number_connected_components, connected_components.
  destruct nodes as [|v rest]; [discriminate|].
  cbn [hd_error] in Hhd. inversion Hhd; subst v0.
  cbn [components_from mem]. cbn [app].
  assert (Hv : In v (v :: rest)) by now left.
  destruct (@plain_bfs_spec N N_dec (v :: rest) nbrs Hin v Hv)
    as (Hreach & Hbnd & Hbin).
  assert (Hex : exists x, In x rest
                          /\ ~ In x (plain_bfs N_dec (v :: rest) nbrs v)).
  { destruct (incl_or_outside N_dec rest
                (plain_bfs N_dec (v :: rest) nbrs v)) as [Hall|Hex];
      [|exact Hex].
    exfalso. apply Hlen. apply Nat.le_antisymm.
    - apply NoDup_incl_length; assumption.
    - apply NoDup_incl_length; [exact Hnd|].
      intros x [<-|Hx]; [apply Hreach, rt_refl|now apply Hall]. }
  destruct Hex as (x & Hx & Hnx).
  pose proof (@components_from_nonempty N N_dec (v :: rest) nbrs rest
                (plain_bfs N_dec (v :: rest) nbrs v) x Hx Hnx) as Hne.
  destruct (mem N_dec v []) eqn:Hm;
    [apply (mem_true N_dec) in Hm; destruct Hm|].
  destruct (components_from N_dec (v :: rest) nbrs rest
              (plain_bfs N_dec (v :: rest) nbrs v)); [congruence|].
  unfold len. cbn [length]. lia.
Qed.

End CitationOverview.

(** X15.  [analyze_citation_patterns] on a citation graph with at least
    one node on which the three centrality computations succeed: the
    overview has [is_connected], which is true exactly when every two
    nodes are joined by citations taken in either direction.  When it is
    true the overview has the diameter of the undirected graph, which
    [nx.diameter] returns, and no component count; when it is false it
    has the number of weakly connected components, at least 2, and no
    diameter. *)
Theorem citation_connectivity_report (nx : NxLib) (s : Snapshot) :
  DiGraphOps.nodes (build_citation_network s) <> [] ->
  is_ok (in_degree_centrality nx (build_citation_network s)) = true ->
  is_ok (out_degree_centrality nx (build_citation_network s)) = true ->
  is_ok (pagerank nx (build_citation_network s)) = true ->
  exists flag,
    dict_get string_dec "is_connected" (analyze_citation_patterns nx s)
    = Some (VBool flag)
    /\ (flag = true
        <-> connected (DiGraphOps.nodes (build_citation_network s))
              (DiGraphOps.neighbors_undirected (build_citation_network s)))
    /\ if flag then
         (exists d,
            DiGraphAlg.diameter_undirected (build_citation_network s) = Ok d
            /\ dict_get string_dec "diameter" (analyze_citation_patterns nx s)
               = Some (VInt d))
         /\ dict_get string_dec "connected_components"
              (analyze_citation_patterns nx s) = None
       else
         dict_get string_dec "connected_components"
           (analyze_citation_patterns nx s)
         = Some (VInt (DiGraphAlg.number_weakly_connected_components
                         (build_citation_network s)))
         /\ 2 <= DiGraphAlg.number_weakly_connected_components
                   (build_citation_network s)
         /\ dict_get string_dec "diameter" (analyze_citation_patterns nx s)
            = None.
Proof.
  set (G := build_citation_network s).
  intros Hne Hin Hout Hpr.
  pose proof (build_citation_network_nodes_NoDup s) as Hnd. fold G in Hnd.
  assert (Hnodes : forall u v, In v (DiGraphOps.neighbors_undirected G u) ->
                               In v (DiGraphOps.nodes G))
    by (intros u v; apply citation_neighbors_in_nodes).
  assert (Hsym : forall u v, In v (DiGraphOps.neighbors_undirected G u) ->
                             In u (DiGraphOps.neighbors_undirected G v))
    by (intros u v; apply neighbors_undirected_sym).
  destruct (@is_connected_nonempty Z Z.eq_dec _ _ Hnd Hnodes Hne)
    as (flag & Hflag).
  pose proof (@is_connected_iff Z Z.eq_dec _ _ flag Hnd Hnodes Hsym Hflag)
    as Hiff.
  assert (Hn : (0 <? DiGraphOps.number_of_nodes G) = true).
  { apply Z.ltb_lt. unfold DiGraphOps.number_of_nodes, len.
    unfold DiGraphOps.nodes, keys in Hne.
    destruct (dg_node G); [contradiction|]. cbn [length]. lia. }
  unfold analyze_citation_patterns, analyze_citation_graph. fold G.
  rewrite Hn. unfold citation_network_analysis.
  destruct (in_degree_centrality nx G) as [ic|]; [|discriminate].
  destruct (out_degree_centrality nx G) as [oc|]; [|discriminate].
  destruct (pagerank nx G) as [pr|]; [|discriminate].
  unfold DiGraphAlg.is_weakly_connected. rewrite Hflag.
  exists flag. destruct flag.
  - assert (Hc : connected (DiGraphOps.nodes G)
                   (DiGraphOps.neighbors_undirected G))
      by now apply Hiff.
    destruct (@diameter_connected Z Z.eq_dec _ _ Hnd Hnodes Hc Hne)
      as (d & Hd).
    unfold DiGraphAlg.diameter_undirected. rewrite Hd.
    split; [reflexivity|]. split; [exact Hiff|].
    split; [exists d; split; reflexivity|reflexivity].
  - split; [reflexivity|]. split; [exact Hiff|].
    split; [reflexivity|]. split; [|reflexivity].
    unfold DiGraphAlg.number_weakly_connected_components.
    now apply disconnected_components.
Qed.

Lemma citation_connectivity_report_witness :
  exists flag,
    dict_get string_dec "is_connected"
      (analyze_citation_patterns nx_power_iteration corpus_dangling)
    = Some (VBool flag)
    /\ (flag = true
        <-> connected
              (DiGraphOps.nodes (build_citation_network corpus_dangling))
              (DiGraphOps.neighbors_undirected
                 (build_citation_network corpus_dangling))).
Proof.
  destruct (@citation_connectivity_report nx_power_iteration corpus_dangling)
    as (flag & H1 & H2 & _).
  - vm_compute. discriminate.
  - vm_compute. reflexivity.
  - vm_compute. reflexivity.
  - vm_compute. reflexivity.
  - exists flag. split; [exact H1|exact H2].
Defined.

(** X16.  [analyze_citation_patterns] always returns its three count
    fields first: the number of nodes, the number of edges and their
    ratio (0 for an empty graph).  Nothing follows them exactly when the
    graph is empty or one of the three centrality computations raises;
    an exception inside the analysis never removes the counts. *)
Theorem citation_overview_keeps_the_counts (nx : NxLib) (s : Snapshot) :
  let G := build_citation_network s in
  let n := DiGraphOps.number_of_nodes G in
  let e := DiGraphOps.number_of_edges G in
  exists rest,
    analyze_citation_patterns nx s
    = [ ("total_papers", VInt n);
        ("total_citations", VInt e);
        ("average_citations_per_paper",
          if 0 <? n then VFloat (Qmake e (Z.to_pos n)) else VInt 0) ]
      ++ rest
    /\ (rest = [] <->
        n = 0
        \/ is_ok (in_degree_centrality nx G) = false
        \/ is_ok (out_degree_centrality nx G) = false
        \/ is_ok (pagerank nx G) = false)
    /\ (rest <> [] ->
        exists flag, dict_get string_dec "is_connected" rest
                     = Some (VBool flag)).
Proof.
  intros G n e.
  assert (Hn0 : 0 <= n) by (unfold n, DiGraphOps.number_of_nodes, len; lia).
  unfold analyze_citation_patterns, analyze_citation_graph. fold G n e.
  destruct (Z.ltb_spec 0 n) as [Hpos|Hzero].
  - unfold citation_network_analysis.
    destruct (in_degree_centrality nx G) as [ic|] eqn:Hic.
    2:{ exists []. split; [now rewrite app_nil_r|].
        split; [|congruence]. split; auto. }
    destruct (out_degree_centrality nx G) as [oc|] eqn:Hoc.
    2:{ exists []. split; [now rewrite app_nil_r|].
        split; [|congruence]. split; auto. }
    destruct (pagerank nx G) as [pr|] eqn:Hpr.
    2:{ exists []. split; [now rewrite app_nil_r|].
        split; [|congruence]. split; auto. }
    assert (Hne : DiGraphOps.nodes G <> []).
    { unfold DiGraphOps.nodes, keys. unfold n, DiGraphOps.number_of_nodes,
        len in Hpos. destruct (dg_node G); [cbn in Hpos; lia|discriminate]. }
    pose proof (build_citation_network_nodes_NoDup s) as Hnd. fold G in Hnd.
    assert (Hnodes : forall u v,
               In v (DiGraphOps.neighbors_undirected G u) ->
               In v (DiGraphOps.nodes G))
      by (intros u v; apply citation_neighbors_in_nodes).
    destruct (@is_connected_nonempty Z Z.eq_dec _ _ Hnd Hnodes Hne)
      as (flag & Hflag).
    unfold DiGraphAlg.is_weakly_connected. rewrite Hflag.
    assert (Hno : forall rest : overview nx,
               rest <> [] ->
               (rest = [] <->
                n = 0 \/ is_ok (@Ok (dict Z (score nx)) ic) = false
                \/ is_ok (@Ok (dict Z (score nx)) oc) = false
                \/ is_ok (@Ok (dict Z (score nx)) pr) = false)).
    { intros rest Hr. split; [congruence|].
      cbn [is_ok]. intros [H|[H|[H|H]]]; try discriminate. lia. }
    destruct flag.
    + destruct (DiGraphAlg.diameter_undirected G) as [d|].
      * eexists. split; [rewrite <- !app_assoc; reflexivity|].
        split; [apply Hno; discriminate|]. intros _. now exists true.
      * eexists. split; [rewrite <- !app_assoc; reflexivity|].
        split; [apply Hno; discriminate|]. intros _. now exists true.
    + eexists. split; [rewrite <- !app_assoc; reflexivity|].
      split; [apply Hno; discriminate|]. intros _. now exists false.
  - exists []. split; [now rewrite app_nil_r|].
    split; [|congruence]. split; auto. intros _. left. lia.
Qed.

(* ===================================================================== *)
(** ** Research communities and citation clusters                         *)
(* ===================================================================== *)

Section CommunityFacts.

Lemma all_some_spec (A B : Type) (f : A -> option B) (l : list A)
      (ys : list B) :
  all_some (map f l) = Some ys ->
  length ys = length l
  /\ map fst (combine l ys) = l
  /\ map snd (combine l ys) = ys
  /\ forall x y, In (x, y) (combine l ys) -> f x = Some y.
Proof.
  revert ys. induction l as [|x l IH]; intros ys; cbn [map all_some].
  - intros H. inversion H; subst. repeat split. intros x y [].
  - destruct (f x) as [y|] eqn:Hfx; [|discriminate].
    destruct (all_some (map f l)) as [ys'|]; [|discriminate].
    cbn [option_map]. intros H. inversion H; subst.
    destruct (IH ys' eq_refl) as (Hlen & Hfst & Hsnd & Hall).
    cbn [combine map fst snd length]. rewrite Hfst, Hsnd, Hlen.
    repeat split. intros x0 y0 [Heq|Hin].
    + inversion Heq; subst. exact Hfx.
    + now apply Hall.
Qed.

Lemma all_some_total (A B : Type) (f : A -> option B) (l : list A) :
  (forall x, In x l -> f x <> None) ->
  exists ys, all_some (map f l) = Some ys.
Proof.
  induction l as [|x l IH]; intros H; cbn [map all_some]; [eauto|].
  destruct (f x) as [y|] eqn:Hfx.
  - destruct IH as (ys & ->); [intros z Hz; apply H; now right|].
    cbn [option_map]. eauto.
  - exfalso. apply (H x); [now left|exact Hfx].
Qed.

Lemma all_some_fails (A B : Type) (f : A -> option B) (l : list A) (x : A) :
  In x l -> f x = None -> all_some (map f l) = None.
Proof.
  induction l as [|z l IH]; intros Hin Hx; [destruct Hin|].
  cbn [map all_some]. destruct Hin as [->|Hin].
  - now rewrite Hx.
  - destruct (f z); [|reflexivity]. now rewrite (IH Hin Hx).
Qed.

Lemma enumerate_from_In (A : Type) (l : list A) :
  forall k i x, In (i, x) (enumerate_from k l) ->
                k <= i /\ nth_error l (Z.to_nat (i - k)) = Some x.
Proof.
  induction l as [|y l IH]; intros k i x; cbn [enumerate_from];
    [intros []|].
  intros [Heq|Hin].
  - inversion Heq; subst. rewrite Z.sub_diag. split; [lia|reflexivity].
  - destruct (IH _ _ _ Hin) as [Hle Hnth]. split; [lia|].
    replace (Z.to_nat (i - k)) with (S (Z.to_nat (i - (k + 1)))) by lia.
    exact Hnth.
Qed.

Lemma enumerate_from_snd (A : Type) (l : list A) :
  forall k, map snd (enumerate_from k l) = l.
Proof.
  induction l as [|y l IH]; intros k; cbn [enumerate_from map snd];
    [reflexivity|]. now rewrite IH.
Qed.

Lemma filter_enumerate_length (A : Type) (f : A -> bool) (l : list A) :
  forall k,
    length (filter (fun ix : Z * A => f (snd ix)) (enumerate_from k l))
    = length (filter f l).
Proof.
  induction l as [|x l IH]; intros k; [reflexivity|].
  cbn [enumerate_from filter snd].
  destruct (f x); cbn [length]; now rewrite IH.
Qed.

Lemma research_communities_from_In (G : Graph) (cs : list (Z * list string)) :
  forall rs c,
    research_communities_from G cs = Some rs -> In c rs ->
    exists i members, In (i, members) cs /\ 3 <= len members
                      /\ community_report G i members = Some c.
Proof.
  induction cs as [|[i m] cs IH]; intros rs c; cbn [research_communities_from].
  - intros H. inversion H; subst. intros [].
  - destruct (Z.leb_spec 3 (len m)) as [Hge|Hlt].
    + destruct (community_report G i m) as [r|] eqn:Hr; [|discriminate].
      destruct (research_communities_from G cs) as [rs'|]; [|discriminate].
      cbn [option_map]. intros H. inversion H; subst.
      intros [<-|Hin].
      * exists i, m. split; [now left|]. auto.
      * destruct (IH rs' c eq_refl Hin) as (i' & m' & Hi & Hrest).
        exists i', m'. split; [now right|exact Hrest].
    + intros H Hin. destruct (IH rs c H Hin) as (i' & m' & Hi & Hrest).
      exists i', m'. split; [now right|exact Hrest].
Qed.

Lemma research_communities_from_length (G : Graph)
      (cs : list (Z * list string)) :
  (forall i m a, In (i, m) cs -> In a m -> In a (GraphOps.nodes G)) ->
  exists rs,
    research_communities_from G cs = Some rs
    /\ map community_id rs
       = map fst (filter (fun im : Z * list string => 3 <=? len (snd im)) cs).
Proof.
  induction cs as [|[i m] cs IH]; intros Hnodes;
    cbn [research_communities_from filter]; [exists []; auto|].
  destruct IH as (rs & Hrs & Hids).
  { intros i' m' a Hin Ha. apply (Hnodes i' m' a); [now right|exact Ha]. }
  cbn [snd]. destruct (3 <=? len m).
  - unfold community_report.
    destruct (@all_some_total _ _ (node_total_papers G) m) as (counts & ->).
    { intros a Ha. unfold node_total_papers.
      assert (Hin : In a (GraphOps.nodes G))
        by (apply (Hnodes i m); [now left|exact Ha]).
      destruct (dict_get string_dec a (g_node G)) eqn:Hg; [discriminate|].
      apply dict_get_None in Hg. contradiction. }
    rewrite Hrs. cbn [option_map]. eexists. split; [reflexivity|].
    cbn [map community_id fst]. now rewrite Hids.
  - exists rs. auto.
Qed.

Lemma sum_papers_count_perm (l l' : list CommunityAuthor) :
  Permutation l l' ->
  fold_right Z.add 0 (map papers_count l)
  = fold_right Z.add 0 (map papers_count l').
Proof.
  induction 1; cbn [map fold_right]; lia.
Qed.

Lemma community_report_spec (s : Snapshot) (i : Z) (members : list string)
      (c : Community) :
  community_report (build_coauthorship_network s) i members = Some c ->
  community_id c = i
  /\ size c = len members
  /\ Permutation (map ca_name (community_authors c)) members
  /\ descending papers_count (community_authors c)
  /\ key_authors c = firstn 5 (community_authors c)
  /\ (forall a, In a (community_authors c) ->
        In (ca_name a) members
        /\ papers_count a = len (papers_of (ca_name a) (documents s))
        /\ 1 <= papers_count a
        /\ collaborations_in_community a
           = GraphOps.degree
               (GraphOps.subgraph (build_coauthorship_network s) members)
               (ca_name a))
  /\ community_total_papers c
     = fold_right Z.add 0 (map papers_count (community_authors c))
  /\ internal_collaborations c
     = len (filter (fun e : (string * string) * EdgeData =>
                      inb (fst (fst e)) members && inb (snd (fst e)) members)
                   (g_edge (build_coauthorship_network s))).
Proof.
  set (G := build_coauthorship_network s).
  unfold community_report.
  destruct (all_some (map (node_total_papers G) members)) as [counts|] eqn:Hc;
    [|discriminate].
  intros H. inversion H; subst c. clear H.
  cbn [community_id size community_authors key_authors
       community_total_papers internal_collaborations].
  destruct (all_some_spec _ _ Hc) as (Hlen & Hfst & Hsnd & Hall).
  set (raw := map (fun ac : string * Z =>
                     mkCommunityAuthor (fst ac) (snd ac)
                       (GraphOps.degree (GraphOps.subgraph G members) (fst ac)))
                  (combine members counts)).
  assert (Hperm : Permutation (sorted_desc papers_count Z.ltb raw) raw)
    by apply sorted_desc_perm.
  assert (Hnames : map ca_name raw = members).
  { unfold raw. rewrite map_map. cbn [ca_name]. exact Hfst. }
  assert (Hcounts : map papers_count raw = counts).
  { unfold raw. rewrite map_map. cbn [papers_count]. exact Hsnd. }
  split; [reflexivity|]. split; [reflexivity|].
  split; [rewrite <- Hnames; now apply Permutation_map|].
  split; [apply sorted_desc_descending|].
  split; [reflexivity|]. split; [|split].
  - intros a Ha. apply (Permutation_in _ Hperm) in Ha.
    unfold raw in Ha. apply in_map_iff in Ha.
    destruct Ha as ([x n] & Heq & Hin). subst a.
    cbn [ca_name papers_count collaborations_in_community fst snd].
    pose proof (Hall x n Hin) as Hx. unfold node_total_papers in Hx.
    unfold G in Hx. rewrite build_coauthorship_network_data in Hx.
    split; [apply (in_combine_l _ _ _ _ Hin)|].
    destruct (papers_of x (documents s)) as [|q ps];
      [discriminate|].
    cbn [author_data_of option_map total_papers] in Hx.
    inversion Hx; subst n. repeat split. unfold len. cbn [length]. lia.
  - rewrite fold_left_add, Z.add_0_l.
    rewrite (sum_papers_count_perm Hperm), Hcounts. reflexivity.
  - unfold GraphOps.number_of_edges, GraphOps.subgraph. cbn [g_edge].
    f_equal.
Qed.

Lemma citation_clusters_from_In (G : DiGraph) (cs : list (Z * list Z)) :
  forall rs c,
    citation_clusters_from G cs = Some rs -> In c rs ->
    exists i members docs,
      In (i, members) cs /\ 3 <= len members
      /\ all_some (map (cluster_document G) members) = Some docs
      /\ c = mkCluster i (len members) docs.
Proof.
  induction cs as [|[i m] cs IH]; intros rs c; cbn [citation_clusters_from].
  - intros H. inversion H; subst. intros [].
  - destruct (Z.leb_spec 3 (len m)) as [Hge|Hlt].
    + destruct (all_some (map (cluster_document G) m)) as [docs|] eqn:Hd;
        [|discriminate].
      destruct (citation_clusters_from G cs) as [rs'|]; [|discriminate].
      cbn [option_map]. intros H. inversion H; subst.
      intros [<-|Hin].
      * exists i, m, docs. split; [now left|]. auto.
      * destruct (IH rs' c eq_refl Hin) as (i' & m' & d' & Hi & Hrest).
        exists i', m', d'. split; [now right|exact Hrest].
    + intros H Hin.
      destruct (IH rs c H Hin) as (i' & m' & d' & Hi & Hrest).
      exists i', m', d'. split; [now right|exact Hrest].
Qed.

End CommunityFacts.

(** X17.  [find_research_communities], whatever the community routine
    returns: the answer is in descending order of size; every entry is
    one of the returned communities, at the index given as its id, with
    at least three members; its authors are the members in descending
    order of paper count, [key_authors] the first five of them; the paper
    count of an author is that of the author's node, [total_papers] their
    sum, and [internal_collaborations] the number of edges between
    members.  When the routine raises, the answer is empty. *)
Theorem research_communities_report
        (greedy_modularity_communities : Graph -> exc (list (list string)))
        (s : Snapshot) :
  let G := build_coauthorship_network s in
  let r := find_research_communities greedy_modularity_communities s in
  descending size r
  /\ (is_ok (greedy_modularity_communities G) = false -> r = [])
  /\ forall c, In c r ->
       exists communities members,
         greedy_modularity_communities G = Ok communities
         /\ 0 <= community_id c
         /\ nth_error communities (Z.to_nat (community_id c)) = Some members
         /\ size c = len members
         /\ 3 <= size c
         /\ Permutation (map ca_name (community_authors c)) members
         /\ descending papers_count (community_authors c)
         /\ key_authors c = firstn 5 (community_authors c)
         /\ (forall a, In a (community_authors c) ->
               papers_count a = len (papers_of (ca_name a) (documents s))
               /\ 1 <= papers_count a
               /\ collaborations_in_community a
                  = GraphOps.degree (GraphOps.subgraph G members) (ca_name a))
         /\ community_total_papers c
            = fold_right Z.add 0 (map papers_count (community_authors c))
         /\ internal_collaborations c
            = len (filter (fun e : (string * string) * EdgeData =>
                             inb (fst (fst e)) members
                             && inb (snd (fst e)) members)
                          (g_edge G)).
Proof.
  intros G r. unfold r, find_research_communities, research_communities.
  fold G.
  destruct (greedy_modularity_communities G) as [communities|e].
  - destruct (research_communities_from G (enumerate communities))
      as [rs|] eqn:Hrs.
    + split; [apply sorted_desc_descending|]. split; [discriminate|].
      intros c Hc. apply (Permutation_in _ (sorted_desc_perm size rs)) in Hc.
      destruct (@research_communities_from_In G _ rs c Hrs Hc)
        as (i & m & Hin & Hge & Hrep).
      apply enumerate_from_In in Hin. destruct Hin as [Hi Hnth].
      destruct (community_report_spec s i m Hrep)
        as (Hid & Hsize & Hperm & Hdesc & Hkey & Hauth & Htot & Hint).
      exists communities, m. rewrite Hid, Hsize.
      rewrite Z.sub_0_r in Hnth.
      repeat split; auto; try (now apply Hauth).
    + split; [constructor|]. split; [reflexivity|]. intros c [].
  - split; [constructor|]. split; [reflexivity|]. intros c [].
Qed.

(** X18.  [find_research_communities] when every member of the returned
    communities is an author node: every community of three members or
    more is reported, so the answer has as many entries as there are such
    communities, and their ids are the indexes of these communities. *)
Theorem research_communities_complete
        (greedy_modularity_communities : Graph -> exc (list (list string)))
        (s : Snapshot) (communities : list (list string)) :
  greedy_modularity_communities (build_coauthorship_network s)
  = Ok communities ->
  (forall members a, In members communities -> In a members ->
                     In a (GraphOps.nodes (build_coauthorship_network s))) ->
  len (find_research_communities greedy_modularity_communities s)
  = len (filter (fun m : list string => 3 <=? len m) communities)
  /\ Permutation
       (map community_id
            (find_research_communities greedy_modularity_communities s))
       (map fst (filter (fun im : Z * list string => 3 <=? len (snd im))
                        (enumerate communities))).
Proof.
  intros Hok Hnodes.
  unfold find_research_communities, research_communities. rewrite Hok.
  destruct (@research_communities_from_length
              (build_coauthorship_network s) (enumerate communities))
    as (rs & Hrs & Hids).
  { intros i m a Hin. apply Hnodes.
    rewrite <- (enumerate_from_snd communities 0).
    apply (in_map snd) in Hin. exact Hin. }
  rewrite Hrs.
  assert (Hperm : Permutation
                    (map community_id (sorted_desc size Z.ltb rs))
                    (map fst (filter (fun im : Z * list string =>
                                        3 <=? len (snd im))
                                     (enumerate communities)))).
  { rewrite <- Hids. apply Permutation_map, sorted_desc_perm. }
  split; [|exact Hperm].
  apply Permutation_length in Hperm. rewrite !length_map in Hperm.
  unfold len at 1 2. rewrite Hperm. f_equal.
  apply (filter_enumerate_length (fun m : list string => 3 <=? len m)).
Qed.

Lemma research_communities_complete_witness :
  len (find_research_communities one_community corpus_two_groups) = 1.
Proof.
  assert (H1 : one_community (build_coauthorship_network corpus_two_groups)
               = Ok [GraphOps.nodes
                       (build_coauthorship_network corpus_two_groups)])
    by reflexivity.
  assert (H2 : forall members a,
             In members [GraphOps.nodes
                           (build_coauthorship_network corpus_two_groups)] ->
             In a members ->
             In a (GraphOps.nodes
                     (build_coauthorship_network corpus_two_groups))).
  { intros members a [<-|[]] Ha. exact Ha. }
  rewrite (proj1 (@research_communities_complete one_community
                    corpus_two_groups _ H1 H2)).
  vm_compute. reflexivity.
Defined.

(** X19.  [find_citation_clusters], whatever the community routine
    returns: the answer is in descending order of size and empty when the
    routine raises; every cluster is one of the returned communities, at
    the index given as its id, with at least three members, and lists its
    members in their order, each with the attributes of its node: those
    of the last document with that id, or an empty title, no authors and
    no year for a node that no document backs. *)
Theorem citation_clusters_report
        (undirected_communities : DiGraph -> exc (list (list Z)))
        (s : Snapshot) :
  let G := build_citation_network s in
  let r := find_citation_clusters undirected_communities s in
  descending cluster_size r
  /\ (is_ok (undirected_communities G) = false -> r = [])
  /\ forall c, In c r ->
       exists communities members,
         undirected_communities G = Ok communities
         /\ 0 <= cluster_id c
         /\ nth_error communities (Z.to_nat (cluster_id c)) = Some members
         /\ cluster_size c = len members
         /\ 3 <= cluster_size c
         /\ map cd_id (cluster_documents c) = members
         /\ forall d, In d (cluster_documents c) ->
              In (cd_id d) (DiGraphOps.nodes G)
              /\ match last_attrs (cd_id d) (documents s) with
                 | Some a => cd_title d = title a
                             /\ cd_authors d = authors a
                             /\ cd_year d = year a
                 | None => cd_title d = "" /\ cd_authors d = []
                           /\ cd_year d = None
                 end.
Proof.
  intros G r. unfold r, find_citation_clusters, citation_clusters. fold G.
  destruct (undirected_communities G) as [communities|e].
  - destruct (citation_clusters_from G (enumerate communities))
      as [rs|] eqn:Hrs.
    + split; [apply sorted_desc_descending|]. split; [discriminate|].
      intros c Hc.
      apply (Permutation_in _ (sorted_desc_perm cluster_size rs)) in Hc.
      destruct (@citation_clusters_from_In G _ rs c Hrs Hc)
        as (i & m & docs & Hin & Hge & Hdocs & ->).
      apply enumerate_from_In in Hin. destruct Hin as [Hi Hnth].
      rewrite Z.sub_0_r in Hnth.
      destruct (all_some_spec _ _ Hdocs) as (Hlen & Hfst & Hsnd & Hall).
      exists communities, m.
      cbn [cluster_id cluster_size cluster_documents].
      assert (Hdoc : forall x d, In (x, d) (combine m docs) ->
                cd_id d = x
                /\ In x (DiGraphOps.nodes G)
                /\ match last_attrs x (documents s) with
                   | Some a => cd_title d = title a
                               /\ cd_authors d = authors a
                               /\ cd_year d = year a
                   | None => cd_title d = "" /\ cd_authors d = []
                             /\ cd_year d = None
                   end).
      { intros x d Hxd. pose proof (Hall x d Hxd) as Hx.
        unfold cluster_document in Hx.
        assert (Hnode : In x (DiGraphOps.nodes G)).
        { destruct (in_dec Z.eq_dec x (DiGraphOps.nodes G)) as [Hi'|Hi'];
            [exact Hi'|].
          apply (proj2 (dict_get_None Z.eq_dec x (dg_node G))) in Hi'.
          rewrite Hi' in Hx. discriminate. }
        unfold G in Hx. rewrite build_citation_network_get in Hx.
        destruct (last_attrs x (documents s)) as [a|].
        - inversion Hx; subst d. cbn. auto.
        - destruct (inZ x (cited_endpoints (citations s)));
            [|discriminate].
          inversion Hx; subst d. cbn. auto. }
      repeat split; auto.
      * assert (Hmap : map cd_id (map snd (combine m docs))
                       = map fst (combine m docs)).
        { clear - Hdoc. induction (combine m docs) as [|[x d] l IH];
            [reflexivity|].
          cbn [map fst snd]. rewrite IH by (intros; apply Hdoc; now right).
          f_equal. apply (Hdoc x d). now left. }
        now rewrite Hsnd, Hfst in Hmap.
      * rewrite <- Hsnd in H. apply in_map_iff in H.
        destruct H as ([x d'] & Heq & Hin). cbn [snd] in Heq. subst d'.
        destruct (Hdoc x d Hin) as (-> & Hn & _). exact Hn.
      * rewrite <- Hsnd in H. apply in_map_iff in H.
        destruct H as ([x d'] & Heq & Hin). cbn [snd] in Heq. subst d'.
        destruct (Hdoc x d Hin) as (-> & _ & Hattr). exact Hattr.
    + split; [constructor|]. split; [reflexivity|]. intros c [].
  - split; [constructor|]. split; [reflexivity|]. intros c [].
Qed.

(* ===================================================================== *)
(** ** The analysis routes                                                *)
(* ===================================================================== *)

Section RouteFacts.

Lemma find_None_iff (A : Type) (f : A -> bool) (l : list A) :
  find f l = None <-> forall x, In x l -> f x = false.
Proof.
  split; [apply find_none|].
  induction l as [|y l IH]; intros H; cbn [find]; [reflexivity|].
  rewrite (H y (or_introl eq_refl)). apply IH. intros x Hx. apply H.
  now right.
Qed.

Lemma resolve_author_None (lower : string -> string) (G : Graph)
      (author_name : string) :
  resolve_author lower G author_name = None
  <-> forall n, In n (GraphOps.nodes G) ->
                contains (lower author_name) (lower n) = false.
Proof.
  unfold resolve_author.
  destruct (in_dec string_dec author_name (GraphOps.nodes G)) as [Hin|Hout].
  - split; [discriminate|]. intros H. specialize (H _ Hin).
    rewrite contains_refl in H. discriminate.
  - apply find_None_iff.
Qed.

End RouteFacts.

(** X20.  The route [/api/analysis/citations]: the status is 200 for the
    types [overview] and [clusters] (and when no type is given), 500 with
    the [AttributeError] of the count query for [most_cited],
    [most_citing] and [timeline], on every store and for every limit, and
    400 for every other type. *)
Theorem citation_route_status
        (nx : NxLib) (undirected_communities : DiGraph -> exc (list (list Z)))
        (s : Snapshot) (request : Request) :
  let t := arg_or "overview" (arg_type request) in
  let answer := get_citation_analysis nx undirected_communities s request in
  (snd answer = 200 <-> t = "overview" \/ t = "clusters")
  /\ (snd answer = 500
      <-> t = "most_cited" \/ t = "most_citing" \/ t = "timeline")
  /\ (snd answer = 400
      <-> t <> "overview" /\ t <> "most_cited" /\ t <> "most_citing"
          /\ t <> "timeline" /\ t <> "clusters")
  /\ (snd answer = 500
      -> fst answer = ErrorOf (AttributeError "int" "label"))
  /\ (snd answer = 400
      -> fst answer = ErrorMessage "Invalid analysis type").
Proof.
  intros t answer. unfold answer, get_citation_analysis, citation_analysis_of.
  fold t.
  destruct (String.eqb_spec t "overview") as [->|H1].
  { cbn [snd fst]. repeat split; intros; try discriminate; auto;
      try (now left); intuition discriminate. }
  destruct (String.eqb_spec t "most_cited") as [->|H2].
  { cbn. repeat split; intros; try discriminate; auto;
      try (now left); intuition discriminate. }
  destruct (String.eqb_spec t "most_citing") as [->|H3].
  { cbn. repeat split; intros; try discriminate; auto;
      try (right; now left); intuition discriminate. }
  destruct (String.eqb_spec t "timeline") as [->|H4].
  { cbn. repeat split; intros; try discriminate; auto;
      try (right; now right); intuition discriminate. }
  destruct (String.eqb_spec t "clusters") as [->|H5].
  { cbn [snd fst]. repeat split; intros; try discriminate; auto;
      try (now right); intuition discriminate. }
  cbn [snd fst]. repeat split; intros; try discriminate; auto;
    intuition congruence.
Qed.

(** X21.  The route [/api/authors/<name>]: the status is 404 exactly when
    no author node has a lower-cased name that contains the lower-cased
    query, and the body is then the message that the author was not
    found; it is 500 exactly when [get_author_profile] raises, and 200
    with the profile otherwise. *)
Theorem author_route_status (lower : string -> string) (s : Snapshot)
        (author_name : string) :
  let G := build_coauthorship_network s in
  let answer := author_route lower s author_name in
  (snd answer = 404
   <-> forall n, In n (GraphOps.nodes G) ->
                 contains (lower author_name) (lower n) = false)
  /\ (snd answer = 404
      -> fst answer = Payload (ProfileError (not_found_message author_name)))
  /\ (snd answer = 500
      <-> exists e, get_author_profile lower s author_name = Raise e)
  /\ (snd answer = 200
      <-> exists p, get_author_profile lower s author_name = Ok (Profile p)
                    /\ fst answer = Payload (Profile p)).
Proof.
  intros G answer. unfold answer, author_route.
  rewrite <- (resolve_author_None lower G author_name).
  unfold get_author_profile. fold G. rewrite author_profile_resolves.
  destruct (resolve_author lower G author_name) as [author|] eqn:Hres.
  - pose proof (resolve_author_In _ _ _ Hres) as Hnode.
    pose proof (@profile_of_node G author) as Hno.
    destruct (profile_of G author) as [[msg|p]|e] eqn:Hp.
    + exfalso. apply (Hno msg Hnode). reflexivity.
    + cbn [snd fst]. repeat split; intros; try discriminate; eauto.
      * destruct H as (e & He). discriminate.
    + cbn [snd fst]. repeat split; intros; try discriminate; eauto.
      * destruct H as (p & Hp' & _). discriminate.
  - cbn [snd fst]. repeat split; intros; try discriminate; auto.
    + destruct H as (e & He). discriminate.
    + destruct H as (p & Hp' & _). discriminate.
Qed.

(* ===================================================================== *)
(** ** The batch analysis                                                 *)
(* ===================================================================== *)

Section BatchFacts.

Lemma analyze_citation_patterns_prefix (nx : NxLib) (s : Snapshot) :
  let n := DiGraphOps.number_of_nodes (build_citation_network s) in
  let e := DiGraphOps.number_of_edges (build_citation_network s) in
  exists rest,
    analyze_citation_patterns nx s
    = ("total_papers", VInt n)
      :: ("total_citations", VInt e)
      :: ("average_citations_per_paper",
           if 0 <? n then VFloat (Qmake e (Z.to_pos n)) else VInt 0)
      :: rest.
Proof.
  intros n e. unfold analyze_citation_patterns, analyze_citation_graph.
  fold n e. destruct (0 <? n); [|eexists; reflexivity].
  unfold citation_network_analysis.
  destruct (in_degree_centrality nx (build_citation_network s));
    [|eexists; reflexivity].
  destruct (out_degree_centrality nx (build_citation_network s));
    [|eexists; reflexivity].
  destruct (pagerank nx (build_citation_network s));
    [|eexists; reflexivity].
  destruct (DiGraphAlg.is_weakly_connected (build_citation_network s))
    as [[|]|]; try (eexists; reflexivity).
  destruct (DiGraphAlg.diameter_undirected (build_citation_network s));
    eexists; reflexivity.
Qed.

End BatchFacts.

(** X22.  [analyze_collection] of the batch script, on every store and
    whatever networkx returns: the log has the three citation counts and
    then the error of the most-cited query; the collaboration analysis,
    the most collaborative authors and the research communities are never
    reached. *)
Theorem batch_analysis_stops_at_the_most_cited_query
        (nx : NxLib)
        (greedy_modularity_communities : Graph -> exc (list (list string)))
        (s : Snapshot) :
  let n := DiGraphOps.number_of_nodes (build_citation_network s) in
  let e := DiGraphOps.number_of_edges (build_citation_network s) in
  analyze_collection nx greedy_modularity_communities s
  = [ LogInfo "Analyzing citation patterns..." [];
      LogInfo "Citation Analysis Results:" [];
      LogInfo "  Total papers: " [ArgValue (VInt n)];
      LogInfo "  Total citations: " [ArgValue (VInt e)];
      LogInfo "  Average citations per paper: "
        [ArgValue (if 0 <? n then VFloat (Qmake e (Z.to_pos n))
                   else VInt 0)];
      LogError nx "Error during analysis: " (AttributeError "int" "label") ]
  /\ ~ In (LogInfo "Analyzing collaboration patterns..." [])
          (analyze_collection nx greedy_modularity_communities s).
Proof.
  intros n e.
  assert (Hlog : analyze_collection nx greedy_modularity_communities s
    = [ LogInfo "Analyzing citation patterns..." [];
        LogInfo "Citation Analysis Results:" [];
        LogInfo "  Total papers: " [ArgValue (VInt n)];
        LogInfo "  Total citations: " [ArgValue (VInt e)];
        LogInfo "  Average citations per paper: "
          [ArgValue (if 0 <? n then VFloat (Qmake e (Z.to_pos n))
                     else VInt 0)];
        LogError nx "Error during analysis: "
                 (AttributeError "int" "label") ]).
  { unfold analyze_collection, analyze_collection_body.
    destruct (analyze_citation_patterns_prefix nx s) as (rest & ->).
    fold n e. unfold overview_get.
    destruct (0 <? n); reflexivity. }
  split; [exact Hlog|]. rewrite Hlog.
  intros [H|[H|[H|[H|[H|[H|[]]]]]]]; discriminate.
Qed.
